(** * CubismWebFramework: the WebGL renderer's clipping manager, shader
      selection and draw orchestration

    A shallow embedding of [src/rendering/cubismrenderer_webgl.ts].

    Conventions of the embedding.
    - A JavaScript [number] that holds a coordinate is a rational ([Q]):
      comparisons are the ones of the source, arithmetic is exact (the
      rounding of IEEE doubles is not modelled).  A [number] that holds a
      count or an id is an integer ([Z]); a loop counter or a position in a
      container is a [nat].
    - A read past the end of an array yields [undefined] in the source; it
      is [None] here ([l !! i]).
    - An object that is shared by reference (a [CubismClippingContext]) is
      identified by its position in [_clippingContextListForMask], the only
      place where contexts are created; they are never removed.
    - The calls on the WebGL context are recorded in a trace; what the
      driver answers (compile and link status, extensions) is a parameter.
    - An exception is [None]: a computation returns a result, or throws.

    The file has the embedding first, then the terms of the specification
    that the theorems compare it with, the notions of the statements and
    some concrete inputs, and then the properties. *)

From Stdlib Require Import ZArith QArith Lqa List String Lia Bool.
From stdpp Require Import base option list sorting.

(** ** Collaborators that are not part of the renderer *)

(** Modelled from the spec: [csmRect] ([type/csmrectf.ts] is not among the
    sources): a rectangle given by its origin and its extent;
    [getRight]/[getBottom] are the far edges and [expand] grows the rectangle
    by a margin on each side of each axis. *)
Module csmRect.
Local Open Scope Q_scope.

Record t : Type := mk { x : Q; y : Q; width : Q; height : Q }.

Definition getRight (r : t) : Q := x r + width r.
Definition getBottom (r : t) : Q := y r + height r.

Definition expand (w h : Q) (r : t) : t :=
  mk (x r - w) (y r - h) (width r + w * 2) (height r + h * 2).

(** [new csmRect()] *)
Definition new : t := mk 0 0 0 0.

(** Field-wise equality of the rational coordinates. *)
Definition equiv (r1 r2 : t) : Prop :=
  x r1 == x r2 /\ y r1 == y r2 /\
  width r1 == width r2 /\ height r1 == height r2.
End csmRect.

(** Modelled from the spec: [CubismMatrix44] ([math/cubismmatrix44.ts] is
    not among the sources): a 4x4 matrix kept as sixteen numbers in the
    column-major order in which [uniformMatrix4fv] reads them, with the
    standard translate and scale.  The relative operations compose on the
    right, as the source's own comment in [setupClippingContext] records
    ("new = [translate][scale][translate]"): the operation applied last to
    the matrix is the first one applied to a point. *)
Module CubismMatrix44.
Local Open Scope Q_scope.

Definition t : Type := list Q.

Definition at_ (m : t) (i : nat) : Q := nth i m 0.

(** [new CubismMatrix44()]: the identity. *)
Definition new : t :=
  [1; 0; 0; 0;
   0; 1; 0; 0;
   0; 0; 1; 0;
   0; 0; 0; 1].

(** [c[j + i * 4] = sum over k of a[k + i * 4] * b[j + k * 4]] *)
Definition multiply (a b : t) : t :=
  flat_map (fun i =>
    map (fun j =>
      fold_right Qplus 0
        (map (fun k => at_ a (k + i * 4)%nat * at_ b (j + k * 4)%nat)
             (seq 0 4)))
      (seq 0 4))
    (seq 0 4).

Definition translateRelative (tx ty : Q) (m : t) : t :=
  multiply [1; 0; 0; 0;
            0; 1; 0; 0;
            0; 0; 1; 0;
            tx; ty; 0; 1] m.

Definition scaleRelative (sx sy : Q) (m : t) : t :=
  multiply [sx; 0; 0; 0;
            0; sy; 0; 0;
            0; 0; 1; 0;
            0; 0; 0; 1] m.

Definition getArray (m : t) : list Q := m.
Definition setMatrix (tr : list Q) (_ : t) : t := tr.

(** What the vertex shaders compute: [u_clipMatrix * a_position] for a
    position [(px, py, 0, 1)], of which the first two components are
    kept ([w] stays [1] for the matrices built here). *)
Definition transformX (m : t) (px py : Q) : Q :=
  at_ m 0 * px + at_ m 4 * py + at_ m 12.
Definition transformY (m : t) (px py : Q) : Q :=
  at_ m 1 * px + at_ m 5 * py + at_ m 13.
End CubismMatrix44.

(** ** CubismClippingContext *)

Record CubismClippingContext : Type := mkClippingContext {
  (** [undefined] until [calcClippedDrawTotalBounds] writes it: the
      constructor does not assign it *)
  _isUsing : option bool;
  _clippingIdList : list Z;
  _clippingIdCount : Z;
  (** [undefined] until [setupLayoutBounds] writes it *)
  _layoutChannelNo : option nat;
  _layoutBounds : csmRect.t;
  _allClippedDrawRect : csmRect.t;
  _matrixForMask : CubismMatrix44.t;
  _matrixForDraw : CubismMatrix44.t;
  _clippedDrawableIndexList : list nat
}.

(** The constructor ([_owner], a back pointer to the manager, is left out) *)
Definition CubismClippingContext_new
    (clippingDrawableIndices : list Z) (clipCount : Z)
  : CubismClippingContext :=
  {| _isUsing := None;
     _clippingIdList := clippingDrawableIndices;
     _clippingIdCount := clipCount;
     _layoutChannelNo := None;
     _layoutBounds := csmRect.new;
     _allClippedDrawRect := csmRect.new;
     _matrixForMask := CubismMatrix44.new;
     _matrixForDraw := CubismMatrix44.new;
     _clippedDrawableIndexList := [] |}.

Definition addClippedDrawable (drawableIndex : nat)
    (cc : CubismClippingContext) : CubismClippingContext :=
  {| _isUsing := _isUsing cc;
     _clippingIdList := _clippingIdList cc;
     _clippingIdCount := _clippingIdCount cc;
     _layoutChannelNo := _layoutChannelNo cc;
     _layoutBounds := _layoutBounds cc;
     _allClippedDrawRect := _allClippedDrawRect cc;
     _matrixForMask := _matrixForMask cc;
     _matrixForDraw := _matrixForDraw cc;
     _clippedDrawableIndexList :=
       _clippedDrawableIndexList cc ++ [drawableIndex] |}.

(** ** CubismClippingManager_WebGL: the two context lists *)

Record CubismClippingManager_WebGL : Type := mkClippingManager {
  _clippingContextListForMask : list CubismClippingContext;
  (** per drawable: [null], or a reference to a context of the list above *)
  _clippingContextListForDraw : list (option nat)
}.

(** The constructor (the GL resources are left out) *)
Definition CubismClippingManager_WebGL_new : CubismClippingManager_WebGL :=
  {| _clippingContextListForMask := [];
     _clippingContextListForDraw := [] |}.

(** *** findSameClip *)

(** The innermost loop: is there [k < count] with
    [drawableMasks[k] == clipId]?  Both sides may be [undefined]. *)
Definition hasClipId (drawableMasks : list Z) (count : nat)
    (clipId : option Z) : bool :=
  existsb (fun k => bool_decide (drawableMasks !! k = clipId)) (seq 0 count).

(** The loop over [j]: [sameCount] after it. *)
Definition countSameIds (clippingIdList drawableMasks : list Z)
    (count : nat) : nat :=
  fold_left
    (fun sameCount j =>
       if hasClipId drawableMasks count (clippingIdList !! j)
       then S sameCount else sameCount)
    (seq 0 count) 0%nat.

(** The body of the loop over the contexts: does this one match? *)
Definition isSameClip (clippingContext : CubismClippingContext)
    (drawableMasks : list Z) (drawableMaskCounts : Z) : bool :=
  let count := _clippingIdCount clippingContext in
  if negb (count =? drawableMaskCounts)%Z then false
  else
    let sameCount :=
      countSameIds (_clippingIdList clippingContext) drawableMasks
                   (Z.to_nat count) in
    (Z.of_nat sameCount =? count)%Z.

Fixpoint findSameClip_from (i : nat) (l : list CubismClippingContext)
    (drawableMasks : list Z) (drawableMaskCounts : Z) : option nat :=
  match l with
  | [] => None
  | clippingContext :: rest =>
      if isSameClip clippingContext drawableMasks drawableMaskCounts
      then Some i
      else findSameClip_from (S i) rest drawableMasks drawableMaskCounts
  end.

Definition findSameClip (this : CubismClippingManager_WebGL)
    (drawableMasks : list Z) (drawableMaskCounts : Z) : option nat :=
  findSameClip_from 0 (_clippingContextListForMask this)
                    drawableMasks drawableMaskCounts.

(** *** initialize *)

Definition pushBackForMask (cc : CubismClippingContext)
    (this : CubismClippingManager_WebGL) : CubismClippingManager_WebGL :=
  {| _clippingContextListForMask := _clippingContextListForMask this ++ [cc];
     _clippingContextListForDraw := _clippingContextListForDraw this |}.

Definition pushBackForDraw (ref : option nat)
    (this : CubismClippingManager_WebGL) : CubismClippingManager_WebGL :=
  {| _clippingContextListForMask := _clippingContextListForMask this;
     _clippingContextListForDraw := _clippingContextListForDraw this ++ [ref] |}.

(** A method call on the context that a reference designates. *)
Definition updateContext (k : nat)
    (f : CubismClippingContext -> CubismClippingContext)
    (this : CubismClippingManager_WebGL) : CubismClippingManager_WebGL :=
  {| _clippingContextListForMask := alter f k (_clippingContextListForMask this);
     _clippingContextListForDraw := _clippingContextListForDraw this |}.

(** One turn of the loop of [initialize].  [None]: the loop index is past
    the end of one of the two arrays, where the source reads [undefined]
    and leaves the declared types of its parameters. *)
Definition initialize_body (drawableMasks : list (list Z))
    (drawableMaskCounts : list Z) (i : nat)
    (this : CubismClippingManager_WebGL)
  : option CubismClippingManager_WebGL :=
  cnt ← drawableMaskCounts !! i;
  if (cnt <=? 0)%Z then Some (pushBackForDraw None this)
  else
    masks ← drawableMasks !! i;
    let '(this1, k) :=
      match findSameClip this masks cnt with
      | Some k => (this, k)
      | None =>
          (pushBackForMask (CubismClippingContext_new masks cnt) this,
           length (_clippingContextListForMask this))
      end in
    Some (pushBackForDraw (Some k)
            (updateContext k (addClippedDrawable i) this1)).

Fixpoint initialize_loop (drawableMasks : list (list Z))
    (drawableMaskCounts : list Z) (indices : list nat)
    (this : CubismClippingManager_WebGL)
  : option CubismClippingManager_WebGL :=
  match indices with
  | [] => Some this
  | i :: rest =>
      this' ← initialize_body drawableMasks drawableMaskCounts i this;
      initialize_loop drawableMasks drawableMaskCounts rest this'
  end.

(** [initialize(model, drawableCount, drawableMasks, drawableMaskCounts)];
    the source does not read [model]. *)
Definition initialize (this : CubismClippingManager_WebGL)
    (drawableCount : nat) (drawableMasks : list (list Z))
    (drawableMaskCounts : list Z) : option CubismClippingManager_WebGL :=
  initialize_loop drawableMasks drawableMaskCounts (seq 0 drawableCount) this.

(** ** The model, as far as the renderer reads it *)

(** Modelled from the spec: [CubismBlendMode] and [CubismTextureColor]
    ([rendering/cubismrenderer.ts] is not among the sources): the blend
    modes Normal, Additive, Multiplicative of the spec's section 6, and a
    colour of four components. *)
Inductive CubismBlendMode : Type :=
  | CubismBlendMode_Normal
  | CubismBlendMode_Additive
  | CubismBlendMode_Multiplicative.

Record CubismTextureColor : Type := mkColor { R : Q; G : Q; B : Q; A : Q }.

(** Modelled from the spec: [CubismModel] ([model/cubismmodel.ts] is not
    among the sources), the read-only provider of per-drawable data of the
    spec's section 6: vertex count, vertex positions, render order,
    visibility, mask membership, and what a draw of the drawable is given:
    the "vertices changed this frame" flag, the culling flag, the texture,
    the index buffer and its length, the UV buffer, the opacity, the blend
    mode and the mask-inversion flag. *)
Record CubismModel : Type := mkModel {
  getDrawableCount : nat;
  getDrawableVertexCount : nat -> nat;
  (** the position buffer: x0, y0, x1, y1, ... *)
  getDrawableVertices : nat -> list Q;
  getDrawableRenderOrders : list Z;
  getDrawableDynamicFlagIsVisible : nat -> bool;
  getDrawableMasks : list (list Z);
  getDrawableMaskCounts : list Z;
  getDrawableDynamicFlagVertexPositionsDidChange : nat -> bool;
  getDrawableCulling : nat -> bool;
  getDrawableTextureIndices : nat -> Z;
  getDrawableVertexIndexCount : nat -> Z;
  getDrawableVertexIndices : nat -> list Z;
  getDrawableVertexUvs : nat -> list Q;
  getDrawableOpacity : nat -> Q;
  getDrawableBlendMode : nat -> CubismBlendMode;
  getDrawableInvertedMaskBit : nat -> bool
}.

(** Modelled from the spec: the two constants of [Constant]
    ([live2dcubismframework.ts] is not among the sources): positions are
    pairs that start at the beginning of the buffer. *)
Module Constant.
Definition vertexOffset : nat := 0.
Definition vertexStep : nat := 2.
End Constant.

(** [Number.MAX_VALUE] and [Number.MIN_VALUE] (the least positive double) *)
Definition Number_MAX_VALUE : Q := inject_Z (2 ^ 1024 - 2 ^ 971).
Definition Number_MIN_VALUE : Q := 1 # (2 ^ 1074).

Definition Qltb (a b : Q) : bool := negb (Qle_bool b a).

(** *** calcClippedDrawTotalBounds *)

Record Extent : Type := mkExtent { minX : Q; minY : Q; maxX : Q; maxY : Q }.

Definition Extent_init : Extent :=
  mkExtent Number_MAX_VALUE Number_MAX_VALUE Number_MIN_VALUE Number_MIN_VALUE.

(** [if (v < cur) cur = v] and [if (v > cur) cur = v]; a comparison with
    [undefined] is false. *)
Definition lowerTo (v : option Q) (cur : Q) : Q :=
  match v with
  | Some q => if Qltb q cur then q else cur
  | None => cur
  end.

Definition raiseTo (v : option Q) (cur : Q) : Q :=
  match v with
  | Some q => if Qltb cur q then q else cur
  | None => cur
  end.

(** The values that [pi] takes: [vertexOffset], [vertexOffset + vertexStep],
    ... as long as [pi < loop]. *)
Definition vertexPositions (loop : nat) : list nat :=
  filter (fun pi => pi < loop)%nat
    (map (fun n => Constant.vertexOffset + n * Constant.vertexStep)%nat
         (seq 0 loop)).

(** The loop over the vertices of one drawable. *)
Definition drawableExtent (model : CubismModel) (drawableIndex : nat)
  : Extent :=
  let drawableVertexCount := getDrawableVertexCount model drawableIndex in
  let drawableVertexes := getDrawableVertices model drawableIndex in
  let loop := (drawableVertexCount * Constant.vertexStep)%nat in
  fold_left
    (fun e pi =>
       let x := drawableVertexes !! pi in
       let y := drawableVertexes !! (pi + 1)%nat in
       mkExtent (lowerTo x (minX e)) (lowerTo y (minY e))
                (raiseTo x (maxX e)) (raiseTo y (maxY e)))
    (vertexPositions loop) Extent_init.

Definition setAllClippedDrawRect (r : csmRect.t) (isUsing : bool)
    (cc : CubismClippingContext) : CubismClippingContext :=
  {| _isUsing := Some isUsing;
     _clippingIdList := _clippingIdList cc;
     _clippingIdCount := _clippingIdCount cc;
     _layoutChannelNo := _layoutChannelNo cc;
     _layoutBounds := _layoutBounds cc;
     _allClippedDrawRect := r;
     _matrixForMask := _matrixForMask cc;
     _matrixForDraw := _matrixForDraw cc;
     _clippedDrawableIndexList := _clippedDrawableIndexList cc |}.

(** One turn of the loop over the clipped drawables.  The state is the
    running total and the context.  The write to the context sits inside
    the loop, after the [continue] of a drawable without a valid point. *)
Definition calcClippedDrawTotalBounds_body (model : CubismModel)
    (st : Extent * CubismClippingContext) (drawableIndex : nat)
  : Extent * CubismClippingContext :=
  let '(total, clippingContext) := st in
  let e := drawableExtent model drawableIndex in
  if Qeq_bool (minX e) Number_MAX_VALUE then st (* continue *)
  else
    let total :=
      mkExtent
        (if Qltb (minX e) (minX total) then minX e else minX total)
        (if Qltb (minY e) (minY total) then minY e else minY total)
        (if Qltb (maxX total) (maxX e) then maxX e else maxX total)
        (if Qltb (maxY total) (maxY e) then maxY e else maxY total) in
    if Qeq_bool (minX total) Number_MAX_VALUE then
      (total,
       setAllClippedDrawRect (csmRect.mk 0 0 0 0) false clippingContext)
    else
      let w := (maxX total - minX total)%Q in
      let h := (maxY total - minY total)%Q in
      (total,
       setAllClippedDrawRect (csmRect.mk (minX total) (minY total) w h)
                             true clippingContext).

Definition calcClippedDrawTotalBounds (model : CubismModel)
    (clippingContext : CubismClippingContext) : CubismClippingContext :=
  snd (fold_left (calcClippedDrawTotalBounds_body model)
                 (_clippedDrawableIndexList clippingContext)
                 (Extent_init, clippingContext)).

(** *** setupLayoutBounds *)

Inductive LogEntry : Type :=
  | CubismLogError (format : string) (args : list Z).

Definition setLayout (channelNo : nat) (bounds : csmRect.t)
    (cc : CubismClippingContext) : CubismClippingContext :=
  {| _isUsing := _isUsing cc;
     _clippingIdList := _clippingIdList cc;
     _clippingIdCount := _clippingIdCount cc;
     _layoutChannelNo := Some channelNo;
     _layoutBounds := bounds;
     _allClippedDrawRect := _allClippedDrawRect cc;
     _matrixForMask := _matrixForMask cc;
     _matrixForDraw := _matrixForDraw cc;
     _clippedDrawableIndexList := _clippedDrawableIndexList cc |}.

(** The state of [setupLayoutBounds]: the contexts, [curClipIndex] and the
    error log. *)
Record LayoutState : Type := mkLayoutState {
  layoutContexts : list CubismClippingContext;
  curClipIndex : nat;
  layoutLog : list LogEntry
}.

(** [cc = this._clippingContextListForMask.at(curClipIndex++)] followed by
    the writes to [cc].  [None]: [at] is past the end and the write to a
    field of [undefined] throws. *)
Definition layoutAt (channelNo : nat) (bounds : csmRect.t)
    (st : LayoutState) : option LayoutState :=
  match layoutContexts st !! curClipIndex st with
  | None => None
  | Some _ =>
      Some (mkLayoutState
              (alter (setLayout channelNo bounds) (curClipIndex st)
                     (layoutContexts st))
              (S (curClipIndex st)) (layoutLog st))
  end.

(** [for (let i = 0; i < layoutCount; i++)] with a body that places
    [bounds i] *)
Fixpoint layoutLoop (channelNo : nat) (bounds : nat -> csmRect.t)
    (indices : list nat) (st : LayoutState) : option LayoutState :=
  match indices with
  | [] => Some st
  | i :: rest =>
      st' ← layoutAt channelNo (bounds i) st;
      layoutLoop channelNo bounds rest st'
  end.

(** The rectangle of the [i]-th group of a channel, by the branch taken. *)
Definition halfBounds (i : nat) : csmRect.t :=
  let xpos := inject_Z (Z.of_nat (i mod 2)) in
  csmRect.mk (xpos * 0.5) 0 0.5 1.

Definition quarterBounds (i : nat) : csmRect.t :=
  let xpos := inject_Z (Z.of_nat (i mod 2)) in
  let ypos := inject_Z (Z.of_nat (i / 2)) in
  csmRect.mk (xpos * 0.5) (ypos * 0.5) 0.5 0.5.

Definition ninthBounds (i : nat) : csmRect.t :=
  let xpos := inject_Z (Z.of_nat (i mod 3)) in
  let ypos := inject_Z (Z.of_nat (i / 3)) in
  csmRect.mk (xpos / 3) (ypos / 3) (1 / 3) (1 / 3).

Definition ColorChannelCount : nat := 4.

(** One turn of the loop over the channels. *)
Definition setupLayoutBounds_channel (div mod_ : nat) (channelNo : nat)
    (st : LayoutState) : option LayoutState :=
  let layoutCount := (div + (if channelNo <? mod_ then 1 else 0))%nat in
  if (layoutCount =? 0)%nat then Some st
  else if (layoutCount =? 1)%nat then
    layoutAt channelNo (csmRect.mk 0 0 1 1) st
  else if (layoutCount =? 2)%nat then
    layoutLoop channelNo halfBounds (seq 0 layoutCount) st
  else if (layoutCount <=? 4)%nat then
    layoutLoop channelNo quarterBounds (seq 0 layoutCount) st
  else if (layoutCount <=? 9)%nat then
    layoutLoop channelNo ninthBounds (seq 0 layoutCount) st
  else
    Some (mkLayoutState (layoutContexts st) (curClipIndex st)
            (layoutLog st ++
             [CubismLogError "not supported mask count : {0}"
                             [Z.of_nat layoutCount]])).

Fixpoint setupLayoutBounds_channels (div mod_ : nat) (channels : list nat)
    (st : LayoutState) : option LayoutState :=
  match channels with
  | [] => Some st
  | channelNo :: rest =>
      st' ← setupLayoutBounds_channel div mod_ channelNo st;
      setupLayoutBounds_channels div mod_ rest st'
  end.

Definition setupLayoutBounds (usingClipCount : nat)
    (contexts : list CubismClippingContext) : option LayoutState :=
  let div := (usingClipCount / ColorChannelCount)%nat in
  let mod_ := (usingClipCount mod ColorChannelCount)%nat in
  setupLayoutBounds_channels div mod_ (seq 0 ColorChannelCount)
    (mkLayoutState contexts 0 []).

(** *** setupClippingContext *)

(** [if (cc._isUsing)]: [undefined] is falsy. *)
Definition isUsing (cc : CubismClippingContext) : bool :=
  match _isUsing cc with
  | Some b => b
  | None => false
  end.

(** The first loop: the bounds of every context, and the count of the
    contexts in use. *)
Fixpoint calcAllBounds (model : CubismModel)
    (contexts : list CubismClippingContext) (usingClipCount : nat)
  : list CubismClippingContext * nat :=
  match contexts with
  | [] => ([], usingClipCount)
  | cc :: rest =>
      let cc := calcClippedDrawTotalBounds model cc in
      let usingClipCount :=
        if isUsing cc then S usingClipCount else usingClipCount in
      let '(rest, usingClipCount) := calcAllBounds model rest usingClipCount in
      (cc :: rest, usingClipCount)
  end.

Definition MARGIN : Q := 0.05.

(** [boundsOnModel]: the rectangle on the model, with its margin *)
Definition boundsOnModel (allClipedDrawRect : csmRect.t) : csmRect.t :=
  csmRect.expand (csmRect.width allClipedDrawRect * MARGIN)
                 (csmRect.height allClipedDrawRect * MARGIN)
                 allClipedDrawRect.

(** The local function [calcMatrix] of the second loop. *)
Definition calcMatrix (allClipedDrawRect layoutBoundsOnTex01 : csmRect.t)
    (preProcess : option (CubismMatrix44.t -> CubismMatrix44.t))
  : CubismMatrix44.t :=
  let bounds := boundsOnModel allClipedDrawRect in
  let scaleX := (csmRect.width layoutBoundsOnTex01 / csmRect.width bounds)%Q in
  let scaleY :=
    (csmRect.height layoutBoundsOnTex01 / csmRect.height bounds)%Q in
  let matrix := CubismMatrix44.new in
  let matrix :=
    match preProcess with
    | Some f => f matrix
    | None => matrix
    end in
  let matrix :=
    CubismMatrix44.translateRelative
      (csmRect.x layoutBoundsOnTex01) (csmRect.y layoutBoundsOnTex01) matrix in
  let matrix := CubismMatrix44.scaleRelative scaleX scaleY matrix in
  CubismMatrix44.translateRelative
    (- csmRect.x bounds) (- csmRect.y bounds) matrix.

Definition matrixForMask (allClipedDrawRect layoutBoundsOnTex01 : csmRect.t)
  : CubismMatrix44.t :=
  CubismMatrix44.setMatrix
    (CubismMatrix44.getArray
       (calcMatrix allClipedDrawRect layoutBoundsOnTex01
          (Some (fun matrix =>
                   CubismMatrix44.scaleRelative 2 2
                     (CubismMatrix44.translateRelative (-1) (-1) matrix)))))
    CubismMatrix44.new.

Definition matrixForDraw (allClipedDrawRect layoutBoundsOnTex01 : csmRect.t)
  : CubismMatrix44.t :=
  CubismMatrix44.setMatrix
    (CubismMatrix44.getArray
       (calcMatrix allClipedDrawRect layoutBoundsOnTex01 None))
    CubismMatrix44.new.

(** The writes of one turn of the second loop to its context (the mask
    draws of that turn write no context). *)
Definition setupMatrices (clipContext : CubismClippingContext)
  : CubismClippingContext :=
  let allClipedDrawRect := _allClippedDrawRect clipContext in
  let layoutBoundsOnTex01 := _layoutBounds clipContext in
  {| _isUsing := _isUsing clipContext;
     _clippingIdList := _clippingIdList clipContext;
     _clippingIdCount := _clippingIdCount clipContext;
     _layoutChannelNo := _layoutChannelNo clipContext;
     _layoutBounds := _layoutBounds clipContext;
     _allClippedDrawRect := _allClippedDrawRect clipContext;
     _matrixForMask := matrixForMask allClipedDrawRect layoutBoundsOnTex01;
     _matrixForDraw := matrixForDraw allClipedDrawRect layoutBoundsOnTex01;
     _clippedDrawableIndexList := _clippedDrawableIndexList clipContext |}.

(** What [setupClippingContext] does to the contexts, with the error log
    of [setupLayoutBounds]: the contexts part of the method.  The method
    as a whole, with the GL calls and the mask draws in between, is
    [CubismClippingManager_WebGL_setupClippingContext] below; when it
    returns, its contexts are the ones computed here.  [None]:
    [setupLayoutBounds] threw. *)
Definition setupClippingContext (model : CubismModel)
    (this : CubismClippingManager_WebGL)
  : option (CubismClippingManager_WebGL * list LogEntry) :=
  let '(contexts, usingClipCount) :=
    calcAllBounds model (_clippingContextListForMask this) 0 in
  if (0 <? usingClipCount)%nat then
    st ← setupLayoutBounds usingClipCount contexts;
    Some ({| _clippingContextListForMask :=
               map setupMatrices (layoutContexts st);
             _clippingContextListForDraw :=
               _clippingContextListForDraw this |},
          layoutLog st)
  else
    Some ({| _clippingContextListForMask := contexts;
             _clippingContextListForDraw :=
               _clippingContextListForDraw this |}, []).

(** ** WebGL, as far as the renderer drives it *)

(** The GLSL texts of the source, by the names of their constants. *)
Inductive ShaderSource : Type :=
  | vertexShaderSrcSetupMask
  | fragmentShaderSrcsetupMask
  | vertexShaderSrc
  | vertexShaderSrcMasked
  | fragmentShaderSrcPremultipliedAlpha
  | fragmentShaderSrcMaskPremultipliedAlpha
  | fragmentShaderSrcMaskInvertedPremultipliedAlpha.

Inductive ShaderType : Type := VERTEX_SHADER | FRAGMENT_SHADER.
Inductive BufferTarget : Type := ARRAY_BUFFER | ELEMENT_ARRAY_BUFFER.
Inductive TextureUnit : Type := TEXTURE0 | TEXTURE1.
Inductive BlendFactor : Type :=
  | ZERO | ONE | DST_COLOR | ONE_MINUS_SRC_COLOR | ONE_MINUS_SRC_ALPHA.

(** A GL object (program, shader, buffer, texture) is a handle; fresh
    handles are positive, and [0] is the number the source returns for a
    program that could not be built. *)
Definition WebGLObject : Type := nat.

(** The location of an attribute or a uniform: the program and the name
    that [getAttribLocation]/[getUniformLocation] were asked for. *)
Definition Location : Type := (WebGLObject * string)%type.

(** *** The mask buffer of the clipping manager

    [getMaskRenderTexture], [release], [setGL] and the buffer size work on
    fields of the manager that the layout of the groups does not read.
    They are modelled on a record of these fields, with a trace of the GL
    calls that they issue. *)
Module MaskBuffer.

Inductive TexParameter : Type :=
  | TEXTURE_WRAP_S | TEXTURE_WRAP_T | TEXTURE_MIN_FILTER | TEXTURE_MAG_FILTER.

Inductive TexParameterValue : Type := CLAMP_TO_EDGE | LINEAR.

(** The calls, with their arguments that vary ([TEXTURE_2D], [RGBA],
    [UNSIGNED_BYTE], [FRAMEBUFFER] and [COLOR_ATTACHMENT0] are fixed). *)
Inductive Call : Type :=
  | createTexture (texture : WebGLObject)
  | bindTexture (texture : option WebGLObject)
  | texImage2D (width height : Z)
  | texParameteri (pname : TexParameter) (param : TexParameterValue)
  | createFramebuffer (framebuffer : WebGLObject)
  | bindFramebuffer (framebuffer : option WebGLObject)
  | framebufferTexture2D (texture : option WebGLObject)
  | deleteFramebuffer (framebuffer : WebGLObject)
  | deleteTexture (texture : option WebGLObject).

(** The calls so far (oldest first) and the handles handed out. *)
Record World : Type := mkWorld { calls : list Call; objects : nat }.

Record CubismRenderTextureResource : Type := mkResource {
  frameNo : Z;
  texture : WebGLObject
}.

(** The fields: [gl] tells whether [this.gl] is set. *)
Record t : Type := mk {
  gl : bool;
  _maskTexture : option CubismRenderTextureResource;
  _colorBuffer : option WebGLObject;
  _currentFrameNo : Z;
  _clippingMaskBufferSize : Z
}.

(** [new CubismClippingManager_WebGL()]: the constructor does not set
    [gl]. *)
Definition new : t := mk false None None 0 256.

Definition setGL (this : t) : t :=
  mk true (_maskTexture this) (_colorBuffer this) (_currentFrameNo this)
     (_clippingMaskBufferSize this).

Definition setClippingMaskBufferSize (size : Z) (this : t) : t :=
  mk (gl this) (_maskTexture this) (_colorBuffer this)
     (_currentFrameNo this) size.

Definition getClippingMaskBufferSize (this : t) : Z :=
  _clippingMaskBufferSize this.

(** The first statement of [setupClippingContext]:
    [this._currentFrameNo++]. *)
Definition nextFrame (this : t) : t :=
  mk (gl this) (_maskTexture this) (_colorBuffer this)
     (_currentFrameNo this + 1) (_clippingMaskBufferSize this).

Definition emit (cs : list Call) (w : World) : World :=
  mkWorld (calls w ++ cs) (objects w).

(** The second part of [getMaskRenderTexture]: the texture and the
    framebuffer are created.  [None]: a method of [this.gl] is called while
    [this.gl] is undefined. *)
Definition getMaskRenderTexture_create (s_fbo : option WebGLObject)
    (this : t) (w : World) : option (WebGLObject * t * World) :=
  if negb (gl this) then None
  else
    let size := _clippingMaskBufferSize this in
    let colorBuffer := S (objects w) in
    let buffer := S (S (objects w)) in
    Some (buffer,
          mk (gl this) (Some (mkResource (_currentFrameNo this) buffer))
             (Some colorBuffer) (_currentFrameNo this)
             (_clippingMaskBufferSize this),
          mkWorld
            (calls w ++
             [createTexture colorBuffer;
              bindTexture (Some colorBuffer);
              texImage2D size size;
              texParameteri TEXTURE_WRAP_S CLAMP_TO_EDGE;
              texParameteri TEXTURE_WRAP_T CLAMP_TO_EDGE;
              texParameteri TEXTURE_MIN_FILTER LINEAR;
              texParameteri TEXTURE_MAG_FILTER LINEAR;
              bindTexture None;
              createFramebuffer buffer;
              bindFramebuffer (Some buffer);
              framebufferTexture2D (Some colorBuffer);
              bindFramebuffer s_fbo])
            buffer).

(** [getMaskRenderTexture()], with the module variable [s_fbo]: what was
    made before is returned, with its frame number brought up to date. *)
Definition getMaskRenderTexture (s_fbo : option WebGLObject) (this : t)
    (w : World) : option (WebGLObject * t * World) :=
  match _maskTexture this with
  | Some resource =>
      if negb (texture resource =? 0)%nat then
        Some (texture resource,
              mk (gl this)
                 (Some (mkResource (_currentFrameNo this) (texture resource)))
                 (_colorBuffer this) (_currentFrameNo this)
                 (_clippingMaskBufferSize this),
              w)
      else getMaskRenderTexture_create s_fbo this w
  | None => getMaskRenderTexture_create s_fbo this w
  end.

(** [release()] of the manager *)
Definition release (this : t) (w : World) : option World :=
  if negb (gl this) then None
  else
    Some (emit
            (match _maskTexture this with
             | Some resource => [deleteFramebuffer (texture resource)]
             | None => []
             end ++ [deleteTexture (_colorBuffer this)])
            w).

(** What [CubismRenderer_WebGL.setClippingMaskBufferSize(size)] does to the
    fields of its manager: the old manager is released and a new one takes
    its place.  (The [initialize] of the new manager, which these fields do
    not take part in, is [initialize] above on a new manager.) *)
Definition CubismRenderer_WebGL_setClippingMaskBufferSize (size : Z)
    (_clippingManager : t) (w : World) : option (t * World) :=
  w' ← release _clippingManager w;
  Some (setClippingMaskBufferSize size new, w').

(** What [CubismRenderer_WebGL.startUp(gl)] does to its manager. *)
Definition startUp (_clippingManager : t) : t := setGL _clippingManager.

(** What happens to a manager between two frames, as far as these fields
    go: the frame number goes up, the size may be set. *)
Inductive Step : Type :=
  | frame
  | resize (size : Z).

Definition step (s : Step) (this : t) : t :=
  match s with
  | frame => nextFrame this
  | resize size => setClippingMaskBufferSize size this
  end.

(** [getMaskRenderTexture], then for each step of the list the step and
    [getMaskRenderTexture] again: the framebuffers returned. *)
Fixpoint getMaskRenderTexture_each (s_fbo : option WebGLObject)
    (steps : list Step) (this : t) (w : World)
  : option (list WebGLObject * t * World) :=
  '(buffer, this, w) ← getMaskRenderTexture s_fbo this w;
  match steps with
  | [] => Some ([buffer], this, w)
  | s :: rest =>
      '(buffers, this, w) ←
        getMaskRenderTexture_each s_fbo rest (step s this) w;
      Some (buffer :: buffers, this, w)
  end.

(** The textures and the framebuffers that a list of calls creates. *)
Definition created (cs : list Call) : list WebGLObject :=
  omap (fun c => match c with
                 | createTexture o | createFramebuffer o => Some o
                 | _ => None
                 end) cs.

End MaskBuffer.

(** The capabilities that [preDraw] switches off. *)
Inductive Capability : Type := SCISSOR_TEST | STENCIL_TEST | DEPTH_TEST.

(** The calls that change the state of the context, with their arguments
    (a creation call carries the handle it returned). *)
Inductive GLcall : Type :=
  | gl_createProgram (program : WebGLObject)
  | gl_createShader (shaderType : ShaderType) (shader : WebGLObject)
  | gl_shaderSource (shader : WebGLObject) (source : ShaderSource)
  | gl_compileShader (shader : WebGLObject)
  | gl_deleteShader (shader : WebGLObject)
  | gl_attachShader (program shader : WebGLObject)
  | gl_linkProgram (program : WebGLObject)
  | gl_deleteProgram (program : WebGLObject)
  | gl_useProgram (program : option WebGLObject)
  | gl_createBuffer (buffer : WebGLObject)
  | gl_bindBuffer (target : BufferTarget) (buffer : WebGLObject)
  | gl_bufferData_Float32 (target : BufferTarget) (data : list Q)
  | gl_bufferData_Uint16 (target : BufferTarget) (data : list Z)
  | gl_enableVertexAttribArray (index : Location)
  | gl_vertexAttribPointer (index : Location) (size : Z)
  | gl_activeTexture (unit : TextureUnit)
  | gl_bindTexture (texture : option WebGLObject)
  | gl_uniform1i (location : option Location) (v : Z)
  | gl_uniform4f (location : option Location) (v0 v1 v2 v3 : Q)
  | gl_uniformMatrix4fv (location : option Location) (value : list Q)
  | gl_blendFuncSeparate (srcRGB dstRGB srcAlpha dstAlpha : BlendFactor)
  | gl_enable_CULL_FACE
  | gl_disable_CULL_FACE
  | gl_frontFace_CCW
  | gl_drawElements_TRIANGLES (count : Z)
  (** the calls of [preDraw] *)
  | gl_getExtension (name : string)
  | gl_disable (cap : Capability)
  | gl_frontFace_CW
  | gl_enable_BLEND
  | gl_colorMask (red green blue alpha : bool)
  | gl_bindBuffer_null (target : BufferTarget)
  (** the calls of [setupClippingContext]; an argument of [viewport] that
      was read past the end of [s_viewport] is [undefined] *)
  | gl_viewport (x y width height : option Z)
  | gl_bindFramebuffer (framebuffer : option WebGLObject)
  | gl_clearColor (red green blue alpha : Q)
  | gl_clear_COLOR_BUFFER_BIT
  (** the calls of the mask buffer *)
  | gl_maskBuffer (c : MaskBuffer.Call).

(** What the driver answers: the compile status of a source, the link
    status of a pair of sources, and whether it has an extension. *)
Record WebGLRenderingContext : Type := mkGL {
  COMPILE_STATUS : ShaderType -> ShaderSource -> bool;
  LINK_STATUS : ShaderSource -> ShaderSource -> bool;
  getExtension : string -> bool
}.

(** The world that the calls act on: the calls so far (oldest first), the
    handles handed out, and what [CubismLogError] has written. *)
Record World : Type := mkWorld {
  glCalls : list GLcall;
  glObjects : nat;
  errorLog : list LogEntry
}.

(** A computation on the world that returns or throws ([None]). *)
Definition GL (A : Type) : Type := World -> option (A * World).

Definition ret {A : Type} (a : A) : GL A := fun w => Some (a, w).
Definition bind {A B : Type} (m : GL A) (f : A -> GL B) : GL B :=
  fun w => match m w with
           | Some (a, w') => f a w'
           | None => None
           end.
Definition throw {A : Type} : GL A := fun _ => None.

Notation "'let*' x := m 'in' f" := (bind m (fun x => f))
  (at level 10, x name, m at level 100, f at level 200).
Notation "m >> f" := (bind m (fun _ => f))
  (at level 90, right associativity).

Definition call (c : GLcall) : GL unit :=
  fun w => Some (tt, mkWorld (glCalls w ++ [c]) (glObjects w) (errorLog w)).

Definition create (c : WebGLObject -> GLcall) : GL WebGLObject :=
  fun w => let o := S (glObjects w) in
           Some (o, mkWorld (glCalls w ++ [c o]) o (errorLog w)).

Definition logError (format : string) (args : list Z) : GL unit :=
  fun w => Some (tt, mkWorld (glCalls w) (glObjects w)
                       (errorLog w ++ [CubismLogError format args])).

(** ** CubismShader_WebGL *)


(** The numeric enum [ShaderNames]. *)
Inductive ShaderNames : Type :=
  | SetupMask
  | NormalPremultipliedAlpha
  | NormalMaskedPremultipliedAlpha
  | NomralMaskedInvertedPremultipliedAlpha
  | AddPremultipliedAlpha
  | AddMaskedPremultipliedAlpha
  | AddMaskedPremultipliedAlphaInverted
  | MultPremultipliedAlpha
  | MultMaskedPremultipliedAlpha
  | MultMaskedPremultipliedAlphaInverted.

(** The members in the order of their declaration: a member's number is
    its position. *)
Definition ShaderNames_members : list ShaderNames :=
  [SetupMask;
   NormalPremultipliedAlpha; NormalMaskedPremultipliedAlpha;
   NomralMaskedInvertedPremultipliedAlpha;
   AddPremultipliedAlpha; AddMaskedPremultipliedAlpha;
   AddMaskedPremultipliedAlphaInverted;
   MultPremultipliedAlpha; MultMaskedPremultipliedAlpha;
   MultMaskedPremultipliedAlphaInverted].

Global Instance ShaderNames_eq_dec : EqDecision ShaderNames.
Proof. solve_decision. Defined.

Definition ShaderNames_number (name : ShaderNames) : nat :=
  match list_find (fun n => n = name) ShaderNames_members with
  | Some (i, _) => i
  | None => 0%nat
  end.

Record CubismShaderSet : Type := mkShaderSet {
  shaderProgram : WebGLObject;
  attributePositionLocation : Location;
  attributeTexCoordLocation : Location;
  samplerTexture0Location : option Location;
  uniformBaseColorLocation : option Location;
  uniformMatrixLocation : option Location;
  uniformClipMatrixLocation : option Location;
  samplerTexture1Location : option Location;
  uniformChannelFlagLocation : option Location
}.

(** [_shaderSets] is [undefined] until [generateShaders] has run; then it
    has one entry per number of [ShaderNames]. *)
Record CubismShader_WebGL : Type := mkShader {
  _shaderSets : option (list CubismShaderSet)
}.

(** *** compileShaderSource and loadShaderProgram *)

(** [null] is [None].  (The source's test [!shader] after [createShader]
    is on a handle that was just created.) *)
Definition compileShaderSource (gl : WebGLRenderingContext)
    (shaderType : ShaderType) (shaderSource : ShaderSource)
  : GL (option WebGLObject) :=
  let* shader := create (gl_createShader shaderType) in
  call (gl_shaderSource shader shaderSource) >>
  call (gl_compileShader shader) >>
  let status := COMPILE_STATUS gl shaderType shaderSource in
  if negb status then
    call (gl_deleteShader shader) >>
    ret None
  else ret (Some shader).

Definition loadShaderProgram (gl : WebGLRenderingContext)
    (vertexShaderSource fragmentShaderSource : ShaderSource)
  : GL WebGLObject :=
  let* shaderProgram := create gl_createProgram in
  let* vertShader := compileShaderSource gl VERTEX_SHADER vertexShaderSource in
  match vertShader with
  | None =>
      logError "Vertex shader compile error!" [] >>
      ret 0%nat
  | Some vertShader =>
      let* fragShader := compileShaderSource gl FRAGMENT_SHADER fragmentShaderSource in
      match fragShader with
      | None =>
          logError "Vertex shader compile error!" [] >>
          ret 0%nat
      | Some fragShader =>
          call (gl_attachShader shaderProgram vertShader) >>
          call (gl_attachShader shaderProgram fragShader) >>
          call (gl_linkProgram shaderProgram) >>
          let linkStatus :=
            LINK_STATUS gl vertexShaderSource fragmentShaderSource in
          if negb linkStatus then
            logError "Failed to link program: {0}"
                     [Z.of_nat shaderProgram] >>
            call (gl_deleteShader vertShader) >>
            call (gl_deleteShader fragShader) >>
            call (gl_deleteProgram shaderProgram) >>
            ret 0%nat
          else
            call (gl_deleteShader vertShader) >>
            call (gl_deleteShader fragShader) >>
            ret shaderProgram
      end
  end.

(** *** generateShaders *)

Definition commonShaderSet (shaderProgram : WebGLObject) : CubismShaderSet :=
  {| shaderProgram := shaderProgram;
     attributePositionLocation := (shaderProgram, "a_position"%string);
     attributeTexCoordLocation := (shaderProgram, "a_texCoord"%string);
     samplerTexture0Location := Some (shaderProgram, "s_texture0"%string);
     uniformBaseColorLocation := Some (shaderProgram, "u_baseColor"%string);
     uniformMatrixLocation := None;
     uniformClipMatrixLocation := None;
     samplerTexture1Location := None;
     uniformChannelFlagLocation := None |}.

Definition isInvertedShader (shaderName : ShaderNames) : bool :=
  match shaderName with
  | NomralMaskedInvertedPremultipliedAlpha
  | AddMaskedPremultipliedAlphaInverted
  | MultMaskedPremultipliedAlphaInverted => true
  | _ => false
  end.

(** One turn of the [reduce]: the entry for [index]. *)
Definition generateShader (gl : WebGLRenderingContext) (index : ShaderNames)
  : GL CubismShaderSet :=
  match index with
  | SetupMask =>
      let* shaderProgram := loadShaderProgram gl vertexShaderSrcSetupMask
                          fragmentShaderSrcsetupMask in
      let common := commonShaderSet shaderProgram in
      ret {| shaderProgram := shaderProgram;
             attributePositionLocation := attributePositionLocation common;
             attributeTexCoordLocation := attributeTexCoordLocation common;
             samplerTexture0Location := samplerTexture0Location common;
             uniformBaseColorLocation := uniformBaseColorLocation common;
             uniformMatrixLocation := None;
             uniformClipMatrixLocation :=
               Some (shaderProgram, "u_clipMatrix"%string);
             samplerTexture1Location := None;
             uniformChannelFlagLocation :=
               Some (shaderProgram, "u_channelFlag"%string) |}
  | NormalPremultipliedAlpha
  | AddPremultipliedAlpha
  | MultPremultipliedAlpha =>
      let* shaderProgram := loadShaderProgram gl vertexShaderSrc
                          fragmentShaderSrcPremultipliedAlpha in
      let common := commonShaderSet shaderProgram in
      ret {| shaderProgram := shaderProgram;
             attributePositionLocation := attributePositionLocation common;
             attributeTexCoordLocation := attributeTexCoordLocation common;
             samplerTexture0Location := samplerTexture0Location common;
             uniformBaseColorLocation := uniformBaseColorLocation common;
             uniformMatrixLocation := Some (shaderProgram, "u_matrix"%string);
             uniformClipMatrixLocation := None;
             samplerTexture1Location := None;
             uniformChannelFlagLocation := None |}
  | _ =>
      let* shaderProgram := loadShaderProgram gl vertexShaderSrcMasked
          (if isInvertedShader index
           then fragmentShaderSrcMaskInvertedPremultipliedAlpha
           else fragmentShaderSrcMaskPremultipliedAlpha) in
      let common := commonShaderSet shaderProgram in
      ret {| shaderProgram := shaderProgram;
             attributePositionLocation := attributePositionLocation common;
             attributeTexCoordLocation := attributeTexCoordLocation common;
             samplerTexture0Location := samplerTexture0Location common;
             uniformBaseColorLocation := uniformBaseColorLocation common;
             uniformMatrixLocation := Some (shaderProgram, "u_matrix"%string);
             uniformClipMatrixLocation :=
               Some (shaderProgram, "u_clipMatrix"%string);
             samplerTexture1Location :=
               Some (shaderProgram, "s_texture1"%string);
             uniformChannelFlagLocation :=
               Some (shaderProgram, "u_channelFlag"%string) |}
  end.

Fixpoint generateShaders_reduce (gl : WebGLRenderingContext)
    (indices : list ShaderNames) (acc : list CubismShaderSet)
  : GL (list CubismShaderSet) :=
  match indices with
  | [] => ret acc
  | index :: rest =>
      let* shaderSet := generateShader gl index in
      generateShaders_reduce gl rest (acc ++ [shaderSet])
  end.

Definition generateShaders (gl : WebGLRenderingContext)
  : GL (list CubismShaderSet) :=
  generateShaders_reduce gl ShaderNames_members [].

(** *** setupShaderProgram *)

Record BufferData : Type := mkBufferData {
  vertex : option WebGLObject;
  uv : option WebGLObject;
  index : option WebGLObject
}.

(** The renderer, as far as [setupShaderProgram] and [drawMesh] read and
    write it.  The two context buffers hold the context itself: no context
    is written while one of them is set.  [_colorBuffer] is the colour
    buffer of the clipping manager that owns the contexts.  The culling
    flag, the alpha flag, the model colour and the MVP matrix are the
    fields behind the getters of the base class [CubismRenderer], which is
    not among the sources. *)
Record CubismRenderer_WebGL : Type := mkRenderer {
  _clippingContextBufferForMask : option CubismClippingContext;
  _clippingContextBufferForDraw : option CubismClippingContext;
  _colorBuffer : option WebGLObject;
  _isCulling : bool;
  _isPremultipliedAlpha : bool;
  _modelColor : CubismTextureColor;
  _mvpMatrix : CubismMatrix44.t;
  _textures : Z -> option WebGLObject;
  _bufferData : BufferData
}.

Definition BlendTuple : Type :=
  (BlendFactor * BlendFactor * BlendFactor * BlendFactor)%type.

(** The local function [shaderContent]: the entry of [_shaderSets] and the
    blend factors (SRC_COLOR, DST_COLOR, SRC_ALPHA, DST_ALPHA). *)
Definition shaderContent (shaderSets : list CubismShaderSet)
    (setupMask forMasked invertedMask : bool)
    (colorBlendMode : CubismBlendMode)
  : option CubismShaderSet * BlendTuple :=
  if setupMask then
    (shaderSets !! ShaderNames_number SetupMask,
     (ZERO, ONE_MINUS_SRC_COLOR, ZERO, ONE_MINUS_SRC_ALPHA))
  else
    let shaderNameOffset :=
      if forMasked then (if invertedMask then 2 else 1) else 0 in
    match colorBlendMode with
    | CubismBlendMode_Normal =>
        (shaderSets !!
           (ShaderNames_number NormalPremultipliedAlpha + shaderNameOffset)%nat,
         (ONE, ONE_MINUS_SRC_ALPHA, ONE, ONE_MINUS_SRC_ALPHA))
    | CubismBlendMode_Additive =>
        (shaderSets !!
           (ShaderNames_number AddPremultipliedAlpha + shaderNameOffset)%nat,
         (ONE, ONE, ZERO, ONE))
    | CubismBlendMode_Multiplicative =>
        (shaderSets !!
           (ShaderNames_number MultPremultipliedAlpha + shaderNameOffset)%nat,
         (DST_COLOR, ONE_MINUS_SRC_ALPHA, ZERO, ONE))
    end.

Definition _channelColors : list CubismTextureColor :=
  [mkColor 1 0 0 0; mkColor 0 1 0 0; mkColor 0 0 1 0; mkColor 0 0 0 1].

(** [_channelColors.at(channelNo)]; [undefined] for a channel that is
    [undefined] or past the end. *)
Definition getChannelFlagAsColor (channelNo : option nat)
  : option CubismTextureColor :=
  match channelNo with
  | Some c => _channelColors !! c
  | None => None
  end.

Definition setupUniformClipMatrixLocation (renderer : CubismRenderer_WebGL)
    (shaderSet : CubismShaderSet) (context : CubismClippingContext)
  : GL unit :=
  call (gl_activeTexture TEXTURE1) >>
  call (gl_bindTexture (_colorBuffer renderer)) >>
  call (gl_uniform1i (samplerTexture1Location shaderSet) 1) >>
  call (gl_uniformMatrix4fv (uniformClipMatrixLocation shaderSet)
          (CubismMatrix44.getArray (_matrixForDraw context))).

(** Reading a component of an [undefined] colour throws. *)
Definition setupUniformChannelFlagLocation (shaderSet : CubismShaderSet)
    (context : CubismClippingContext) : GL unit :=
  match getChannelFlagAsColor (_layoutChannelNo context) with
  | Some colorChannel =>
      call (gl_uniform4f (uniformChannelFlagLocation shaderSet)
              (R colorChannel) (G colorChannel)
              (B colorChannel) (A colorChannel))
  | None => throw
  end.

(** [if (!bufferData.f) bufferData.f = this.gl.createBuffer()] *)
Definition ensureBuffer (buffer : option WebGLObject) : GL WebGLObject :=
  match buffer with
  | Some b => ret b
  | None => create gl_createBuffer
  end.

Definition setupShaderProgram (gl : WebGLRenderingContext)
    (this : CubismShader_WebGL) (renderer : CubismRenderer_WebGL)
    (textureId : option WebGLObject) (vertexCount : Z)
    (vertexArray : list Q) (indexArray : list Z) (uvArray : list Q)
    (bufferData : BufferData) (opacity : Q)
    (colorBlendMode : CubismBlendMode) (baseColor : CubismTextureColor)
    (isPremultipliedAlpha : bool) (matrix4x4 : CubismMatrix44.t)
    (invertedMask : bool)
  : GL (CubismShader_WebGL * BufferData) :=
  (if negb isPremultipliedAlpha
   then logError "NoPremultipliedAlpha is not allowed" []
   else ret tt) >>
  let* shaderSets :=
    match _shaderSets this with
    | Some shaderSets => ret shaderSets
    | None => generateShaders gl
    end in
  let setupMask := bool_decide (is_Some (_clippingContextBufferForMask renderer)) in
  let forMasked := bool_decide (is_Some (_clippingContextBufferForDraw renderer)) in
  let '(shaderSet, (SRC_COLOR, DST_COLOR_, SRC_ALPHA, DST_ALPHA)) :=
    shaderContent shaderSets setupMask forMasked invertedMask colorBlendMode in
  match shaderSet with
  | None => throw
  | Some shaderSet =>
      call (gl_useProgram (Some (shaderProgram shaderSet))) >>
      let* vertexBuffer := ensureBuffer (vertex bufferData) in
      call (gl_bindBuffer ARRAY_BUFFER vertexBuffer) >>
      call (gl_bufferData_Float32 ARRAY_BUFFER vertexArray) >>
      call (gl_enableVertexAttribArray (attributePositionLocation shaderSet)) >>
      call (gl_vertexAttribPointer (attributePositionLocation shaderSet) 2) >>
      let* uvBuffer := ensureBuffer (uv bufferData) in
      call (gl_bindBuffer ARRAY_BUFFER uvBuffer) >>
      call (gl_bufferData_Float32 ARRAY_BUFFER uvArray) >>
      call (gl_enableVertexAttribArray (attributeTexCoordLocation shaderSet)) >>
      call (gl_vertexAttribPointer (attributeTexCoordLocation shaderSet) 2) >>
      call (gl_activeTexture TEXTURE0) >>
      call (gl_bindTexture textureId) >>
      call (gl_uniform1i (samplerTexture0Location shaderSet) 0) >>
      let* indexBuffer := ensureBuffer (index bufferData) in
      call (gl_bindBuffer ELEMENT_ARRAY_BUFFER indexBuffer) >>
      call (gl_bufferData_Uint16 ELEMENT_ARRAY_BUFFER indexArray) >>
      call (gl_blendFuncSeparate SRC_COLOR DST_COLOR_ SRC_ALPHA DST_ALPHA) >>
      match _clippingContextBufferForMask renderer with
      | Some context =>
          setupUniformChannelFlagLocation shaderSet context >>
          call (gl_uniformMatrix4fv (uniformClipMatrixLocation shaderSet)
                  (CubismMatrix44.getArray (_matrixForMask context))) >>
          let rect := _layoutBounds context in
          call (gl_uniform4f (uniformBaseColorLocation shaderSet)
                  (csmRect.x rect * 2 - 1)
                  (csmRect.y rect * 2 - 1)
                  (csmRect.getRight rect * 2 - 1)
                  (csmRect.getBottom rect * 2 - 1))
      | None =>
          match _clippingContextBufferForDraw renderer with
          | Some context =>
              setupUniformClipMatrixLocation renderer shaderSet context >>
              setupUniformChannelFlagLocation shaderSet context
          | None => ret tt
          end >>
          call (gl_uniformMatrix4fv (uniformMatrixLocation shaderSet)
                  (CubismMatrix44.getArray matrix4x4)) >>
          call (gl_uniform4f (uniformBaseColorLocation shaderSet)
                  (R baseColor) (G baseColor) (B baseColor) (A baseColor))
      end >>
      ret (mkShader (Some shaderSets),
           mkBufferData (Some vertexBuffer) (Some uvBuffer) (Some indexBuffer))
  end.

(** ** CubismRenderer_WebGL *)

(** [CubismShader_WebGL.getInstance()]: the singleton, created on first use *)
Definition getInstance (s_instance : option CubismShader_WebGL)
  : CubismShader_WebGL :=
  match s_instance with
  | Some instance => instance
  | None => mkShader None
  end.

(** *** drawMesh *)

Definition drawMesh (gl : WebGLRenderingContext)
    (s_instance : option CubismShader_WebGL) (this : CubismRenderer_WebGL)
    (textureNo indexCount vertexCount : Z)
    (indexArray : list Z) (vertexArray uvArray : list Q)
    (opacity : Q) (colorBlendMode : CubismBlendMode) (invertedMask : bool)
  : GL (option CubismShader_WebGL * CubismRenderer_WebGL) :=
  (if _isCulling this then call gl_enable_CULL_FACE
   else call gl_disable_CULL_FACE) >>
  call gl_frontFace_CCW >>
  let modelColorRGBA :=
    match _clippingContextBufferForMask this with
    | None =>
        let a := (A (_modelColor this) * opacity)%Q in
        if _isPremultipliedAlpha this then
          mkColor (R (_modelColor this) * a) (G (_modelColor this) * a)
                  (B (_modelColor this) * a) a
        else
          mkColor (R (_modelColor this)) (G (_modelColor this))
                  (B (_modelColor this)) a
    | Some _ => _modelColor this
    end in
  let drawtexture := _textures this textureNo in
  let* r :=
    setupShaderProgram gl (getInstance s_instance) this drawtexture
      vertexCount vertexArray indexArray uvArray (_bufferData this) opacity
      colorBlendMode modelColorRGBA (_isPremultipliedAlpha this)
      (_mvpMatrix this) invertedMask in
  call (gl_drawElements_TRIANGLES indexCount) >>
  call (gl_useProgram None) >>
  ret (Some (fst r),
       {| _clippingContextBufferForMask := None;
          _clippingContextBufferForDraw := None;
          _colorBuffer := _colorBuffer this;
          _isCulling := _isCulling this;
          _isPremultipliedAlpha := _isPremultipliedAlpha this;
          _modelColor := _modelColor this;
          _mvpMatrix := _mvpMatrix this;
          _textures := _textures this;
          _bufferData := snd r |}).

(** *** doDrawModel: the order of the screen pass *)

(** Modelled from the spec: [csmVector] ([type/csmvector.ts] is not among
    the sources), an indexed container: [at] reads a slot, [set] writes
    one, [resize] sets the number of slots and fills the new ones.  The
    list holds the slots below the size; a [set] at an index that is not
    one of them changes none of them. *)
Module csmVector.
Definition at_ {A : Type} (v : list A) (i : nat) : option A := v !! i.

Definition set {A : Type} (index : Z) (value : A) (v : list A) : list A :=
  if (0 <=? index)%Z then <[Z.to_nat index := value]> v else v.

Definition resize {A : Type} (newSize : nat) (value : A) (v : list A)
  : list A :=
  take newSize v ++ repeat value (newSize - length v).
End csmVector.

(** [CubismRenderer_WebGL.initialize], for [_sortedDrawableIndexList] *)
Definition initialize_sortedDrawableIndexList (model : CubismModel)
    (_sortedDrawableIndexList : list nat) : list nat :=
  csmVector.resize (getDrawableCount model) 0%nat _sortedDrawableIndexList.

(** The first loop of the screen pass:
    [this._sortedDrawableIndexList.set(renderOrder[i], i)]. *)
Definition sortDrawableIndices (drawableCount : nat) (renderOrder : list Z)
    (_sortedDrawableIndexList : list nat) : list nat :=
  fold_left
    (fun sorted i =>
       match renderOrder !! i with
       | Some order => csmVector.set order i sorted
       | None => sorted (* a write to the property "undefined" *)
       end)
    (seq 0 drawableCount) _sortedDrawableIndexList.

(** The setters of the renderer ([setIsCulling] is one of the base class) *)
Definition setClippingContextBufferForMask
    (clip : option CubismClippingContext) (this : CubismRenderer_WebGL)
  : CubismRenderer_WebGL :=
  {| _clippingContextBufferForMask := clip;
     _clippingContextBufferForDraw := _clippingContextBufferForDraw this;
     _colorBuffer := _colorBuffer this;
     _isCulling := _isCulling this;
     _isPremultipliedAlpha := _isPremultipliedAlpha this;
     _modelColor := _modelColor this;
     _mvpMatrix := _mvpMatrix this;
     _textures := _textures this;
     _bufferData := _bufferData this |}.

Definition setClippingContextBufferForDraw
    (clip : option CubismClippingContext) (this : CubismRenderer_WebGL)
  : CubismRenderer_WebGL :=
  {| _clippingContextBufferForMask := _clippingContextBufferForMask this;
     _clippingContextBufferForDraw := clip;
     _colorBuffer := _colorBuffer this;
     _isCulling := _isCulling this;
     _isPremultipliedAlpha := _isPremultipliedAlpha this;
     _modelColor := _modelColor this;
     _mvpMatrix := _mvpMatrix this;
     _textures := _textures this;
     _bufferData := _bufferData this |}.

Definition setIsCulling (culling : bool) (this : CubismRenderer_WebGL)
  : CubismRenderer_WebGL :=
  {| _clippingContextBufferForMask := _clippingContextBufferForMask this;
     _clippingContextBufferForDraw := _clippingContextBufferForDraw this;
     _colorBuffer := _colorBuffer this;
     _isCulling := culling;
     _isPremultipliedAlpha := _isPremultipliedAlpha this;
     _modelColor := _modelColor this;
     _mvpMatrix := _mvpMatrix this;
     _textures := _textures this;
     _bufferData := _bufferData this |}.

(** The context that the second loop attaches for a drawable:
    [_clippingManager != null ?
     _clippingManager.getClippingContextListForDraw().at(drawableIndex)
     : null].  An entry of the draw list is [null] or designates a context
    of the mask list; a read past the end of the draw list is [undefined],
    which the draw takes for no context, as it takes [null]. *)
Definition clippingContextForDraw
    (_clippingManager : option CubismClippingManager_WebGL)
    (drawableIndex : nat) : option CubismClippingContext :=
  match _clippingManager with
  | Some manager =>
      match _clippingContextListForDraw manager !! drawableIndex with
      | Some (Some k) => _clippingContextListForMask manager !! k
      | _ => None
      end
  | None => None
  end.

(** The second loop, over the positions [indices] of the sorted list: a
    drawable that is not visible is passed over; for a visible one the
    context and the culling flag are set and [drawMesh] is called.  The
    loop throws where [drawMesh] throws, and where a slot of the list
    reads [undefined].  The result has the drawables for which [drawMesh]
    was called, in the order of the calls. *)
Fixpoint drawLoop (gl : WebGLRenderingContext) (model : CubismModel)
    (_clippingManager : option CubismClippingManager_WebGL)
    (sorted : list nat) (indices : list nat)
    (s_instance : option CubismShader_WebGL) (this : CubismRenderer_WebGL)
  : GL (option CubismShader_WebGL * CubismRenderer_WebGL * list nat) :=
  match indices with
  | [] => ret (s_instance, this, [])
  | i :: rest =>
      match csmVector.at_ sorted i with
      | None => throw
      | Some drawableIndex =>
          if negb (getDrawableDynamicFlagIsVisible model drawableIndex)
          then (* continue *)
            drawLoop gl model _clippingManager sorted rest s_instance this
          else
            let this :=
              setClippingContextBufferForDraw
                (clippingContextForDraw _clippingManager drawableIndex)
                this in
            let this :=
              setIsCulling (getDrawableCulling model drawableIndex) this in
            let* r :=
              drawMesh gl s_instance this
                (getDrawableTextureIndices model drawableIndex)
                (getDrawableVertexIndexCount model drawableIndex)
                (Z.of_nat (getDrawableVertexCount model drawableIndex))
                (getDrawableVertexIndices model drawableIndex)
                (getDrawableVertices model drawableIndex)
                (getDrawableVertexUvs model drawableIndex)
                (getDrawableOpacity model drawableIndex)
                (getDrawableBlendMode model drawableIndex)
                (getDrawableInvertedMaskBit model drawableIndex) in
            let* r' :=
              drawLoop gl model _clippingManager sorted rest
                       (fst r) (snd r) in
            ret (fst r', drawableIndex :: snd r')
      end
  end.

(** The screen pass of [doDrawModel], from the read of the drawable count
    to the end: the list after the sort, the shader instance and the
    renderer that the draws leave, and the drawables drawn. *)
Definition doDrawModel_screenPass (gl : WebGLRenderingContext)
    (model : CubismModel)
    (_clippingManager : option CubismClippingManager_WebGL)
    (_sortedDrawableIndexList : list nat)
    (s_instance : option CubismShader_WebGL) (this : CubismRenderer_WebGL)
  : GL (list nat * (option CubismShader_WebGL * CubismRenderer_WebGL
                    * list nat)) :=
  let drawableCount := getDrawableCount model in
  let renderOrder := getDrawableRenderOrders model in
  let sorted :=
    sortDrawableIndices drawableCount renderOrder _sortedDrawableIndexList in
  let* r :=
    drawLoop gl model _clippingManager sorted (seq 0 drawableCount)
             s_instance this in
  ret (sorted, r).

(** ** The specification's own terms

    The definitions of this part follow the words of the specification,
    not the source; the theorems compare them with the embedding above. *)

(** *** The layout rule *)

(** "Channels [0..remainder-1] receive [base+1] groups, the rest receive
    [base]", with [base = floor(n / 4)] and [remainder = n mod 4]. *)
Definition specChannelCount (n channelNo : nat) : nat :=
  (n / 4 + (if channelNo <? n mod 4 then 1 else 0))%nat.

(** Groups are handed out in list order, channel after channel: the
    position in the list of the first group of a channel. *)
Definition specChannelStart (n channelNo : nat) : nat :=
  list_sum (map (specChannelCount n) (seq 0 channelNo)).

(** Tile [i] of a grid of [cols] columns and [rows] rows over the unit
    square, row by row. *)
Definition gridTile (cols rows i : nat) : csmRect.t :=
  csmRect.mk
    (inject_Z (Z.of_nat (i mod cols)) / inject_Z (Z.of_nat cols))
    (inject_Z (Z.of_nat (i / cols)) / inject_Z (Z.of_nat rows))
    (1 / inject_Z (Z.of_nat cols))
    (1 / inject_Z (Z.of_nat rows)).

(** "n=1: the whole unit square; n=2: horizontal halves (x-split at 0.5);
    n<=4: 2x2 grid; n<=9: 3x3 grid". *)
Definition specTile (k i : nat) : csmRect.t :=
  if (k =? 1)%nat then gridTile 1 1 i
  else if (k =? 2)%nat then gridTile 2 1 i
  else if (k <=? 4)%nat then gridTile 2 2 i
  else gridTile 3 3 i.

(** *** The order of the screen pass *)

(** "A stable sort by render-order integer": insertion sort from the right,
    where an index goes before the first index whose render order is not
    smaller; an index that came earlier stays ahead of the later ones of
    the same render order. *)
Fixpoint stableInsert (renderOrder : nat -> Z) (i : nat) (l : list nat)
  : list nat :=
  match l with
  | [] => [i]
  | j :: rest =>
      if (renderOrder i <=? renderOrder j)%Z then i :: j :: rest
      else j :: stableInsert renderOrder i rest
  end.

Definition stableSortByRenderOrder (renderOrder : nat -> Z)
    (indices : list nat) : list nat :=
  fold_right (stableInsert renderOrder) [] indices.

(** The render order of a drawable as a function of its index. *)
Definition renderOrderOf (model : CubismModel) (i : nat) : Z :=
  default 0%Z (getDrawableRenderOrders model !! i).

(** *** The selection of the shader variant *)

(** "variant identity derived from {pass = setup|normal|add|mult,
    maskState = unmasked|masked|masked-inverted}" *)
Inductive MaskState : Type := Unmasked | Masked | MaskedInverted.

Definition specMaskState (forMasked invertedMask : bool) : MaskState :=
  if forMasked then (if invertedMask then MaskedInverted else Masked)
  else Unmasked.

Definition specVariant (colorBlendMode : CubismBlendMode)
    (maskState : MaskState) : ShaderNames :=
  match colorBlendMode, maskState with
  | CubismBlendMode_Normal, Unmasked => NormalPremultipliedAlpha
  | CubismBlendMode_Normal, Masked => NormalMaskedPremultipliedAlpha
  | CubismBlendMode_Normal, MaskedInverted =>
      NomralMaskedInvertedPremultipliedAlpha
  | CubismBlendMode_Additive, Unmasked => AddPremultipliedAlpha
  | CubismBlendMode_Additive, Masked => AddMaskedPremultipliedAlpha
  | CubismBlendMode_Additive, MaskedInverted =>
      AddMaskedPremultipliedAlphaInverted
  | CubismBlendMode_Multiplicative, Unmasked => MultPremultipliedAlpha
  | CubismBlendMode_Multiplicative, Masked => MultMaskedPremultipliedAlpha
  | CubismBlendMode_Multiplicative, MaskedInverted =>
      MultMaskedPremultipliedAlphaInverted
  end.

Definition specBlend (colorBlendMode : CubismBlendMode) : BlendTuple :=
  match colorBlendMode with
  | CubismBlendMode_Normal => (ONE, ONE_MINUS_SRC_ALPHA, ONE, ONE_MINUS_SRC_ALPHA)
  | CubismBlendMode_Additive => (ONE, ONE, ZERO, ONE)
  | CubismBlendMode_Multiplicative => (DST_COLOR, ONE_MINUS_SRC_ALPHA, ZERO, ONE)
  end.

(** ** Notions used in the statements *)

(** *** What [initialize] and [findSameClip] work on *)

(** What the loop guarantees for the drawables below [n]. *)
Definition initialized_upto (drawableMaskCounts : list Z) (n : nat)
    (this : CubismClippingManager_WebGL) : Prop :=
  length (_clippingContextListForDraw this) = n /\
  forall i cnt, (i < n)%nat -> drawableMaskCounts !! i = Some cnt ->
    ((cnt <= 0)%Z -> _clippingContextListForDraw this !! i = Some None) /\
    ((0 < cnt)%Z ->
     exists k cc,
       _clippingContextListForDraw this !! i = Some (Some k) /\
       _clippingContextListForMask this !! k = Some cc /\
       i ∈ _clippedDrawableIndexList cc).

(** The manager in which the list [ids] has been registered as a context,
    as [initialize] does for the first masked drawable. *)
Definition registered (ids : list Z) : CubismClippingManager_WebGL :=
  pushBackForMask (CubismClippingContext_new ids (Z.of_nat (length ids)))
                  CubismClippingManager_WebGL_new.

(** *** What a run of [setupLayoutBounds] leaves *)

(** The rectangle that the source gives to group [i] of a channel with
    [layoutCount] groups. *)
Definition branchBounds (layoutCount i : nat) : csmRect.t :=
  if (layoutCount =? 1)%nat then csmRect.mk 0 0 1 1
  else if (layoutCount =? 2)%nat then halfBounds i
  else if (layoutCount <=? 4)%nat then quarterBounds i
  else ninthBounds i.

(** What a run over [k] groups, starting at [curClipIndex], leaves. *)
Definition placed (channelNo : nat) (bounds : nat -> csmRect.t) (k : nat)
    (st st' : LayoutState) : Prop :=
  curClipIndex st' = (curClipIndex st + k)%nat /\
  layoutLog st' = layoutLog st /\
  length (layoutContexts st') = length (layoutContexts st) /\
  (forall i, (i < k)%nat ->
     layoutContexts st' !! (curClipIndex st + i)%nat =
     setLayout channelNo (bounds i) <$>
       layoutContexts st !! (curClipIndex st + i)%nat) /\
  (forall p, (p < curClipIndex st \/ curClipIndex st + k <= p)%nat ->
     layoutContexts st' !! p = layoutContexts st !! p).

(** The groups handed out before channel [c], counting from channel [c0]. *)
Definition countsFrom (div mod_ c0 c : nat) : nat :=
  list_sum (map (fun ch => div + (if ch <? mod_ then 1 else 0))%nat
                (seq c0 (c - c0))).

(** *** GL computations *)

(** The later world keeps the calls and the log of the earlier one. *)
Definition extends (w w' : World) : Prop :=
  (exists cs, glCalls w' = glCalls w ++ cs) /\
  (exists es, errorLog w' = errorLog w ++ es).

(** A computation that only appends. *)
Definition Steady {A : Type} (m : GL A) : Prop :=
  forall w a w', m w = Some (a, w') -> extends w w'.

(** A computation that returns from every world. *)
Definition Total {A : Type} (m : GL A) : Prop :=
  forall w, exists a w', m w = Some (a, w').

(** [_shaderSets] is unset, or has its ten entries. *)
Definition shaderSetsComplete (this : CubismShader_WebGL) : Prop :=
  match _shaderSets this with
  | Some shaderSets => length shaderSets = length ShaderNames_members
  | None => True
  end.

(** A context buffer is unset, or holds a context with a channel. *)
Definition hasChannel (buffer : option CubismClippingContext) : Prop :=
  match buffer with
  | Some context =>
      exists c, _layoutChannelNo context = Some c /\ (c < ColorChannelCount)%nat
  | None => True
  end.

(** The pair of sources that [generateShaders] loads for a variant. *)
Definition shaderSources (name : ShaderNames) : ShaderSource * ShaderSource :=
  match name with
  | SetupMask => (vertexShaderSrcSetupMask, fragmentShaderSrcsetupMask)
  | NormalPremultipliedAlpha | AddPremultipliedAlpha | MultPremultipliedAlpha =>
      (vertexShaderSrc, fragmentShaderSrcPremultipliedAlpha)
  | NormalMaskedPremultipliedAlpha | AddMaskedPremultipliedAlpha
  | MultMaskedPremultipliedAlpha =>
      (vertexShaderSrcMasked, fragmentShaderSrcMaskPremultipliedAlpha)
  | _ => (vertexShaderSrcMasked,
          fragmentShaderSrcMaskInvertedPremultipliedAlpha)
  end.

(** A shader of the pair does not compile, or the program does not link. *)
Definition buildFails (gl : WebGLRenderingContext)
    (vertexShaderSource fragmentShaderSource : ShaderSource) : Prop :=
  COMPILE_STATUS gl VERTEX_SHADER vertexShaderSource = false \/
  COMPILE_STATUS gl FRAGMENT_SHADER fragmentShaderSource = false \/
  LINK_STATUS gl vertexShaderSource fragmentShaderSource = false.

(** The world with another log. *)
Definition withLog (log : list LogEntry) (w : World) : World :=
  mkWorld (glCalls w) (glObjects w) log.

(** A computation that does not read the log: from a world with another
    log it does the same, and appends the same entries. *)
Definition LogBlind {A : Type} (m : GL A) : Prop :=
  forall w log,
    match m w with
    | Some (a, w') =>
        exists es, errorLog w' = errorLog w ++ es /\
                   m (withLog log w) = Some (a, withLog (log ++ es) w')
    | None => m (withLog log w) = None
    end.

(** A computation that returns from every world, with a value in [P]. *)
Definition Returns {A : Type} (P : A -> Prop) (m : GL A) : Prop :=
  forall w, exists a w', m w = Some (a, w') /\ P a.

(** ** Concrete inputs *)

(** *** Contexts and models *)

(** A context that clips drawable 0, as [initialize] leaves it. *)
Definition oneDrawableContext : CubismClippingContext :=
  addClippedDrawable 0 (CubismClippingContext_new [1%Z] 1).

(** Drawable 0 with the two points (1,2) and (4,6) ... *)
Definition frameWithPoints : CubismModel :=
  {| getDrawableCount := 2;
     getDrawableVertexCount := fun _ => 2%nat;
     getDrawableVertices := fun _ => [1; 2; 4; 6]%Q;
     getDrawableRenderOrders := [0; 1]%Z;
     getDrawableDynamicFlagIsVisible := fun _ => true;
     getDrawableMasks := [[1%Z]; []];
     getDrawableMaskCounts := [1; 0]%Z;
     getDrawableDynamicFlagVertexPositionsDidChange := fun _ => true;
     getDrawableCulling := fun _ => false;
     getDrawableTextureIndices := fun _ => 0%Z;
     getDrawableVertexIndexCount := fun _ => 0%Z;
     getDrawableVertexIndices := fun _ => [];
     getDrawableVertexUvs := fun _ => [];
     getDrawableOpacity := fun _ => 1%Q;
     getDrawableBlendMode := fun _ => CubismBlendMode_Normal;
     getDrawableInvertedMaskBit := fun _ => false |}.

(** ... and the same model in a frame where it has no vertex. *)
Definition frameWithoutPoints : CubismModel :=
  {| getDrawableCount := 2;
     getDrawableVertexCount := fun _ => 0%nat;
     getDrawableVertices := fun _ => [];
     getDrawableRenderOrders := [0; 1]%Z;
     getDrawableDynamicFlagIsVisible := fun _ => true;
     getDrawableMasks := [[1%Z]; []];
     getDrawableMaskCounts := [1; 0]%Z;
     getDrawableDynamicFlagVertexPositionsDidChange := fun _ => true;
     getDrawableCulling := fun _ => false;
     getDrawableTextureIndices := fun _ => 0%Z;
     getDrawableVertexIndexCount := fun _ => 0%Z;
     getDrawableVertexIndices := fun _ => [];
     getDrawableVertexUvs := fun _ => [];
     getDrawableOpacity := fun _ => 1%Q;
     getDrawableBlendMode := fun _ => CubismBlendMode_Normal;
     getDrawableInvertedMaskBit := fun _ => false |}.

(** Four drawables: 0 is masked by 2 and has no vertex, 1 is masked by 3
    and has two points; 2 and 3 are the unmasked mask sources.  No vertex
    changed in this frame. *)
Definition modelWithIdleGroup : CubismModel :=
  {| getDrawableCount := 4;
     getDrawableVertexCount := fun i => if (i =? 0)%nat then 0%nat else 2%nat;
     getDrawableVertices :=
       fun i => if (i =? 0)%nat then [] else [1; 2; 4; 6]%Q;
     getDrawableRenderOrders := [0; 1; 2; 3]%Z;
     getDrawableDynamicFlagIsVisible := fun _ => true;
     getDrawableMasks := [[2%Z]; [3%Z]; []; []];
     getDrawableMaskCounts := [1; 1; 0; 0]%Z;
     getDrawableDynamicFlagVertexPositionsDidChange := fun _ => false;
     getDrawableCulling := fun _ => false;
     getDrawableTextureIndices := fun _ => 0%Z;
     getDrawableVertexIndexCount := fun _ => 0%Z;
     getDrawableVertexIndices := fun _ => [];
     getDrawableVertexUvs := fun _ => [];
     getDrawableOpacity := fun _ => 1%Q;
     getDrawableBlendMode := fun _ => CubismBlendMode_Normal;
     getDrawableInvertedMaskBit := fun _ => false |}.

(** [initialize] on a fresh manager, then one [setupClippingContext]. *)
Definition firstFrame (model : CubismModel)
  : option (CubismClippingManager_WebGL * list LogEntry) :=
  this ← initialize CubismClippingManager_WebGL_new
           (getDrawableCount model) (getDrawableMasks model)
           (getDrawableMaskCounts model);
  setupClippingContext model this.

(** A context in use, with bounds (1, 2, 10, 20) and the right half of a
    channel as its layout. *)
Definition contextInUse : CubismClippingContext :=
  setLayout 0 (csmRect.mk (1 # 2) 0 (1 # 2) 1)
    (setAllClippedDrawRect (csmRect.mk 1 2 10 20) true oneDrawableContext).

(** *** Drivers, a world and a renderer *)

Definition glBuildsAll : WebGLRenderingContext :=
  mkGL (fun _ _ => true) (fun _ _ => true) (fun _ => false).

(** A driver on which no vertex shader compiles. *)
Definition glBuildsNone : WebGLRenderingContext :=
  mkGL (fun shaderType _ =>
          match shaderType with
          | VERTEX_SHADER => false
          | FRAGMENT_SHADER => true
          end)
       (fun _ _ => true) (fun _ => false).

Definition emptyWorld : World := mkWorld [] 0 [].

(** A renderer outside the mask pass, drawing an unmasked drawable. *)
Definition plainRenderer : CubismRenderer_WebGL :=
  {| _clippingContextBufferForMask := None;
     _clippingContextBufferForDraw := None;
     _colorBuffer := None;
     _isCulling := false;
     _isPremultipliedAlpha := true;
     _modelColor := mkColor 1 1 1 1;
     _mvpMatrix := CubismMatrix44.new;
     _textures := fun _ => None;
     _bufferData := mkBufferData None None None |}.

(** Four drawables with the render orders 3, 1, 2, 1, all visible. *)
Definition modelWithTiedOrders : CubismModel :=
  {| getDrawableCount := 4;
     getDrawableVertexCount := fun _ => 0%nat;
     getDrawableVertices := fun _ => [];
     getDrawableRenderOrders := [3; 1; 2; 1]%Z;
     getDrawableDynamicFlagIsVisible := fun _ => true;
     getDrawableMasks := [[]; []; []; []];
     getDrawableMaskCounts := [0; 0; 0; 0]%Z;
     getDrawableDynamicFlagVertexPositionsDidChange := fun _ => true;
     getDrawableCulling := fun _ => false;
     getDrawableTextureIndices := fun _ => 0%Z;
     getDrawableVertexIndexCount := fun _ => 0%Z;
     getDrawableVertexIndices := fun _ => [];
     getDrawableVertexUvs := fun _ => [];
     getDrawableOpacity := fun _ => 1%Q;
     getDrawableBlendMode := fun _ => CubismBlendMode_Normal;
     getDrawableInvertedMaskBit := fun _ => false |}.

(** Four drawables with the render orders 3, 1, 2, 0; drawable 2 is
    hidden. *)
Definition modelWithRanks : CubismModel :=
  {| getDrawableCount := 4;
     getDrawableVertexCount := fun _ => 0%nat;
     getDrawableVertices := fun _ => [];
     getDrawableRenderOrders := [3; 1; 2; 0]%Z;
     getDrawableDynamicFlagIsVisible := fun i => negb (i =? 2)%nat;
     getDrawableMasks := [[]; []; []; []];
     getDrawableMaskCounts := [0; 0; 0; 0]%Z;
     getDrawableDynamicFlagVertexPositionsDidChange := fun _ => true;
     getDrawableCulling := fun _ => false;
     getDrawableTextureIndices := fun _ => 0%Z;
     getDrawableVertexIndexCount := fun _ => 0%Z;
     getDrawableVertexIndices := fun _ => [];
     getDrawableVertexUvs := fun _ => [];
     getDrawableOpacity := fun _ => 1%Q;
     getDrawableBlendMode := fun _ => CubismBlendMode_Normal;
     getDrawableInvertedMaskBit := fun _ => false |}.

(** ** Notions used in the further statements *)

(** *** Managers and contexts *)

(** The count of a context is the length of its id list, as for every
    context that [initialize] builds from a model ([drawableMaskCounts[i]]
    is the length of [drawableMasks[i]]). *)
Definition countedContext (cc : CubismClippingContext) : Prop :=
  _clippingIdCount cc = Z.of_nat (length (_clippingIdList cc)).

(** A context matches a list: same length, and each of its ids occurs. *)
Definition matchesIds (cc : CubismClippingContext) (masks : list Z) : Prop :=
  length (_clippingIdList cc) = length masks /\
  forall x, x ∈ _clippingIdList cc -> x ∈ masks.

(** The mask arrays of a model: one per drawable, without duplicate ids,
    with the counts being their lengths. *)
Definition masksOfModel (drawableCount : nat) (drawableMasks : list (list Z))
    (drawableMaskCounts : list Z) : Prop :=
  length drawableMasks = drawableCount /\
  drawableMaskCounts = (fun ms => Z.of_nat (length ms)) <$> drawableMasks /\
  Forall NoDup drawableMasks.

(** Two contexts that differ at most in their layout. *)
Definition sameButLayout (cc cc' : CubismClippingContext) : Prop :=
  _isUsing cc' = _isUsing cc /\
  _clippingIdList cc' = _clippingIdList cc /\
  _clippingIdCount cc' = _clippingIdCount cc /\
  _allClippedDrawRect cc' = _allClippedDrawRect cc /\
  _matrixForMask cc' = _matrixForMask cc /\
  _matrixForDraw cc' = _matrixForDraw cc /\
  _clippedDrawableIndexList cc' = _clippedDrawableIndexList cc.

(** Two contexts with the same ids and the same clipped drawables. *)
Definition sameGroup (cc cc' : CubismClippingContext) : Prop :=
  _clippingIdList cc' = _clippingIdList cc /\
  _clippingIdCount cc' = _clippingIdCount cc /\
  _clippedDrawableIndexList cc' = _clippedDrawableIndexList cc.

(** Two id lists with the same elements. *)
Definition sameSet (a b : list Z) : Prop := forall x, x ∈ a <-> x ∈ b.

(** The id lists of the contexts of a manager, in the order of the list. *)
Definition idLists (this : CubismClippingManager_WebGL) : list (list Z) :=
  _clippingIdList <$> _clippingContextListForMask this.

(** What the loop of [initialize] keeps after [n] turns on the mask arrays
    of a model: one context per set of ids. *)
Definition grouped_upto (drawableMasks : list (list Z)) (n : nat)
    (this : CubismClippingManager_WebGL) : Prop :=
  length (_clippingContextListForDraw this) = n /\
  Forall countedContext (_clippingContextListForMask this) /\
  Forall (fun ids => NoDup ids /\ ids <> []) (idLists this) /\
  (forall k k' a b, idLists this !! k = Some a -> idLists this !! k' = Some b ->
                    sameSet a b -> k = k') /\
  (forall i ms, (i < n)%nat -> drawableMasks !! i = Some ms ->
     match _clippingContextListForDraw this !! i with
     | Some None => ms = []
     | Some (Some k) => exists ids, idLists this !! k = Some ids /\ sameSet ids ms
     | None => False
     end).

(** The drawables among the first [n] whose entry of the draw list is the
    context at position [k], in increasing order. *)
Definition drawablesOf (this : CubismClippingManager_WebGL) (n k : nat)
  : list nat :=
  filter (fun i => _clippingContextListForDraw this !! i = Some (Some k))
         (seq 0 n).

(** What the loop of [initialize] keeps after [n] turns, from a manager
    without contexts: each context lists its drawables. *)
Definition listed_upto (n : nat) (this : CubismClippingManager_WebGL) : Prop :=
  length (_clippingContextListForDraw this) = n /\
  (forall j k, _clippingContextListForDraw this !! j = Some (Some k) ->
               (k < length (_clippingContextListForMask this))%nat) /\
  (forall k cc, _clippingContextListForMask this !! k = Some cc ->
     _clippedDrawableIndexList cc = drawablesOf this n k /\
     _clippedDrawableIndexList cc <> []).

(** *** The layout of more groups than the texture holds *)

(** The entry that [setupLayoutBounds] logs for a channel with more than
    nine groups. *)
Definition unsupportedMaskCount (layoutCount : nat) : LogEntry :=
  CubismLogError "not supported mask count : {0}" [Z.of_nat layoutCount].

(** The entries for the channels of [channels] that hold more than nine. *)
Definition overflowLog (div mod_ : nat) (channels : list nat)
  : list LogEntry :=
  omap (fun channelNo =>
          let layoutCount := (div + (if channelNo <? mod_ then 1 else 0))%nat in
          if (layoutCount <=? 9)%nat then None
          else Some (unsupportedMaskCount layoutCount))
       channels.

(** The groups that get a slot on the channels of [channels]. *)
Definition placedCount (div mod_ : nat) (channels : list nat) : nat :=
  list_sum (map (fun channelNo =>
                   let layoutCount :=
                     (div + (if channelNo <? mod_ then 1 else 0))%nat in
                   if (layoutCount <=? 9)%nat then layoutCount else 0%nat)
                channels).

(** *** The points of a drawable *)

(** The x and the y coordinates that the loop over the vertices of a
    drawable reads; a read past the end of the buffer gives none. *)
Definition xsOf (model : CubismModel) (drawableIndex : nat) : list Q :=
  omap (fun pi => getDrawableVertices model drawableIndex !! pi)
       (vertexPositions
          (getDrawableVertexCount model drawableIndex * Constant.vertexStep)).

Definition ysOf (model : CubismModel) (drawableIndex : nat) : list Q :=
  omap (fun pi => getDrawableVertices model drawableIndex !! (pi + 1)%nat)
       (vertexPositions
          (getDrawableVertexCount model drawableIndex * Constant.vertexStep)).

(** A drawable with a valid point: a vertex with an x below
    [Number.MAX_VALUE]. *)
Definition hasValidPoint (model : CubismModel) (drawableIndex : nat) : Prop :=
  exists x, x ∈ xsOf model drawableIndex /\ (x < Number_MAX_VALUE)%Q.

(** The groups that [setupClippingContext] counts as in use: those with the
    flag set once the bounds of the frame are computed. *)
Definition usingClipCountOf (model : CubismModel)
    (this : CubismClippingManager_WebGL) : nat :=
  length (List.filter isUsing
            (map (calcClippedDrawTotalBounds model)
                 (_clippingContextListForMask this))).

(** *** Tiles of the mask texture *)

(** Two rectangles that share no inner point. *)
Definition disjointRects (r1 r2 : csmRect.t) : Prop :=
  (csmRect.getRight r1 <= csmRect.x r2)%Q \/
  (csmRect.getRight r2 <= csmRect.x r1)%Q \/
  (csmRect.getBottom r1 <= csmRect.y r2)%Q \/
  (csmRect.getBottom r2 <= csmRect.y r1)%Q.

Definition disjointRectsb (r1 r2 : csmRect.t) : bool :=
  Qle_bool (csmRect.getRight r1) (csmRect.x r2) ||
  Qle_bool (csmRect.getRight r2) (csmRect.x r1) ||
  Qle_bool (csmRect.getBottom r1) (csmRect.y r2) ||
  Qle_bool (csmRect.getBottom r2) (csmRect.y r1).

(** A rectangle of the unit square, with a positive width and height. *)
Definition insideUnitSquare (r : csmRect.t) : Prop :=
  (0 <= csmRect.x r)%Q /\ (0 <= csmRect.y r)%Q /\
  (0 < csmRect.width r)%Q /\ (0 < csmRect.height r)%Q /\
  (csmRect.getRight r <= 1)%Q /\ (csmRect.getBottom r <= 1)%Q.

Definition insideUnitSquareb (r : csmRect.t) : bool :=
  Qle_bool 0 (csmRect.x r) && Qle_bool 0 (csmRect.y r) &&
  Qltb 0 (csmRect.width r) && Qltb 0 (csmRect.height r) &&
  Qle_bool (csmRect.getRight r) 1 && Qle_bool (csmRect.getBottom r) 1.

(** *** Shader sets and the calls of a draw *)

(** The variants that sample the mask texture. *)
Definition isMaskedShader (name : ShaderNames) : bool :=
  match name with
  | SetupMask
  | NormalPremultipliedAlpha | AddPremultipliedAlpha
  | MultPremultipliedAlpha => false
  | _ => true
  end.

(** The entry of a variant: the locations of the common part and the ones
    that the variant's [case] of [generateShaders] adds are those of the
    entry's own program; the others are [undefined]. *)
Definition locationsOf (name : ShaderNames) (s : CubismShaderSet) : Prop :=
  let p := shaderProgram s in
  let masked := isMaskedShader name in
  let setup := bool_decide (name = SetupMask) in
  attributePositionLocation s = (p, "a_position"%string) /\
  attributeTexCoordLocation s = (p, "a_texCoord"%string) /\
  samplerTexture0Location s = Some (p, "s_texture0"%string) /\
  uniformBaseColorLocation s = Some (p, "u_baseColor"%string) /\
  uniformMatrixLocation s
  = (if setup then None else Some (p, "u_matrix"%string)) /\
  uniformClipMatrixLocation s
  = (if setup || masked then Some (p, "u_clipMatrix"%string) else None) /\
  samplerTexture1Location s
  = (if masked then Some (p, "s_texture1"%string) else None) /\
  uniformChannelFlagLocation s
  = (if setup || masked then Some (p, "u_channelFlag"%string) else None).

(** A call that uses no program but [p], and no location but a defined one
    of [p]. *)
Definition onProgram (p : WebGLObject) (c : GLcall) : Prop :=
  match c with
  | gl_useProgram q => q = Some p \/ q = None
  | gl_enableVertexAttribArray l | gl_vertexAttribPointer l _ => fst l = p
  | gl_uniform1i l _ | gl_uniform4f l _ _ _ _ | gl_uniformMatrix4fv l _ =>
      exists n, l = Some (p, n)
  | _ => True
  end.

(** The calls that build a shader program. *)
Definition isBuildCall (c : GLcall) : Prop :=
  match c with
  | gl_createProgram _ | gl_createShader _ _ | gl_shaderSource _ _
  | gl_compileShader _ | gl_deleteShader _ | gl_attachShader _ _
  | gl_linkProgram _ | gl_deleteProgram _ => True
  | _ => False
  end.

(** The draw call. *)
Definition isDrawCall (c : GLcall) : Prop :=
  match c with
  | gl_drawElements_TRIANGLES _ => True
  | _ => False
  end.

(** A call that creates no object. *)
Definition createsNothing (c : GLcall) : Prop :=
  match c with
  | gl_createProgram _ | gl_createShader _ _ | gl_createBuffer _ => False
  | _ => True
  end.

(** A computation all of whose calls are in [P]. *)
Definition Emits {A : Type} (P : GLcall -> Prop) (m : GL A) : Prop :=
  forall w a w', m w = Some (a, w') ->
    exists cs, glCalls w' = glCalls w ++ cs /\ Forall P cs.

(** [_shaderSets] is unset, or is what [generateShaders] returned. *)
Definition shaderSetsGenerated (gl : WebGLRenderingContext)
    (this : CubismShader_WebGL) : Prop :=
  match _shaderSets this with
  | Some shaderSets =>
      exists w0 w1, generateShaders gl w0 = Some (shaderSets, w1)
  | None => True
  end.

(** The variant that [setupShaderProgram] selects for a renderer. *)
Definition selectedShader (renderer : CubismRenderer_WebGL)
    (colorBlendMode : CubismBlendMode) (invertedMask : bool) : ShaderNames :=
  if bool_decide (is_Some (_clippingContextBufferForMask renderer))
  then SetupMask
  else specVariant colorBlendMode
         (specMaskState
            (bool_decide (is_Some (_clippingContextBufferForDraw renderer)))
            invertedMask).

(** *** releaseShaderProgram, release and deleteInstance *)

(** [forEach]: the callback on each element, in order. *)
Fixpoint forEach {A : Type} (f : A -> GL unit) (l : list A) : GL unit :=
  match l with
  | [] => ret tt
  | x :: rest => f x >> forEach f rest
  end.

(** [Object.keys(this._shaderSets)] throws on [undefined].  The keys of the
    object that [generateShaders] builds are the numbers of its entries;
    [Object.keys] lists them in increasing order. *)
Definition releaseShaderProgram (this : CubismShader_WebGL) : GL unit :=
  match _shaderSets this with
  | None => throw
  | Some shaderSets =>
      forEach (fun shaderSet =>
                 call (gl_deleteProgram (shaderProgram shaderSet)))
              shaderSets
  end.

(** [CubismShader_WebGL.release] *)
Definition CubismShader_WebGL_release (this : CubismShader_WebGL) : GL unit :=
  releaseShaderProgram this.

(** [CubismShader_WebGL.deleteInstance()]: the new value of [s_instance] *)
Definition deleteInstance (s_instance : option CubismShader_WebGL)
  : GL (option CubismShader_WebGL) :=
  match s_instance with
  | Some instance => CubismShader_WebGL_release instance >> ret None
  | None => ret s_instance
  end.

(** [CubismRenderer_WebGL.doStaticRelease()] *)
Definition doStaticRelease (s_instance : option CubismShader_WebGL)
  : GL (option CubismShader_WebGL) :=
  deleteInstance s_instance.

(** The programs that a list of calls creates, and those it deletes. *)
Definition createdPrograms (cs : list GLcall) : list WebGLObject :=
  omap (fun c => match c with
                 | gl_createProgram p => Some p
                 | _ => None
                 end) cs.

Definition deletedPrograms (cs : list GLcall) : list WebGLObject :=
  omap (fun c => match c with
                 | gl_deleteProgram p => Some p
                 | _ => None
                 end) cs.

(** A driver on which every variant builds. *)
Definition buildsEveryVariant (gl : WebGLRenderingContext) : Prop :=
  forall name,
    ~ buildFails gl (shaderSources name).1 (shaderSources name).2.

(** *** The slots of the sorted list *)

(** The last drawable among the first [n] whose render order is [k]. *)
Definition lastWithOrder (n : nat) (renderOrder : list Z) (k : nat)
  : option nat :=
  last (filter (fun i => renderOrder !! i = Some (Z.of_nat k)) (seq 0 n)).

(** *** Draws that throw *)

(** The context buffer whose channel [setupShaderProgram] reads: the one for
    the mask when it is set, else the one for drawing. *)
Definition clipBufferInUse (renderer : CubismRenderer_WebGL)
  : option CubismClippingContext :=
  match _clippingContextBufferForMask renderer with
  | Some context => Some context
  | None => _clippingContextBufferForDraw renderer
  end.

(** A computation that throws from every world. *)
Definition Throws {A : Type} (m : GL A) : Prop := forall w, m w = None.

(** What the loop of [initialize] keeps after [n] turns, from a manager
    without contexts: each context holds the mask array and the count of
    the first drawable that it clips. *)
Definition founded_upto (drawableMasks : list (list Z))
    (drawableMaskCounts : list Z) (n : nat)
    (this : CubismClippingManager_WebGL) : Prop :=
  forall k cc, _clippingContextListForMask this !! k = Some cc ->
    exists i, head (_clippedDrawableIndexList cc) = Some i /\
              (i < n)%nat /\
              drawableMasks !! i = Some (_clippingIdList cc) /\
              drawableMaskCounts !! i = Some (_clippingIdCount cc) /\
              (0 < _clippingIdCount cc)%Z.

(** *** The totals of calcClippedDrawTotalBounds *)

(** The four totals [clippedDrawTotalMinX], [clippedDrawTotalMinY],
    [clippedDrawTotalMaxX] and [clippedDrawTotalMaxY] when the loop of
    [calcClippedDrawTotalBounds] ends. *)
Definition clippedDrawTotal (model : CubismModel)
    (clippingContext : CubismClippingContext) : Extent :=
  fst (fold_left (calcClippedDrawTotalBounds_body model)
                 (_clippedDrawableIndexList clippingContext)
                 (Extent_init, clippingContext)).

(** ** A frame of the clipping manager, with its GL calls and mask draws

    [setupClippingContext] above is what the method does to the contexts.
    Here is the method as a whole: the frame number, the GL calls of the
    manager, [preDraw], and the draws of the masks with [drawMesh]. *)

(** The calls of the mask buffer, among the calls of the context: the
    handles come from the same counter. *)
Definition liftMaskBuffer {A : Type}
    (m : MaskBuffer.World -> option (A * MaskBuffer.World)) : GL A :=
  fun w =>
    match m (MaskBuffer.mkWorld [] (glObjects w)) with
    | Some (a, mw) =>
        Some (a, mkWorld
                   (glCalls w ++ (gl_maskBuffer <$> MaskBuffer.calls mw))
                   (MaskBuffer.objects mw) (errorLog w))
    | None => None
    end.

(** The entries that [setupLayoutBounds] wrote with [CubismLogError]. *)
Definition logEntries (entries : list LogEntry) : GL unit :=
  fun w => Some (tt, mkWorld (glCalls w) (glObjects w)
                       (errorLog w ++ entries)).

(** [preDraw()], on the field [firstDraw]: the extension is asked for
    under its three names until the driver has one ([_anisortopy], which
    nothing in the file reads, is left out). *)
Definition preDraw (gl : WebGLRenderingContext) (firstDraw : bool)
  : GL bool :=
  (if firstDraw then
     call (gl_getExtension "EXT_texture_filter_anisotropic") >>
     (if getExtension gl "EXT_texture_filter_anisotropic" then ret tt
      else
        call (gl_getExtension "WEBKIT_EXT_texture_filter_anisotropic") >>
        (if getExtension gl "WEBKIT_EXT_texture_filter_anisotropic"
         then ret tt
         else call (gl_getExtension "MOZ_EXT_texture_filter_anisotropic")))
   else ret tt) >>
  call (gl_disable SCISSOR_TEST) >>
  call (gl_disable STENCIL_TEST) >>
  call (gl_disable DEPTH_TEST) >>
  call gl_frontFace_CW >>
  call gl_enable_BLEND >>
  call (gl_colorMask true true true true) >>
  call (gl_bindBuffer_null ARRAY_BUFFER) >>
  call (gl_bindBuffer_null ELEMENT_ARRAY_BUFFER) >>
  ret false.

(** A context reaches the colour buffer through its manager
    ([getClippingManager().getColorBuffer()]); the renderer record carries
    it, and takes it from the manager here. *)
Definition withColorBuffer (colorBuffer : option WebGLObject)
    (this : CubismRenderer_WebGL) : CubismRenderer_WebGL :=
  {| _clippingContextBufferForMask := _clippingContextBufferForMask this;
     _clippingContextBufferForDraw := _clippingContextBufferForDraw this;
     _colorBuffer := colorBuffer;
     _isCulling := _isCulling this;
     _isPremultipliedAlpha := _isPremultipliedAlpha this;
     _modelColor := _modelColor this;
     _mvpMatrix := _mvpMatrix this;
     _textures := _textures this;
     _bufferData := _bufferData this |}.

(** [clipContext._clippingIdList[i]] as the index of a drawable.  [None]:
    the read is [undefined] or the id is negative, which is no index of
    the arrays of the model. *)
Definition clipDrawIndexAt (clipContext : CubismClippingContext) (i : nat)
  : option nat :=
  match _clippingIdList clipContext !! i with
  | Some clipDrawIndex =>
      if (0 <=? clipDrawIndex)%Z then Some (Z.to_nat clipDrawIndex)
      else None
  | None => None
  end.

(** The loop over the masks of one context: a mask whose vertices did not
    change is passed over, as is an id that is no index of the model (its
    flag reads as not set); for the others the culling flag and the
    context for the mask are set and [drawMesh] is called, with the normal
    blend mode and without inversion.  The loop throws where [drawMesh]
    throws. *)
Fixpoint maskDrawLoop (gl : WebGLRenderingContext) (model : CubismModel)
    (clipContext : CubismClippingContext) (indices : list nat)
    (s_instance : option CubismShader_WebGL)
    (renderer : CubismRenderer_WebGL)
  : GL (option CubismShader_WebGL * CubismRenderer_WebGL) :=
  match indices with
  | [] => ret (s_instance, renderer)
  | i :: rest =>
      match clipDrawIndexAt clipContext i with
      | None => maskDrawLoop gl model clipContext rest s_instance renderer
      | Some clipDrawIndex =>
          if negb (getDrawableDynamicFlagVertexPositionsDidChange
                     model clipDrawIndex)
          then (* continue *)
            maskDrawLoop gl model clipContext rest s_instance renderer
          else
            let renderer :=
              setIsCulling (getDrawableCulling model clipDrawIndex)
                           renderer in
            let renderer :=
              setClippingContextBufferForMask (Some clipContext) renderer in
            let* r :=
              drawMesh gl s_instance renderer
                (getDrawableTextureIndices model clipDrawIndex)
                (getDrawableVertexIndexCount model clipDrawIndex)
                (Z.of_nat (getDrawableVertexCount model clipDrawIndex))
                (getDrawableVertexIndices model clipDrawIndex)
                (getDrawableVertices model clipDrawIndex)
                (getDrawableVertexUvs model clipDrawIndex)
                (getDrawableOpacity model clipDrawIndex)
                CubismBlendMode_Normal false in
            maskDrawLoop gl model clipContext rest (fst r) (snd r)
      end
  end.

(** The second loop of [setupClippingContext]: for each context its two
    matrices, then the draws of its masks. *)
Fixpoint maskLoop (gl : WebGLRenderingContext) (model : CubismModel)
    (contexts : list CubismClippingContext)
    (s_instance : option CubismShader_WebGL)
    (renderer : CubismRenderer_WebGL)
  : GL (list CubismClippingContext
        * (option CubismShader_WebGL * CubismRenderer_WebGL)) :=
  match contexts with
  | [] => ret ([], (s_instance, renderer))
  | clipContext :: rest =>
      let clipContext := setupMatrices clipContext in
      let clipDrawCount := _clippingIdCount clipContext in
      let* r :=
        maskDrawLoop gl model clipContext (seq 0 (Z.to_nat clipDrawCount))
                     s_instance renderer in
      let* r' := maskLoop gl model rest (fst r) (snd r) in
      ret (clipContext :: fst r', snd r')
  end.

(** What a frame reads and writes: the manager (its context lists and the
    fields of its mask buffer), the shader instance [s_instance], the
    renderer and its field [firstDraw]. *)
Record Frame : Type := mkFrame {
  clippingManager : CubismClippingManager_WebGL;
  maskBuffer : MaskBuffer.t;
  shaderInstance : option CubismShader_WebGL;
  rendererState : CubismRenderer_WebGL;
  firstDraw : bool
}.

(** [setupClippingContext(model, renderer)], with the module variables
    [s_fbo] and [s_viewport] ([undefined] until [setRenderState] is
    called).  It throws where the manager has no GL context, where
    [s_viewport] is [undefined], and where a draw of a mask throws. *)
Definition CubismClippingManager_WebGL_setupClippingContext
    (gl : WebGLRenderingContext) (s_fbo : option WebGLObject)
    (s_viewport : option (list Z)) (model : CubismModel) (st : Frame)
  : GL Frame :=
  let this := clippingManager st in
  let buffer := MaskBuffer.nextFrame (maskBuffer st) in
  let '(contexts, usingClipCount) :=
    calcAllBounds model (_clippingContextListForMask this) 0 in
  if (0 <? usingClipCount)%nat then
    let size := MaskBuffer._clippingMaskBufferSize buffer in
    (if negb (MaskBuffer.gl buffer) then throw
     else call (gl_viewport (Some 0%Z) (Some 0%Z) (Some size) (Some size))) >>
    let* r :=
      liftMaskBuffer (MaskBuffer.getMaskRenderTexture s_fbo buffer) in
    let _maskRenderTexture := fst r in
    let buffer := snd r in
    let* firstDraw := preDraw gl (firstDraw st) in
    match setupLayoutBounds usingClipCount contexts with
    | None => throw
    | Some layout =>
        logEntries (layoutLog layout) >>
        call (gl_bindFramebuffer (Some _maskRenderTexture)) >>
        call (gl_clearColor 1 1 1 1) >>
        call gl_clear_COLOR_BUFFER_BIT >>
        let* r :=
          maskLoop gl model (layoutContexts layout) (shaderInstance st)
            (withColorBuffer (MaskBuffer._colorBuffer buffer)
                             (rendererState st)) in
        call (gl_bindFramebuffer s_fbo) >>
        let renderer := setClippingContextBufferForMask None (snd (snd r)) in
        match s_viewport with
        | Some viewport =>
            call (gl_viewport (viewport !! 0%nat) (viewport !! 1%nat)
                              (viewport !! 2%nat) (viewport !! 3%nat))
        | None => throw
        end >>
        ret {| clippingManager :=
                 {| _clippingContextListForMask := fst r;
                    _clippingContextListForDraw :=
                      _clippingContextListForDraw this |};
               maskBuffer := buffer;
               shaderInstance := fst (snd r);
               rendererState := renderer;
               firstDraw := firstDraw |}
    end
  else
    ret {| clippingManager :=
             {| _clippingContextListForMask := contexts;
                _clippingContextListForDraw :=
                  _clippingContextListForDraw this |};
           maskBuffer := buffer;
           shaderInstance := shaderInstance st;
           rendererState := rendererState st;
           firstDraw := firstDraw st |}.

(** *** Notions of the statements about a frame *)

(** A context one of whose masks is drawn in the frame: one of its first
    [_clippingIdCount] ids is a drawable whose vertices changed. *)
Definition drawsMask (model : CubismModel)
    (clipContext : CubismClippingContext) : Prop :=
  exists i clipDrawIndex,
    (i < Z.to_nat (_clippingIdCount clipContext))%nat /\
    clipDrawIndexAt clipContext i = Some clipDrawIndex /\
    getDrawableDynamicFlagVertexPositionsDidChange model clipDrawIndex
    = true.

(** Every context whose masks are drawn has a channel. *)
Definition maskDrawsReady (model : CubismModel)
    (contexts : list CubismClippingContext) : Prop :=
  forall clipContext,
    clipContext ∈ contexts -> drawsMask model clipContext ->
    hasChannel (Some clipContext).

(** Two contexts that differ in their two matrices at most. *)
Definition sameButMatrices (cc cc' : CubismClippingContext) : Prop :=
  _isUsing cc' = _isUsing cc /\
  _clippingIdList cc' = _clippingIdList cc /\
  _clippingIdCount cc' = _clippingIdCount cc /\
  _layoutChannelNo cc' = _layoutChannelNo cc /\
  _layoutBounds cc' = _layoutBounds cc /\
  _allClippedDrawRect cc' = _allClippedDrawRect cc /\
  _clippedDrawableIndexList cc' = _clippedDrawableIndexList cc.

(** A rectangle with a width and a height other than zero. *)
Definition hasExtent (r : csmRect.t) : Prop :=
  ~ (csmRect.width r == 0)%Q /\ ~ (csmRect.height r == 0)%Q.

(** *** Concrete inputs of a frame *)

(** A renderer after [initialize] on a model and [startUp]: the manager
    has its contexts and its GL context, nothing was drawn yet. *)
Definition startedUp (model : CubismModel) : option Frame :=
  this ← initialize CubismClippingManager_WebGL_new
           (getDrawableCount model) (getDrawableMasks model)
           (getDrawableMaskCounts model);
  Some {| clippingManager := this;
          maskBuffer := MaskBuffer.startUp MaskBuffer.new;
          shaderInstance := None;
          rendererState := plainRenderer;
          firstDraw := true |}.

(** *** doDrawModel *)

Definition setFirstDraw (firstDraw : bool) (st : Frame) : Frame :=
  {| clippingManager := clippingManager st;
     maskBuffer := maskBuffer st;
     shaderInstance := shaderInstance st;
     rendererState := rendererState st;
     firstDraw := firstDraw |}.

(** [doDrawModel()], on the state of a frame and the list
    [_sortedDrawableIndexList]: [preDraw] and the frame of the clipping
    manager, [preDraw] again, and the screen pass.  The renderer always
    has a manager (the constructor makes one, and nothing in the file
    unsets it), so the test [_clippingManager != null] holds.  The result
    has the list after the sort and the drawables that the screen pass
    drew. *)
Definition doDrawModel (gl : WebGLRenderingContext)
    (s_fbo : option WebGLObject) (s_viewport : option (list Z))
    (model : CubismModel) (st : Frame)
    (_sortedDrawableIndexList : list nat)
  : GL (Frame * (list nat * list nat)) :=
  let* first := preDraw gl (firstDraw st) in
  let* st :=
    CubismClippingManager_WebGL_setupClippingContext gl s_fbo s_viewport
      model (setFirstDraw first st) in
  let* first := preDraw gl (firstDraw st) in
  let* r :=
    doDrawModel_screenPass gl model (Some (clippingManager st))
      _sortedDrawableIndexList (shaderInstance st)
      (withColorBuffer (MaskBuffer._colorBuffer (maskBuffer st))
                       (rendererState st)) in
  ret ({| clippingManager := clippingManager st;
          maskBuffer := maskBuffer st;
          shaderInstance := fst (fst (snd r));
          rendererState := snd (fst (snd r));
          firstDraw := first |},
       (fst r, snd (snd r))).

(** * Properties *)

(** ** findSameClip *)

Lemma hasClipId_spec (drawableMasks : list Z) (count : nat) (clipId : option Z) :
  hasClipId drawableMasks count clipId = true <->
  exists k, (k < count)%nat /\ drawableMasks !! k = clipId.
Proof.
  unfold hasClipId. rewrite existsb_exists. split.
  - intros (k & Hin & Hk). apply in_seq in Hin.
    apply bool_decide_eq_true in Hk. exists k. split; [lia | done].
  - intros (k & Hlt & Hk). exists k. split.
    + apply in_seq. lia.
    + by apply bool_decide_eq_true.
Qed.

Lemma hasClipId_elem_of (drawableMasks : list Z) (x : Z) :
  hasClipId drawableMasks (length drawableMasks) (Some x) = true <->
  x ∈ drawableMasks.
Proof.
  rewrite hasClipId_spec, list_elem_of_lookup. split.
  - intros (k & _ & Hk). eauto.
  - intros (k & Hk). exists k. split; [|done].
    by apply lookup_lt_Some in Hk.
Qed.

(** Counting with an accumulator is counting with [filter]. *)
Lemma count_fold_left (P : nat -> bool) (l : list nat) (acc : nat) :
  fold_left (fun sameCount j => if P j then S sameCount else sameCount) l acc
  = (acc + length (List.filter P l))%nat.
Proof.
  revert acc. induction l as [|j l IH]; intros acc; simpl; [lia|].
  rewrite IH. destruct (P j); simpl; lia.
Qed.

Lemma filter_length_all (P : nat -> bool) (l : list nat) :
  length (List.filter P l) = length l <-> (forall j, In j l -> P j = true).
Proof.
  induction l as [|j l IH]; simpl; [naive_solver|].
  pose proof (List.filter_length_le P l) as Hle.
  destruct (P j) eqn:HP; simpl.
  - split.
    + intros Heq k [<-|Hk]; [done|]. apply IH; [lia|done].
    + intros Hall. f_equal. apply IH. auto.
  - split; [lia|]. intros Hall. specialize (Hall j (or_introl eq_refl)).
    congruence.
Qed.

Lemma countSameIds_all (clippingIdList drawableMasks : list Z) (count : nat) :
  countSameIds clippingIdList drawableMasks count = count <->
  (forall j, (j < count)%nat ->
     hasClipId drawableMasks count (clippingIdList !! j) = true).
Proof.
  unfold countSameIds. rewrite count_fold_left. simpl.
  pose proof (filter_length_all
    (fun j => hasClipId drawableMasks count (clippingIdList !! j))
    (seq 0 count)) as Hall.
  rewrite length_seq in Hall. rewrite Hall.
  split; intros H j Hj.
  - apply H, in_seq. lia.
  - apply H. apply in_seq in Hj. lia.
Qed.

(** The test of one context against a list: equal counts, and every id of
    the context occurs in the list. *)
Lemma isSameClip_new (ids masks : list Z) :
  isSameClip (CubismClippingContext_new ids (Z.of_nat (length ids)))
             masks (Z.of_nat (length masks)) = true <->
  length ids = length masks /\ (forall x, x ∈ ids -> x ∈ masks).
Proof.
  unfold isSameClip. simpl. rewrite Nat2Z.id.
  destruct (Z.eqb_spec (Z.of_nat (length ids)) (Z.of_nat (length masks)))
    as [Heq|Hne]; simpl.
  - apply Nat2Z.inj in Heq. rewrite Z.eqb_eq, Nat2Z.inj_iff, countSameIds_all.
    split.
    + intros Hall. split; [done|]. intros x Hx.
      apply list_elem_of_lookup in Hx as [j Hj].
      apply hasClipId_elem_of. rewrite <- Heq, <- Hj.
      apply Hall. by apply lookup_lt_Some in Hj.
    + intros [_ Hsub] j Hj.
      destruct (lookup_lt_is_Some_2 ids j Hj) as [x Hx].
      rewrite Hx, Heq. apply hasClipId_elem_of, Hsub.
      apply list_elem_of_lookup. eauto.
  - split; [done|]. intros [Heq _]. by rewrite Heq in Hne.
Qed.

Lemma findSameClip_registered_iff (ids masks : list Z) :
  findSameClip (registered ids) masks (Z.of_nat (length masks)) = Some 0%nat <->
  length ids = length masks /\ (forall x, x ∈ ids -> x ∈ masks).
Proof.
  rewrite <- isSameClip_new. unfold findSameClip, registered. simpl.
  destruct (isSameClip _ _ _); naive_solver.
Qed.

Lemma same_length_incl_iff_same_set (ids masks : list Z) :
  NoDup ids -> NoDup masks ->
  (length ids = length masks /\ (forall x, x ∈ ids -> x ∈ masks)) <->
  (forall x, x ∈ ids <-> x ∈ masks).
Proof.
  intros Hids Hmasks. split.
  - intros [Hlen Hsub] x. split; [auto|].
    rewrite !list_elem_of_In. revert x.
    apply NoDup_ListNoDup in Hids.
    apply (NoDup_length_incl Hids); [lia|].
    intros x. rewrite <- !list_elem_of_In. auto.
  - intros Hset. split; [|intros x; apply Hset].
    apply Permutation_length. by apply NoDup_Permutation.
Qed.

(** C1 (amended).  [findSameClip], asked for a list after another list was
    registered as a context, returns that context if and only if the two
    lists have the same length and every id of the registered list occurs
    in the queried one; for two lists without duplicates this is the case
    if and only if they are equal as sets, whatever the order. *)
Theorem findSameClip_same_length_and_ids (ids masks : list Z) :
  (findSameClip (registered ids) masks (Z.of_nat (length masks)) = Some 0%nat
   <-> length ids = length masks /\ (forall x, x ∈ ids -> x ∈ masks))
  /\ (NoDup ids -> NoDup masks ->
      (findSameClip (registered ids) masks (Z.of_nat (length masks))
         = Some 0%nat
       <-> (forall x, x ∈ ids <-> x ∈ masks))).
Proof.
  split; [apply findSameClip_registered_iff|].
  intros Hids Hmasks.
  rewrite findSameClip_registered_iff.
  by apply same_length_incl_iff_same_set.
Qed.

Lemma findSameClip_same_length_and_ids_witness :
  findSameClip (registered [1; 2; 3]%Z) [3; 2; 1]%Z 3 = Some 0%nat.
Proof.
  apply (proj2 (findSameClip_same_length_and_ids [1; 2; 3]%Z [3; 2; 1]%Z)).
  - apply NoDup_ListNoDup. repeat constructor; simpl; intuition lia.
  - apply NoDup_ListNoDup. repeat constructor; simpl; intuition lia.
  - intros x. rewrite !elem_of_cons, !elem_of_nil. intuition lia.
Defined.

(** C1 as stated fails: [1,1,2] and [1,2] are equal as sets, and the second
    is not found after the first was registered (the counts differ). *)
Lemma findSameClip_duplicates_counterexample :
  (forall x : Z, x ∈ [1; 1; 2]%Z <-> x ∈ [1; 2]%Z) /\
  findSameClip (registered [1; 1; 2]%Z) [1; 2]%Z 2 = None.
Proof.
  split; [|reflexivity].
  intros x. rewrite !elem_of_cons, !elem_of_nil. intuition lia.
Qed.

(** ** initialize *)

Lemma findSameClip_from_range (l : list CubismClippingContext)
    (masks : list Z) (cnt : Z) (i k : nat) :
  findSameClip_from i l masks cnt = Some k -> (i <= k < i + length l)%nat.
Proof.
  revert i. induction l as [|cc l IH]; intros i; simpl; [done|].
  destruct (isSameClip cc masks cnt).
  - intros [= <-]. lia.
  - intros H. apply IH in H. lia.
Qed.

Lemma initialize_body_upto (drawableMasks : list (list Z))
    (drawableMaskCounts : list Z) (n : nat)
    (this : CubismClippingManager_WebGL) :
  (n < length drawableMasks)%nat -> (n < length drawableMaskCounts)%nat ->
  initialized_upto drawableMaskCounts n this ->
  exists this',
    initialize_body drawableMasks drawableMaskCounts n this = Some this' /\
    initialized_upto drawableMaskCounts (S n) this'.
Proof.
  intros Hm Hc [Hlen Hinv].
  destruct (lookup_lt_is_Some_2 _ _ Hm) as [masks Hmasks].
  destruct (lookup_lt_is_Some_2 _ _ Hc) as [cnt Hcnt].
  unfold initialize_body. rewrite Hcnt. simpl.
  destruct (Z.leb_spec cnt 0) as [Hle|Hgt].
  - (* no mask: null is pushed *)
    eexists. split; [done|]. split.
    + simpl. rewrite length_app. simpl. lia.
    + intros i c Hi Hic. simpl.
      destruct (decide (i = n)) as [->|Hne].
      * assert (c = cnt) as -> by congruence.
        split; [|lia]. intros _.
        rewrite lookup_app_r by lia. by rewrite Hlen, Nat.sub_diag.
      * rewrite lookup_app_l by lia. apply Hinv; [lia|done].
  - rewrite Hmasks. simpl.
    set (found := findSameClip this masks cnt).
    assert (exists this1 k,
      (match found with
       | Some k => (this, k)
       | None =>
           (pushBackForMask (CubismClippingContext_new masks cnt) this,
            length (_clippingContextListForMask this))
       end) = (this1, k) /\
      _clippingContextListForDraw this1 = _clippingContextListForDraw this /\
      (k < length (_clippingContextListForMask this1))%nat /\
      (forall j cc, _clippingContextListForMask this !! j = Some cc ->
                    _clippingContextListForMask this1 !! j = Some cc))
      as (this1 & k & -> & Hdraw & Hk & Hkeep).
    { destruct found as [k|] eqn:Hfound.
      - exists this, k. repeat split; [|done].
        apply findSameClip_from_range in Hfound. lia.
      - eexists _, _. repeat split; simpl.
        + rewrite length_app. simpl. lia.
        + intros j cc Hj. rewrite lookup_app_l; [done|].
          by apply lookup_lt_Some in Hj. }
    eexists. split; [done|]. split.
    + simpl. rewrite length_app, Hdraw. simpl. lia.
    + intros i c Hi Hic. simpl. rewrite Hdraw.
      destruct (decide (i = n)) as [->|Hne].
      * assert (c = cnt) as -> by congruence.
        split; [lia|]. intros _.
        destruct (lookup_lt_is_Some_2 _ _ Hk) as [cc Hcc].
        exists k, (addClippedDrawable n cc). split; [|split].
        -- rewrite lookup_app_r by lia. by rewrite Hlen, Nat.sub_diag.
        -- by rewrite list_lookup_alter_eq, Hcc.
        -- simpl. apply elem_of_app. right. by apply list_elem_of_singleton.
      * rewrite lookup_app_l by lia.
        destruct (Hinv i c) as [Hnull Href]; [lia|done|].
        split; [done|]. intros Hpos.
        destruct (Href Hpos) as (k' & cc & Hd & Hcc & Hi').
        apply Hkeep in Hcc.
        destruct (decide (k = k')) as [->|Hkk].
        -- exists k', (addClippedDrawable n cc). split; [done|]. split.
           ++ by rewrite list_lookup_alter_eq, Hcc.
           ++ simpl. apply elem_of_app. by left.
        -- exists k', cc. split; [done|]. split; [|done].
           by rewrite list_lookup_alter_ne.
Qed.

Lemma initialize_loop_upto (drawableMasks : list (list Z))
    (drawableMaskCounts : list Z) (count n : nat)
    (this : CubismClippingManager_WebGL) :
  (n + count <= length drawableMasks)%nat ->
  (n + count <= length drawableMaskCounts)%nat ->
  initialized_upto drawableMaskCounts n this ->
  exists this',
    initialize_loop drawableMasks drawableMaskCounts (seq n count) this
      = Some this' /\
    initialized_upto drawableMaskCounts (n + count) this'.
Proof.
  revert n this. induction count as [|count IH]; intros n this Hm Hc Hinv.
  - exists this. rewrite Nat.add_0_r. by split.
  - simpl.
    destruct (initialize_body_upto drawableMasks drawableMaskCounts n this)
      as (this1 & -> & Hinv1); [lia|lia|done|].
    simpl. destruct (IH (S n) this1) as (this' & Hloop & Hinv');
      [lia|lia|done|].
    exists this'. split; [done|]. by rewrite Nat.add_succ_r.
Qed.

(** C10.  On a freshly constructed manager, [initialize] returns, and then
    [_clippingContextListForDraw] has exactly [drawableCount] entries; entry
    [i] is [null] if and only if [drawableMaskCounts[i] <= 0], and otherwise
    it is a context of [_clippingContextListForMask] whose
    [_clippedDrawableIndexList] contains [i]. *)
Theorem initialize_draw_list (drawableCount : nat)
    (drawableMasks : list (list Z)) (drawableMaskCounts : list Z) :
  length drawableMasks = drawableCount ->
  length drawableMaskCounts = drawableCount ->
  exists this,
    initialize CubismClippingManager_WebGL_new drawableCount
               drawableMasks drawableMaskCounts = Some this /\
    length (_clippingContextListForDraw this) = drawableCount /\
    forall i cnt, drawableMaskCounts !! i = Some cnt ->
      (_clippingContextListForDraw this !! i = Some None <-> (cnt <= 0)%Z) /\
      ((0 < cnt)%Z ->
       exists k cc,
         _clippingContextListForDraw this !! i = Some (Some k) /\
         _clippingContextListForMask this !! k = Some cc /\
         i ∈ _clippedDrawableIndexList cc).
Proof.
  intros Hm Hc.
  destruct (initialize_loop_upto drawableMasks drawableMaskCounts
              drawableCount 0 CubismClippingManager_WebGL_new)
    as (this & Hinit & Hlen & Hinv); [simpl; lia|simpl; lia| |].
  { split; [done|]. intros i cnt Hi. lia. }
  exists this. split; [done|]. split; [done|].
  intros i cnt Hcnt.
  assert (i < drawableCount)%nat as Hi.
  { apply lookup_lt_Some in Hcnt. lia. }
  destruct (Hinv i cnt Hi Hcnt) as [Hnull Href].
  split; [|done]. split; [|done].
  intros Hnone. destruct (Z.le_gt_cases cnt 0) as [|Hpos]; [done|].
  destruct (Href Hpos) as (k & cc & Hd & _). congruence.
Qed.

Lemma initialize_draw_list_witness :
  exists this,
    initialize CubismClippingManager_WebGL_new 3
               [[2%Z]; []; [2%Z]] [1%Z; 0%Z; 1%Z] = Some this /\
    length (_clippingContextListForDraw this) = 3%nat /\
    forall i cnt, [1%Z; 0%Z; 1%Z] !! i = Some cnt ->
      (_clippingContextListForDraw this !! i = Some None <-> (cnt <= 0)%Z) /\
      ((0 < cnt)%Z ->
       exists k cc,
         _clippingContextListForDraw this !! i = Some (Some k) /\
         _clippingContextListForMask this !! k = Some cc /\
         i ∈ _clippedDrawableIndexList cc).
Proof.
  apply (initialize_draw_list 3 [[2%Z]; []; [2%Z]] [1%Z; 0%Z; 1%Z]);
    reflexivity.
Defined.

(** ** calcClippedDrawTotalBounds *)

(** A drawable without a valid point takes the [continue]: nothing is
    written. *)
Lemma calcClippedDrawTotalBounds_body_no_point (model : CubismModel)
    (l : list nat) (st : Extent * CubismClippingContext) :
  (forall d, d ∈ l ->
     Qeq_bool (minX (drawableExtent model d)) Number_MAX_VALUE = true) ->
  fold_left (calcClippedDrawTotalBounds_body model) l st = st.
Proof.
  induction l as [|d l IH]; intros Hall; simpl; [done|].
  assert (calcClippedDrawTotalBounds_body model st d = st) as ->.
  { unfold calcClippedDrawTotalBounds_body. destruct st as [total cc].
    rewrite (Hall d); [done|]. apply elem_of_cons. by left. }
  apply IH. intros d' Hd'. apply Hall, elem_of_cons. by right.
Qed.

Lemma calcClippedDrawTotalBounds_no_point (model : CubismModel)
    (clippingContext : CubismClippingContext) :
  (forall d, d ∈ _clippedDrawableIndexList clippingContext ->
     Qeq_bool (minX (drawableExtent model d)) Number_MAX_VALUE = true) ->
  calcClippedDrawTotalBounds model clippingContext = clippingContext.
Proof.
  intros Hall. unfold calcClippedDrawTotalBounds.
  by rewrite calcClippedDrawTotalBounds_body_no_point.
Qed.

(** C3, the code at a failing input.  The group's only clipped drawable had
    two points in the previous frame and has no vertex in this one: the
    rectangle and the in-use flag of the previous frame are still there. *)
Theorem calcClippedDrawTotalBounds_keeps_stale_bounds :
  let previous :=
    calcClippedDrawTotalBounds frameWithPoints oneDrawableContext in
  let current := calcClippedDrawTotalBounds frameWithoutPoints previous in
  _allClippedDrawRect previous = csmRect.mk 1 2 3 4 /\
  _isUsing previous = Some true /\
  _allClippedDrawRect current = csmRect.mk 1 2 3 4 /\
  _isUsing current = Some true /\
  _isUsing (calcClippedDrawTotalBounds frameWithoutPoints oneDrawableContext)
    = None.
Proof.
  vm_compute. repeat split; reflexivity.
Qed.

(** ** setupClippingContext: which groups are counted, which get a slot *)

Lemma calcAllBounds_count (model : CubismModel)
    (contexts : list CubismClippingContext) (n : nat) :
  snd (calcAllBounds model contexts n) =
  (n + length (List.filter isUsing (fst (calcAllBounds model contexts n))))%nat
  /\ fst (calcAllBounds model contexts n)
     = map (calcClippedDrawTotalBounds model) contexts.
Proof.
  revert n. induction contexts as [|cc l IH]; intros n; simpl; [split; [lia|done]|].
  destruct (isUsing (calcClippedDrawTotalBounds model cc)) eqn:Hu.
  - destruct (calcAllBounds model l (S n)) as [rest k] eqn:Hrest.
    specialize (IH (S n)). rewrite Hrest in IH. simpl in *.
    rewrite Hu. simpl. destruct IH as [-> ->]. split; [lia|done].
  - destruct (calcAllBounds model l n) as [rest k] eqn:Hrest.
    specialize (IH n). rewrite Hrest in IH. simpl in *.
    rewrite Hu. destruct IH as [-> ->]. split; [lia|done].
Qed.

(** C4, the code at a failing input.  Of the two groups of
    [modelWithIdleGroup] the first is not in use and the second is; one
    group is counted, and the one slot goes to the first group of the list,
    the one that is not in use: it gets channel 0 and the unit square, and
    the group in use is left without a channel. *)
Theorem setupClippingContext_slot_to_idle_group :
  exists this log idle used,
    firstFrame modelWithIdleGroup = Some (this, log) /\
    _clippingContextListForMask this = [idle; used] /\
    isUsing idle = false /\
    isUsing used = true /\
    _layoutChannelNo idle = Some 0%nat /\
    csmRect.equiv (_layoutBounds idle) (csmRect.mk 0 0 1 1) /\
    _layoutChannelNo used = None.
Proof.
  eexists _, _, _, _.
  split; [vm_compute; reflexivity|].
  split; [reflexivity|].
  repeat split; reflexivity.
Qed.

(** ** setupLayoutBounds *)

Lemma layoutAt_placed (channelNo : nat) (b : csmRect.t) (st : LayoutState) :
  (curClipIndex st < length (layoutContexts st))%nat ->
  exists st', layoutAt channelNo b st = Some st' /\
              placed channelNo (fun _ => b) 1 st st'.
Proof.
  intros Hlt. unfold layoutAt.
  destruct (lookup_lt_is_Some_2 _ _ Hlt) as [cc ->].
  eexists. split; [done|]. unfold placed. simpl.
  split; [lia|]. split; [done|]. split; [by rewrite length_alter|]. split.
  - intros i Hi. replace (curClipIndex st + i)%nat with (curClipIndex st) by lia.
    by rewrite list_lookup_alter_eq.
  - intros p Hp. rewrite list_lookup_alter_ne; [done|lia].
Qed.

Lemma layoutLoop_placed (channelNo : nat) (bounds : nat -> csmRect.t)
    (k a : nat) (st : LayoutState) :
  (curClipIndex st + k <= length (layoutContexts st))%nat ->
  exists st', layoutLoop channelNo bounds (seq a k) st = Some st' /\
              placed channelNo (fun i => bounds (a + i)%nat) k st st'.
Proof.
  revert a st. induction k as [|k IH]; intros a st Hlen; simpl.
  - exists st. split; [done|]. unfold placed.
    split; [lia|]. split; [done|]. split; [done|]. split; [lia|done].
  - destruct (layoutAt_placed channelNo (bounds a) st) as
      (st1 & -> & Hc1 & Hl1 & Hn1 & Hset1 & Hkeep1); [lia|]. simpl.
    destruct (IH (S a) st1) as (st' & -> & Hc & Hl & Hn & Hset & Hkeep);
      [lia|].
    exists st'. split; [done|]. unfold placed.
    split; [lia|]. split; [congruence|]. split; [congruence|]. split.
    + intros i Hi. destruct i as [|i].
      * rewrite Hkeep by lia. rewrite (Hset1 0%nat) by lia.
        rewrite !Nat.add_0_r. done.
      * replace (curClipIndex st + S i)%nat with (curClipIndex st1 + i)%nat
          by lia.
        rewrite Hset by lia. rewrite Hkeep1 by lia.
        by replace (S a + i)%nat with (a + S i)%nat by lia.
    + intros p Hp. rewrite Hkeep by lia. apply Hkeep1. lia.
Qed.

Lemma setupLayoutBounds_channel_placed (div mod_ channelNo : nat)
    (st : LayoutState) :
  let layoutCount := (div + (if channelNo <? mod_ then 1 else 0))%nat in
  (layoutCount <= 9)%nat ->
  (curClipIndex st + layoutCount <= length (layoutContexts st))%nat ->
  exists st', setupLayoutBounds_channel div mod_ channelNo st = Some st' /\
              placed channelNo (branchBounds layoutCount) layoutCount st st'.
Proof.
  intros layoutCount Hle Hlen. unfold setupLayoutBounds_channel.
  fold layoutCount. unfold branchBounds.
  destruct (Nat.eqb_spec layoutCount 0) as [H0|H0].
  { exists st. split; [done|]. rewrite H0. unfold placed.
    split; [lia|]. split; [done|]. split; [done|]. split; [lia|done]. }
  destruct (Nat.eqb_spec layoutCount 1) as [H1|H1].
  { rewrite H1. apply layoutAt_placed. lia. }
  destruct (Nat.eqb_spec layoutCount 2) as [H2|H2].
  { apply (layoutLoop_placed channelNo halfBounds layoutCount 0). lia. }
  destruct (Nat.leb_spec layoutCount 4) as [H4|H4].
  { apply (layoutLoop_placed channelNo quarterBounds layoutCount 0). lia. }
  destruct (Nat.leb_spec layoutCount 9) as [H9|H9]; [|lia].
  apply (layoutLoop_placed channelNo ninthBounds layoutCount 0). lia.
Qed.

Lemma countsFrom_self (div mod_ c0 : nat) : countsFrom div mod_ c0 c0 = 0%nat.
Proof. unfold countsFrom. by rewrite Nat.sub_diag. Qed.

Lemma countsFrom_S (div mod_ c0 c : nat) :
  (c0 < c)%nat ->
  countsFrom div mod_ c0 c =
  ((div + (if c0 <? mod_ then 1 else 0)) + countsFrom div mod_ (S c0) c)%nat.
Proof.
  intros Hlt. unfold countsFrom.
  replace (c - c0)%nat with (S (c - S c0)) by lia. done.
Qed.

Lemma setupLayoutBounds_channels_placed (div mod_ m c0 : nat)
    (st : LayoutState) :
  (forall c, (c0 <= c < c0 + m)%nat ->
     (div + (if c <? mod_ then 1 else 0) <= 9)%nat) ->
  (curClipIndex st + countsFrom div mod_ c0 (c0 + m)
   <= length (layoutContexts st))%nat ->
  exists st',
    setupLayoutBounds_channels div mod_ (seq c0 m) st = Some st' /\
    curClipIndex st' = (curClipIndex st + countsFrom div mod_ c0 (c0 + m))%nat /\
    layoutLog st' = layoutLog st /\
    length (layoutContexts st') = length (layoutContexts st) /\
    (forall c i, (c0 <= c < c0 + m)%nat ->
       (i < div + (if c <? mod_ then 1 else 0))%nat ->
       layoutContexts st' !! (curClipIndex st + countsFrom div mod_ c0 c + i)%nat
       = setLayout c (branchBounds (div + (if c <? mod_ then 1 else 0)) i) <$>
         layoutContexts st !! (curClipIndex st + countsFrom div mod_ c0 c + i)%nat) /\
    (forall p, (p < curClipIndex st \/
                curClipIndex st + countsFrom div mod_ c0 (c0 + m) <= p)%nat ->
       layoutContexts st' !! p = layoutContexts st !! p).
Proof.
  revert c0 st. induction m as [|m IH]; intros c0 st Hle Hlen; simpl.
  - exists st. rewrite Nat.add_0_r, countsFrom_self.
    split; [done|]. split; [lia|]. split; [done|]. split; [done|].
    split; [intros; lia|done].
  - rewrite (countsFrom_S div mod_ c0 (c0 + S m)) in * by lia.
    replace (c0 + S m)%nat with (S c0 + m)%nat in * by lia.
    set (k0 := (div + (if c0 <? mod_ then 1 else 0))%nat) in *.
    destruct (setupLayoutBounds_channel_placed div mod_ c0 st)
      as (st1 & -> & Hc1 & Hl1 & Hn1 & Hset1 & Hkeep1).
    { apply Hle. lia. }
    { fold k0. lia. }
    fold k0 in Hc1, Hset1, Hkeep1. simpl.
    destruct (IH (S c0) st1) as (st' & -> & Hc & Hl & Hn & Hset & Hkeep).
    { intros c Hc. apply Hle. lia. }
    { lia. }
    exists st'. split; [done|].
    change (S (c0 + m)) with (S c0 + m)%nat.
    split; [lia|]. split; [congruence|].
    split; [congruence|]. split.
    + intros c i Hc' Hi.
      destruct (decide (c = c0)) as [->|Hne].
      * rewrite countsFrom_self, Nat.add_0_r.
        rewrite Hkeep by (fold k0 in Hi; lia). by apply Hset1.
      * rewrite (countsFrom_S div mod_ c0 c) by lia. fold k0.
        replace (curClipIndex st + (k0 + countsFrom div mod_ (S c0) c) + i)%nat
          with (curClipIndex st1 + countsFrom div mod_ (S c0) c + i)%nat by lia.
        rewrite Hset by (done || lia). apply f_equal, Hkeep1. lia.
    + intros p Hp. rewrite Hkeep by lia. apply Hkeep1. lia.
Qed.

Lemma branchBounds_specTile (k i : nat) :
  (k <= 9)%nat -> (i < k)%nat ->
  csmRect.equiv (branchBounds k i) (specTile k i).
Proof.
  intros Hk Hi.
  do 10 (destruct k as [|k]; [
    do 9 (destruct i as [|i];
          [try lia; vm_compute; repeat split; reflexivity|]); try lia |]).
  all: lia.
Qed.

Lemma specChannelCount_sum (n : nat) :
  list_sum (map (specChannelCount n) (seq 0 4)) = n.
Proof.
  unfold specChannelCount.
  pose proof (Nat.div_mod_eq n 4) as Hdm.
  pose proof (Nat.mod_upper_bound n 4) as Hlt.
  generalize dependent (n / 4)%nat. generalize dependent (n mod 4)%nat.
  intros r Hlt d Hdm.
  destruct r as [|[|[|[|r]]]]; simpl; lia.
Qed.

Lemma countsFrom_spec (n c : nat) :
  countsFrom (n / ColorChannelCount) (n mod ColorChannelCount) 0 c
  = specChannelStart n c.
Proof.
  unfold countsFrom, specChannelStart. by rewrite Nat.sub_0_r.
Qed.



(** ** The mask matrix *)

Section MaskMatrix.
Local Open Scope Q_scope.

Lemma matrixForMask_transform (bx by_ bw bh lx ly lw lh px py : Q) :
~ bw == 0 -> ~ bh == 0 ->
let m := matrixForMask (csmRect.mk bx by_ bw bh) (csmRect.mk lx ly lw lh) in
CubismMatrix44.transformX m px py
  == 2 * (lx + (px - (bx - bw * MARGIN)) * (lw / (bw + bw * MARGIN * 2))) - 1 /\
CubismMatrix44.transformY m px py
  == 2 * (ly + (py - (by_ - bh * MARGIN)) * (lh / (bh + bh * MARGIN * 2))) - 1.
Proof.
intros Hw Hh.
assert (~ bw + bw * MARGIN * 2 == 0) as Hw'.
{ unfold MARGIN. intros H. apply Hw. lra. }
assert (~ bh + bh * MARGIN * 2 == 0) as Hh'.
{ unfold MARGIN. intros H. apply Hh. lra. }
cbv [matrixForMask matrixForDraw calcMatrix boundsOnModel
     CubismMatrix44.setMatrix CubismMatrix44.getArray
     CubismMatrix44.translateRelative CubismMatrix44.scaleRelative
     CubismMatrix44.multiply CubismMatrix44.new CubismMatrix44.at_
     CubismMatrix44.transformX CubismMatrix44.transformY
     csmRect.expand csmRect.x csmRect.y csmRect.width csmRect.height
     flat_map map seq fold_right nth app Nat.add Nat.mul].
split; field; done.
Qed.

(** C6.  For a context whose bounds have a width and a height other than
  zero, the [_matrixForMask] that [setupClippingContext] computes sends
  the four corners of the bounds grown by 5% on each side to the four
  corners of the context's layout rectangle, carried from [0,1] to
  [-1,1]: [(2 lx - 1, 2 ly - 1)] up to
  [(2 (lx + lw) - 1, 2 (ly + lh) - 1)].  Arithmetic is exact here. *)
Theorem matrixForMask_corners (clipContext : CubismClippingContext) :
let r := _allClippedDrawRect clipContext in
let l := _layoutBounds clipContext in
let m := _matrixForMask (setupMatrices clipContext) in
let left := csmRect.x r - (5 # 100) * csmRect.width r in
let right := csmRect.x r + csmRect.width r + (5 # 100) * csmRect.width r in
let top := csmRect.y r - (5 # 100) * csmRect.height r in
let bottom :=
  csmRect.y r + csmRect.height r + (5 # 100) * csmRect.height r in
~ csmRect.width r == 0 -> ~ csmRect.height r == 0 ->
(CubismMatrix44.transformX m left top == 2 * csmRect.x l - 1 /\
 CubismMatrix44.transformY m left top == 2 * csmRect.y l - 1) /\
(CubismMatrix44.transformX m right top
   == 2 * (csmRect.x l + csmRect.width l) - 1 /\
 CubismMatrix44.transformY m right top == 2 * csmRect.y l - 1) /\
(CubismMatrix44.transformX m left bottom == 2 * csmRect.x l - 1 /\
 CubismMatrix44.transformY m left bottom
   == 2 * (csmRect.y l + csmRect.height l) - 1) /\
(CubismMatrix44.transformX m right bottom
   == 2 * (csmRect.x l + csmRect.width l) - 1 /\
 CubismMatrix44.transformY m right bottom
   == 2 * (csmRect.y l + csmRect.height l) - 1).
Proof.
destruct clipContext as [u ids n ch [lx ly lw lh] [bx by_ bw bh] mm md cl].
cbn [_allClippedDrawRect _layoutBounds _matrixForMask setupMatrices
     csmRect.x csmRect.y csmRect.width csmRect.height].
intros Hw Hh.
assert (~ bw + bw * MARGIN * 2 == 0) as Hw'.
{ unfold MARGIN. intros H. apply Hw. lra. }
assert (~ bh + bh * MARGIN * 2 == 0) as Hh'.
{ unfold MARGIN. intros H. apply Hh. lra. }
repeat split;
  match goal with
  | |- CubismMatrix44.transformX _ ?px ?py == _ =>
      etransitivity;
      [apply (matrixForMask_transform bx by_ bw bh lx ly lw lh px py Hw Hh)|]
  | |- CubismMatrix44.transformY _ ?px ?py == _ =>
      etransitivity;
      [apply (matrixForMask_transform bx by_ bw bh lx ly lw lh px py Hw Hh)|]
  end;
  unfold MARGIN in *; field; done.
Qed.

Lemma matrixForMask_corners_witness :
let m := _matrixForMask (setupMatrices contextInUse) in
let left := 1 - (5 # 100) * 10 in
let right := 1 + 10 + (5 # 100) * 10 in
let top := 2 - (5 # 100) * 20 in
let bottom := 2 + 20 + (5 # 100) * 20 in
(CubismMatrix44.transformX m left top == 2 * (1 # 2) - 1 /\
 CubismMatrix44.transformY m left top == 2 * 0 - 1) /\
(CubismMatrix44.transformX m right top == 2 * ((1 # 2) + (1 # 2)) - 1 /\
 CubismMatrix44.transformY m right top == 2 * 0 - 1) /\
(CubismMatrix44.transformX m left bottom == 2 * (1 # 2) - 1 /\
 CubismMatrix44.transformY m left bottom == 2 * (0 + 1) - 1) /\
(CubismMatrix44.transformX m right bottom == 2 * ((1 # 2) + (1 # 2)) - 1 /\
 CubismMatrix44.transformY m right bottom == 2 * (0 + 1) - 1).
Proof.
apply (matrixForMask_corners contextInUse); intros H; discriminate H.
Defined.

End MaskMatrix.

(** ** Shader selection *)

Lemma shaderContent_variant (shaderSets : list CubismShaderSet)
    (setupMask forMasked invertedMask : bool)
    (colorBlendMode : CubismBlendMode) :
  shaderContent shaderSets setupMask forMasked invertedMask colorBlendMode =
  (shaderSets !!
     ShaderNames_number
       (if setupMask then SetupMask
        else specVariant colorBlendMode
               (specMaskState forMasked invertedMask)),
   if setupMask then (ZERO, ONE_MINUS_SRC_COLOR, ZERO, ONE_MINUS_SRC_ALPHA)
   else specBlend colorBlendMode).
Proof.
  destruct setupMask; [reflexivity|].
  destruct colorBlendMode, forMasked, invertedMask; reflexivity.
Qed.

(** ** GL computations: what returns, and what is only appended to *)

Lemma bind_Some {A B : Type} (m : GL A) (f : A -> GL B) (w w' : World) (b : B) :
  bind m f w = Some (b, w') <->
  exists a w1, m w = Some (a, w1) /\ f a w1 = Some (b, w').
Proof.
  unfold bind. destruct (m w) as [[a w1]|].
  - split; [eauto|]. by intros (a' & w1' & [= <- <-] & ?).
  - split; [done|]. by intros (a' & w1' & ? & ?).
Qed.

Lemma extends_refl (w : World) : extends w w.
Proof. split; exists []; by rewrite app_nil_r. Qed.

Lemma extends_trans (w1 w2 w3 : World) :
  extends w1 w2 -> extends w2 w3 -> extends w1 w3.
Proof.
  intros [[c1 Hc1] [e1 He1]] [[c2 Hc2] [e2 He2]]. split.
  - exists (c1 ++ c2). by rewrite Hc2, Hc1, app_assoc.
  - exists (e1 ++ e2). by rewrite He2, He1, app_assoc.
Qed.

Lemma extends_call (w w' : World) (c : GLcall) :
  extends w w' -> c ∈ glCalls w -> c ∈ glCalls w'.
Proof. intros [[cs ->] _] ?. apply elem_of_app. by left. Qed.

Lemma extends_log (w w' : World) (e : LogEntry) :
  extends w w' -> e ∈ errorLog w -> e ∈ errorLog w'.
Proof. intros [_ [es ->]] ?. apply elem_of_app. by left. Qed.

Section Closure.
Context {A B : Type}.

Lemma Steady_ret (a : A) : Steady (ret a).
Proof. intros w a' w' [= <- <-]. apply extends_refl. Qed.

Lemma Steady_throw : Steady (@throw A).
Proof. intros w a w' [=]. Qed.

Lemma Steady_bind (m : GL A) (f : A -> GL B) :
  Steady m -> (forall a, Steady (f a)) -> Steady (bind m f).
Proof.
  intros Hm Hf w b w' (a & w1 & H1 & H2)%bind_Some.
  eapply extends_trans; [by eapply Hm | by eapply Hf].
Qed.

Lemma Total_ret (a : A) : Total (ret a).
Proof. intros w. by exists a, w. Qed.

Lemma Total_bind (m : GL A) (f : A -> GL B) :
  Total m -> (forall a, Total (f a)) -> Total (bind m f).
Proof.
  intros Hm Hf w. destruct (Hm w) as (a & w1 & H1).
  destruct (Hf a w1) as (b & w' & H2).
  exists b, w'. apply bind_Some. eauto.
Qed.
End Closure.

Lemma Steady_call (c : GLcall) : Steady (call c).
Proof.
  intros w a w' [= <- <-]. split; simpl; [by eexists | exists []].
  by rewrite app_nil_r.
Qed.

Lemma Steady_create (c : WebGLObject -> GLcall) : Steady (create c).
Proof.
  intros w a w' [= <- <-]. split; simpl; [by eexists | exists []].
  by rewrite app_nil_r.
Qed.

Lemma Steady_logError (format : string) (args : list Z) :
  Steady (logError format args).
Proof.
  intros w a w' [= <- <-]. split; simpl; [exists [] | by eexists].
  by rewrite app_nil_r.
Qed.

Lemma Total_call (c : GLcall) : Total (call c).
Proof. intros w. by eexists _, _. Qed.

Lemma Total_create (c : WebGLObject -> GLcall) : Total (create c).
Proof. intros w. by eexists _, _. Qed.

Lemma Total_logError (format : string) (args : list Z) :
  Total (logError format args).
Proof. intros w. by eexists _, _. Qed.

Lemma LogBlind_ret {A : Type} (a : A) : LogBlind (ret a).
Proof.
  intros w log. simpl. exists []. by rewrite !app_nil_r.
Qed.

Lemma LogBlind_throw {A : Type} : LogBlind (@throw A).
Proof. by intros w log. Qed.

Lemma LogBlind_call (c : GLcall) : LogBlind (call c).
Proof.
  intros w log. simpl. exists []. by rewrite !app_nil_r.
Qed.

Lemma LogBlind_create (c : WebGLObject -> GLcall) : LogBlind (create c).
Proof.
  intros w log. simpl. exists []. by rewrite !app_nil_r.
Qed.

Lemma LogBlind_logError (format : string) (args : list Z) :
  LogBlind (logError format args).
Proof. intros w log. simpl. by eexists. Qed.

Lemma LogBlind_bind {A B : Type} (m : GL A) (f : A -> GL B) :
  LogBlind m -> (forall a, LogBlind (f a)) -> LogBlind (bind m f).
Proof.
  intros Hm Hf w log. specialize (Hm w log). unfold bind.
  destruct (m w) as [[a w1]|]; [|by rewrite Hm].
  destruct Hm as (es1 & He1 & ->).
  specialize (Hf a w1 (log ++ es1)).
  destruct (f a w1) as [[b w2]|]; [|done].
  destruct Hf as (es2 & He2 & Hrun).
  exists (es1 ++ es2). split.
  - by rewrite He2, He1, app_assoc.
  - by rewrite app_assoc.
Qed.

Lemma Returns_Total {A : Type} (P : A -> Prop) (m : GL A) :
  Returns P m -> Total m.
Proof. intros H w. destruct (H w) as (a & w' & ? & _). eauto. Qed.

Lemma Total_bind_Returns {A B : Type} (P : A -> Prop) (m : GL A)
    (f : A -> GL B) :
  Returns P m -> (forall a, P a -> Total (f a)) -> Total (bind m f).
Proof.
  intros Hm Hf w. destruct (Hm w) as (a & w1 & H1 & HP).
  destruct (Hf a HP w1) as (b & w' & H2).
  exists b, w'. apply bind_Some. eauto.
Qed.

Create HintDb gl discriminated.
#[local] Hint Resolve LogBlind_ret LogBlind_throw LogBlind_call
  LogBlind_create LogBlind_logError : gl.
#[local] Hint Resolve Steady_ret Steady_throw Steady_call Steady_create
  Steady_logError Total_ret Total_call Total_create Total_logError : gl.

(** Goes through the binds and the case distinctions of a computation. *)
Ltac gl_step :=
  first
    [ solve [auto with gl]
    | apply Steady_bind | apply Total_bind | apply LogBlind_bind
    | progress cbv zeta
    | match goal with
      | |- Steady (match ?x with _ => _ end) => destruct x
      | |- Total (match ?x with _ => _ end) => destruct x
      | |- Steady (if ?x then _ else _) => destruct x
      | |- Total (if ?x then _ else _) => destruct x
      | |- Steady (let '(_, _) := ?x in _) => destruct x
      | |- Total (let '(_, _) := ?x in _) => destruct x
      | |- LogBlind (match ?x with _ => _ end) => destruct x
      | |- LogBlind (if ?x then _ else _) => destruct x
      | |- LogBlind (let '(_, _) := ?x in _) => destruct x
      | |- forall _, _ => intro
      end ].
Ltac gl_steps := repeat gl_step.

Lemma Steady_compileShaderSource gl shaderType shaderSource :
  Steady (compileShaderSource gl shaderType shaderSource).
Proof. unfold compileShaderSource. gl_steps. Qed.

Lemma Total_compileShaderSource gl shaderType shaderSource :
  Total (compileShaderSource gl shaderType shaderSource).
Proof. unfold compileShaderSource. gl_steps. Qed.

Lemma LogBlind_compileShaderSource gl shaderType shaderSource :
  LogBlind (compileShaderSource gl shaderType shaderSource).
Proof. unfold compileShaderSource. gl_steps. Qed.

#[local] Hint Resolve Steady_compileShaderSource Total_compileShaderSource
  LogBlind_compileShaderSource : gl.

Lemma Steady_loadShaderProgram gl vertexShaderSource fragmentShaderSource :
  Steady (loadShaderProgram gl vertexShaderSource fragmentShaderSource).
Proof. unfold loadShaderProgram. gl_steps. Qed.

Lemma Total_loadShaderProgram gl vertexShaderSource fragmentShaderSource :
  Total (loadShaderProgram gl vertexShaderSource fragmentShaderSource).
Proof. unfold loadShaderProgram. gl_steps. Qed.

Lemma LogBlind_loadShaderProgram gl vertexShaderSource fragmentShaderSource :
  LogBlind (loadShaderProgram gl vertexShaderSource fragmentShaderSource).
Proof. unfold loadShaderProgram. gl_steps. Qed.

#[local] Hint Resolve Steady_loadShaderProgram Total_loadShaderProgram
  LogBlind_loadShaderProgram : gl.

Lemma Steady_generateShader gl index : Steady (generateShader gl index).
Proof. destruct index; unfold generateShader; gl_steps. Qed.

Lemma Total_generateShader gl index : Total (generateShader gl index).
Proof. destruct index; unfold generateShader; gl_steps. Qed.

Lemma LogBlind_generateShader gl index : LogBlind (generateShader gl index).
Proof. destruct index; unfold generateShader; gl_steps. Qed.

#[local] Hint Resolve Steady_generateShader Total_generateShader
  LogBlind_generateShader : gl.

Lemma Steady_generateShaders_reduce gl indices acc :
  Steady (generateShaders_reduce gl indices acc).
Proof.
  revert acc. induction indices as [|i l IH]; intros acc; simpl; gl_steps.
Qed.

Lemma Total_generateShaders_reduce gl indices acc :
  Total (generateShaders_reduce gl indices acc).
Proof.
  revert acc. induction indices as [|i l IH]; intros acc; simpl; gl_steps.
Qed.

Lemma LogBlind_generateShaders_reduce gl indices acc :
  LogBlind (generateShaders_reduce gl indices acc).
Proof.
  revert acc. induction indices as [|i l IH]; intros acc; simpl; gl_steps.
Qed.

#[local] Hint Resolve Steady_generateShaders_reduce
  Total_generateShaders_reduce LogBlind_generateShaders_reduce : gl.

Lemma Steady_generateShaders gl : Steady (generateShaders gl).
Proof. unfold generateShaders. gl_steps. Qed.

Lemma Total_generateShaders gl : Total (generateShaders gl).
Proof. unfold generateShaders. gl_steps. Qed.

Lemma LogBlind_generateShaders gl : LogBlind (generateShaders gl).
Proof. unfold generateShaders. gl_steps. Qed.

#[local] Hint Resolve Steady_generateShaders Total_generateShaders
  LogBlind_generateShaders : gl.

Lemma Steady_setupShaderProgram gl this renderer textureId vertexCount
    vertexArray indexArray uvArray bufferData opacity colorBlendMode
    baseColor isPremultipliedAlpha matrix4x4 invertedMask :
  Steady (setupShaderProgram gl this renderer textureId vertexCount
            vertexArray indexArray uvArray bufferData opacity colorBlendMode
            baseColor isPremultipliedAlpha matrix4x4 invertedMask).
Proof.
  unfold setupShaderProgram, setupUniformChannelFlagLocation,
    setupUniformClipMatrixLocation, ensureBuffer.
  gl_steps.
Qed.

Lemma LogBlind_setupShaderProgram gl this renderer textureId vertexCount
    vertexArray indexArray uvArray bufferData opacity colorBlendMode
    baseColor isPremultipliedAlpha matrix4x4 invertedMask :
  LogBlind (setupShaderProgram gl this renderer textureId vertexCount
              vertexArray indexArray uvArray bufferData opacity colorBlendMode
              baseColor isPremultipliedAlpha matrix4x4 invertedMask).
Proof.
  unfold setupShaderProgram, setupUniformChannelFlagLocation,
    setupUniformClipMatrixLocation, ensureBuffer.
  gl_steps.
Qed.

Lemma Steady_ensureBuffer buffer : Steady (ensureBuffer buffer).
Proof. unfold ensureBuffer. gl_steps. Qed.

(** What [setupShaderProgram] has done when it returns: the shader sets it
    leaves in the instance are the ones it selected from, and the program
    of the selected set and the selected blend factors are among the
    calls. *)
Lemma setupShaderProgram_calls gl this renderer textureId vertexCount
    vertexArray indexArray uvArray bufferData opacity colorBlendMode
    baseColor isPremultipliedAlpha matrix4x4 invertedMask w r w' :
  setupShaderProgram gl this renderer textureId vertexCount
    vertexArray indexArray uvArray bufferData opacity colorBlendMode
    baseColor isPremultipliedAlpha matrix4x4 invertedMask w = Some (r, w') ->
  exists shaderSets shaderSet srcColor dstColor srcAlpha dstAlpha,
    _shaderSets (fst r) = Some shaderSets /\
    (forall s, _shaderSets this = Some s -> shaderSets = s) /\
    (_shaderSets this = None ->
     exists w1 w2, generateShaders gl w1 = Some (shaderSets, w2)) /\
    shaderContent shaderSets
      (bool_decide (is_Some (_clippingContextBufferForMask renderer)))
      (bool_decide (is_Some (_clippingContextBufferForDraw renderer)))
      invertedMask colorBlendMode
      = (Some shaderSet, (srcColor, dstColor, srcAlpha, dstAlpha)) /\
    gl_useProgram (Some (shaderProgram shaderSet)) ∈ glCalls w' /\
    gl_blendFuncSeparate srcColor dstColor srcAlpha dstAlpha ∈ glCalls w'.
Proof.
  unfold setupShaderProgram.
  intros (u & w1 & _ & H)%bind_Some.
  apply bind_Some in H as (shaderSets & w2 & Hsets & H).
  destruct (shaderContent shaderSets _ _ invertedMask colorBlendMode)
    as [[shaderSet|] [[[srcColor dstColor] srcAlpha] dstAlpha]] eqn:Hsel;
    [|done].
  exists shaderSets, shaderSet, srcColor, dstColor, srcAlpha, dstAlpha.
  assert (forall s, _shaderSets this = Some s -> shaderSets = s) as Hsame.
  { intros s Hs. rewrite Hs in Hsets. by injection Hsets as ->. }
  assert (_shaderSets this = None ->
          exists w1 w2, generateShaders gl w1 = Some (shaderSets, w2))
    as Hgen.
  { intros Hs. rewrite Hs in Hsets. eauto. }
  repeat
    match type of H with
    | bind (call _) _ _ = Some _ =>
        apply bind_Some in H as (? & ? & [= <- <-] & H)
    | bind (ensureBuffer ?x) _ _ = Some _ =>
        apply bind_Some in H as (? & ? & ?%Steady_ensureBuffer & H)
    end.
  apply bind_Some in H as (? & w3 & Htail & [= <- <-]).
  match type of Htail with
  | ?m ?w0 = Some _ =>
      assert (extends w0 w3) as Hext;
      [ revert Htail; generalize w0;
        let S := fresh in
        assert (Steady m) as S
          by (unfold setupUniformChannelFlagLocation,
                setupUniformClipMatrixLocation; gl_steps);
        intros w0'; apply S
      | ]
  end.
  simpl. split; [done|]. split; [done|]. split; [done|]. split; [done|].
  split;
    repeat first
      [ apply elem_of_app; right; apply list_elem_of_singleton; reflexivity
      | apply elem_of_app; left
      | match goal with
        | Hx : extends ?a ?b |- _ ∈ glCalls ?b =>
            apply (extends_call _ _ _ Hx); simpl
        end ].
Qed.

(** C7.  The shader set and the blend factors that [setupShaderProgram]
    selects: in the mask-generation pass the setup-mask shader with (ZERO,
    ONE_MINUS_SRC_COLOR, ZERO, ONE_MINUS_SRC_ALPHA); otherwise the factors
    of the blend mode, normal (ONE, ONE_MINUS_SRC_ALPHA, ONE,
    ONE_MINUS_SRC_ALPHA), additive (ONE, ONE, ZERO, ONE), multiplicative
    (DST_COLOR, ONE_MINUS_SRC_ALPHA, ZERO, ONE), with the unmasked shader
    of the mode, or its masked or masked-inverted one when a draw-clipping
    context is attached.  When the call returns, the program of that set
    went to [useProgram] and the factors to [blendFuncSeparate]. *)
Theorem setupShaderProgram_selection gl this renderer textureId vertexCount
    vertexArray indexArray uvArray bufferData opacity colorBlendMode
    baseColor isPremultipliedAlpha matrix4x4 invertedMask w :
  let setupMask :=
    bool_decide (is_Some (_clippingContextBufferForMask renderer)) in
  let forMasked :=
    bool_decide (is_Some (_clippingContextBufferForDraw renderer)) in
  let name :=
    if setupMask then SetupMask
    else specVariant colorBlendMode (specMaskState forMasked invertedMask) in
  let blend :=
    if setupMask then (ZERO, ONE_MINUS_SRC_COLOR, ZERO, ONE_MINUS_SRC_ALPHA)
    else
      match colorBlendMode with
      | CubismBlendMode_Normal =>
          (ONE, ONE_MINUS_SRC_ALPHA, ONE, ONE_MINUS_SRC_ALPHA)
      | CubismBlendMode_Additive => (ONE, ONE, ZERO, ONE)
      | CubismBlendMode_Multiplicative =>
          (DST_COLOR, ONE_MINUS_SRC_ALPHA, ZERO, ONE)
      end in
  (forall shaderSets,
     shaderContent shaderSets setupMask forMasked invertedMask colorBlendMode
     = (shaderSets !! ShaderNames_number name, blend)) /\
  (forall r w',
     setupShaderProgram gl this renderer textureId vertexCount
       vertexArray indexArray uvArray bufferData opacity colorBlendMode
       baseColor isPremultipliedAlpha matrix4x4 invertedMask w
       = Some (r, w') ->
     exists shaderSets shaderSet,
       _shaderSets (fst r) = Some shaderSets /\
       shaderSets !! ShaderNames_number name = Some shaderSet /\
       gl_useProgram (Some (shaderProgram shaderSet)) ∈ glCalls w' /\
       gl_blendFuncSeparate blend.1.1.1 blend.1.1.2 blend.1.2 blend.2
         ∈ glCalls w').
Proof.
  intros setupMask forMasked name blend.
  assert (forall shaderSets,
     shaderContent shaderSets setupMask forMasked invertedMask colorBlendMode
     = (shaderSets !! ShaderNames_number name, blend)) as Hsel.
  { intros shaderSets. rewrite shaderContent_variant.
    subst name blend. by destruct setupMask, colorBlendMode. }
  split; [exact Hsel|].
  intros r w' Hrun.
  destruct (setupShaderProgram_calls _ _ _ _ _ _ _ _ _ _ _ _ _ _ _ _ _ _ Hrun)
    as (shaderSets & shaderSet & a & b & c & d & Hr & _ & _ & Hc & Huse & Hblend).
  fold setupMask forMasked in Hc. rewrite Hsel in Hc.
  injection Hc as Hset Hb. exists shaderSets, shaderSet.
  split; [done|]. split; [done|]. split; [done|]. by rewrite Hb.
Qed.

Lemma setupShaderProgram_selection_witness :
  exists r w',
    setupShaderProgram glBuildsAll (mkShader None) plainRenderer None 3
      [] [0; 1; 2]%Z [] (mkBufferData None None None) 1
      CubismBlendMode_Additive (mkColor 1 1 1 1) true CubismMatrix44.new
      false emptyWorld = Some (r, w') /\
    gl_blendFuncSeparate ONE ONE ZERO ONE ∈ glCalls w'.
Proof.
  destruct (setupShaderProgram glBuildsAll (mkShader None) plainRenderer None 3
      [] [0; 1; 2]%Z [] (mkBufferData None None None) 1
      CubismBlendMode_Additive (mkColor 1 1 1 1) true CubismMatrix44.new
      false emptyWorld) as [[r w']|] eqn:Hrun.
  - exists r, w'. split; [reflexivity|].
    destruct (proj2 (setupShaderProgram_selection glBuildsAll (mkShader None)
      plainRenderer None 3 [] [0; 1; 2]%Z [] (mkBufferData None None None) 1
      CubismBlendMode_Additive (mkColor 1 1 1 1) true CubismMatrix44.new
      false emptyWorld) r w' Hrun) as (shaderSets & shaderSet & _ & _ & _ & Hb).
    exact Hb.
  - vm_compute in Hrun. discriminate Hrun.
Defined.

(** ** The premultiplied-alpha flag *)

Lemma setupShaderProgram_flag gl this renderer textureId vertexCount
    vertexArray indexArray uvArray bufferData opacity colorBlendMode
    baseColor matrix4x4 invertedMask w :
  setupShaderProgram gl this renderer textureId vertexCount
    vertexArray indexArray uvArray bufferData opacity colorBlendMode
    baseColor false matrix4x4 invertedMask w =
  setupShaderProgram gl this renderer textureId vertexCount
    vertexArray indexArray uvArray bufferData opacity colorBlendMode
    baseColor true matrix4x4 invertedMask
    (withLog (errorLog w ++
              [CubismLogError "NoPremultipliedAlpha is not allowed" []]) w).
Proof. reflexivity. Qed.

Lemma getChannelFlagAsColor_Some (context : CubismClippingContext) :
  hasChannel (Some context) ->
  exists colorChannel,
    getChannelFlagAsColor (_layoutChannelNo context) = Some colorChannel.
Proof.
  intros (c & -> & Hc). simpl. apply lookup_lt_is_Some_2. exact Hc.
Qed.

Lemma Returns_generateShaders_reduce gl indices acc :
  Returns (fun l => length l = (length acc + length indices)%nat)
          (generateShaders_reduce gl indices acc).
Proof.
  revert acc. induction indices as [|i l IH]; intros acc w; simpl.
  - exists acc, w. split; [done|]. lia.
  - destruct (Total_generateShader gl i w) as (s & w1 & Hs).
    destruct (IH (acc ++ [s]) w1) as (r & w' & Hr & Hlen).
    exists r, w'. split.
    + apply bind_Some. eauto.
    + rewrite Hlen, length_app. simpl. lia.
Qed.

Lemma shaderContent_Some (shaderSets : list CubismShaderSet)
    (setupMask forMasked invertedMask : bool)
    (colorBlendMode : CubismBlendMode) :
  length shaderSets = length ShaderNames_members ->
  exists shaderSet blend,
    shaderContent shaderSets setupMask forMasked invertedMask colorBlendMode
    = (Some shaderSet, blend).
Proof.
  intros Hlen. rewrite shaderContent_variant.
  match goal with
  | |- context [shaderSets !! ?i] =>
      destruct (lookup_lt_is_Some_2 shaderSets i) as [s ->]; [|by eauto]
  end.
  rewrite Hlen. simpl.
  destruct setupMask, colorBlendMode, forMasked, invertedMask;
    vm_compute; lia.
Qed.

Lemma Total_setupShaderProgram gl this renderer textureId vertexCount
    vertexArray indexArray uvArray bufferData opacity colorBlendMode
    baseColor isPremultipliedAlpha matrix4x4 invertedMask :
  shaderSetsComplete this ->
  hasChannel (_clippingContextBufferForMask renderer) ->
  hasChannel (_clippingContextBufferForDraw renderer) ->
  Total (setupShaderProgram gl this renderer textureId vertexCount
           vertexArray indexArray uvArray bufferData opacity colorBlendMode
           baseColor isPremultipliedAlpha matrix4x4 invertedMask).
Proof.
  intros Hsets Hmask Hdraw. unfold setupShaderProgram.
  apply Total_bind; [gl_steps|]. intros _.
  apply (Total_bind_Returns
           (fun l => length l = length ShaderNames_members)).
  { unfold shaderSetsComplete in Hsets.
    destruct (_shaderSets this) as [shaderSets|].
    - intros w. by exists shaderSets, w.
    - apply (Returns_generateShaders_reduce gl ShaderNames_members []). }
  intros shaderSets Hlen.
  destruct (shaderContent_Some shaderSets
              (bool_decide (is_Some (_clippingContextBufferForMask renderer)))
              (bool_decide (is_Some (_clippingContextBufferForDraw renderer)))
              invertedMask colorBlendMode Hlen)
    as (shaderSet & [[[a b] c] d] & ->).
  unfold setupUniformChannelFlagLocation, setupUniformClipMatrixLocation,
    ensureBuffer.
  destruct (_clippingContextBufferForMask renderer) as [mask|].
  - destruct (getChannelFlagAsColor_Some mask Hmask) as [color ->].
    gl_steps.
  - destruct (_clippingContextBufferForDraw renderer) as [draw|].
    + destruct (getChannelFlagAsColor_Some draw Hdraw) as [color ->].
      gl_steps.
    + gl_steps.
Qed.

(** C8.  With [isPremultipliedAlpha] false, [setupShaderProgram] logs its
    error and goes on as in the premultiplied case: whenever the
    premultiplied call returns, this call returns the same shader sets and
    buffers after the same GL calls, with the one error entry ahead of the
    entries of the call, and throws only where the premultiplied call
    throws; with shader sets that are complete and context buffers that
    have their channel, it returns. *)
Theorem setupShaderProgram_not_premultiplied gl this renderer textureId
    vertexCount vertexArray indexArray uvArray bufferData opacity
    colorBlendMode baseColor matrix4x4 invertedMask w :
  let entry := CubismLogError "NoPremultipliedAlpha is not allowed" [] in
  let run isPremultipliedAlpha :=
    setupShaderProgram gl this renderer textureId vertexCount
      vertexArray indexArray uvArray bufferData opacity colorBlendMode
      baseColor isPremultipliedAlpha matrix4x4 invertedMask w in
  match run true with
  | Some (r, w') =>
      exists es,
        errorLog w' = errorLog w ++ es /\
        run false = Some (r, withLog (errorLog w ++ [entry] ++ es) w')
  | None => run false = None
  end /\
  (shaderSetsComplete this ->
   hasChannel (_clippingContextBufferForMask renderer) ->
   hasChannel (_clippingContextBufferForDraw renderer) ->
   exists r w', run false = Some (r, w') /\ entry ∈ errorLog w').
Proof.
  intros entry run. subst run entry. cbv beta. split.
  - rewrite setupShaderProgram_flag.
    pose proof (LogBlind_setupShaderProgram gl this renderer textureId
      vertexCount vertexArray indexArray uvArray bufferData opacity
      colorBlendMode baseColor true matrix4x4 invertedMask w
      (errorLog w ++
       [CubismLogError "NoPremultipliedAlpha is not allowed" []])) as Hblind.
    destruct (setupShaderProgram _ _ _ _ _ _ _ _ _ _ _ _ true _ _ w)
      as [[r w']|]; [|exact Hblind].
    destruct Hblind as (es & Hes & Hrun). exists es. split; [done|].
    by rewrite Hrun, <- app_assoc.
  - intros Hsets Hmask Hdraw.
    destruct (Total_setupShaderProgram gl this renderer textureId
      vertexCount vertexArray indexArray uvArray bufferData opacity
      colorBlendMode baseColor false matrix4x4 invertedMask
      Hsets Hmask Hdraw w) as (r & w' & Hrun).
    exists r, w'. split; [done|].
    rewrite setupShaderProgram_flag in Hrun.
    apply Steady_setupShaderProgram in Hrun.
    apply (extends_log _ _ _ Hrun). simpl.
    apply elem_of_app. right. by apply list_elem_of_singleton.
Qed.

Lemma setupShaderProgram_not_premultiplied_witness :
  exists r w',
    setupShaderProgram glBuildsAll (mkShader None) plainRenderer None 3
      [] [0; 1; 2]%Z [] (mkBufferData None None None) 1
      CubismBlendMode_Normal (mkColor 1 1 1 1) false CubismMatrix44.new
      false emptyWorld = Some (r, w') /\
    CubismLogError "NoPremultipliedAlpha is not allowed" [] ∈ errorLog w'.
Proof.
  pose proof (setupShaderProgram_not_premultiplied glBuildsAll
    (mkShader None) plainRenderer None 3 [] [0; 1; 2]%Z []
    (mkBufferData None None None) 1 CubismBlendMode_Normal (mkColor 1 1 1 1)
    CubismMatrix44.new false emptyWorld) as H.
  cbv beta zeta in H. destruct H as [_ H].
  exact (H I I I).
Defined.

(** ** A shader that does not build *)

Lemma loadShaderProgram_fails gl vertexShaderSource fragmentShaderSource w :
  buildFails gl vertexShaderSource fragmentShaderSource ->
  exists w' e,
    loadShaderProgram gl vertexShaderSource fragmentShaderSource w
      = Some (0%nat, w') /\
    errorLog w' = errorLog w ++ [e].
Proof.
  unfold buildFails, loadShaderProgram, compileShaderSource,
    bind, create, call, logError, ret.
  destruct (COMPILE_STATUS gl VERTEX_SHADER vertexShaderSource);
    destruct (COMPILE_STATUS gl FRAGMENT_SHADER fragmentShaderSource);
    destruct (LINK_STATUS gl vertexShaderSource fragmentShaderSource);
    simpl; intros H; first [by eauto | by destruct H as [|[|]]].
Qed.

Lemma loadShaderProgram_fails_zero gl vertexShaderSource fragmentShaderSource
    w p w' :
  buildFails gl vertexShaderSource fragmentShaderSource ->
  loadShaderProgram gl vertexShaderSource fragmentShaderSource w
    = Some (p, w') ->
  p = 0%nat.
Proof.
  intros Hfail Hload.
  destruct (loadShaderProgram_fails gl _ _ w Hfail) as (w1 & e & H1 & _).
  congruence.
Qed.

Lemma generateShader_fails gl name w shaderSet w' :
  buildFails gl (shaderSources name).1 (shaderSources name).2 ->
  generateShader gl name w = Some (shaderSet, w') ->
  shaderProgram shaderSet = 0%nat.
Proof.
  intros Hfail.
  destruct name; simpl in Hfail; unfold generateShader;
    intros (p & w1 & Hload & [= <- <-])%bind_Some; simpl;
    by apply (loadShaderProgram_fails_zero gl _ _ w p w1 Hfail).
Qed.

Lemma generateShaders_reduce_fails gl indices acc w shaderSets w' :
  generateShaders_reduce gl indices acc w = Some (shaderSets, w') ->
  forall i name shaderSet,
    indices !! i = Some name ->
    shaderSets !! (length acc + i)%nat = Some shaderSet ->
    buildFails gl (shaderSources name).1 (shaderSources name).2 ->
    shaderProgram shaderSet = 0%nat.
Proof.
  revert acc w. induction indices as [|index rest IH]; intros acc w; simpl.
  - intros _ i name shaderSet H. by rewrite lookup_nil in H.
  - intros (s & w1 & Hs & Hrest)%bind_Some i name shaderSet Hi Hl Hfail.
    assert (exists l, shaderSets = (acc ++ [s]) ++ l) as [l ->].
    { clear -Hrest. revert Hrest. generalize (acc ++ [s]) as acc'.
      revert w1. induction rest as [|r rest IH]; intros w1 acc'; simpl.
      - intros [= <- <-]. exists []. by rewrite app_nil_r.
      - intros (s' & w2 & _ & Hrest)%bind_Some.
        destruct (IH _ _ Hrest) as [l ->].
        exists (s' :: l). by rewrite <- app_assoc. }
    destruct i as [|i].
    + injection Hi as <-.
      rewrite Nat.add_0_r, <- app_assoc in Hl. simpl in Hl.
      rewrite list_lookup_middle in Hl by done.
      injection Hl as <-. by eapply generateShader_fails.
    + apply (IH _ _ Hrest i name shaderSet Hi); [|done].
      rewrite length_app. simpl.
      by replace (length acc + 1 + i)%nat with (length acc + S i)%nat by lia.
Qed.

Lemma ShaderNames_members_lookup (name : ShaderNames) :
  ShaderNames_members !! ShaderNames_number name = Some name.
Proof. by destruct name. Qed.

Lemma generateShaders_fails gl w shaderSets w' name shaderSet :
  generateShaders gl w = Some (shaderSets, w') ->
  shaderSets !! ShaderNames_number name = Some shaderSet ->
  buildFails gl (shaderSources name).1 (shaderSources name).2 ->
  shaderProgram shaderSet = 0%nat.
Proof.
  intros Hgen Hl Hfail.
  apply (generateShaders_reduce_fails gl _ _ _ _ _ Hgen
           (ShaderNames_number name) name shaderSet); [|done|done].
  apply ShaderNames_members_lookup.
Qed.

(** What [drawMesh] has done when it returns. *)
Lemma drawMesh_calls gl s_instance this textureNo indexCount vertexCount
    indexArray vertexArray uvArray opacity colorBlendMode invertedMask
    w r w' :
  drawMesh gl s_instance this textureNo indexCount vertexCount
    indexArray vertexArray uvArray opacity colorBlendMode invertedMask w
    = Some (r, w') ->
  exists shaderSets shaderSet blend,
    (_shaderSets (getInstance s_instance) = None ->
     exists w1 w2, generateShaders gl w1 = Some (shaderSets, w2)) /\
    shaderContent shaderSets
      (bool_decide (is_Some (_clippingContextBufferForMask this)))
      (bool_decide (is_Some (_clippingContextBufferForDraw this)))
      invertedMask colorBlendMode = (Some shaderSet, blend) /\
    gl_useProgram (Some (shaderProgram shaderSet)) ∈ glCalls w' /\
    gl_drawElements_TRIANGLES indexCount ∈ glCalls w'.
Proof.
  unfold drawMesh.
  intros (u1 & w1 & _ & H)%bind_Some.
  apply bind_Some in H as (u2 & w2 & _ & H).
  apply bind_Some in H as (r1 & w3 & Hsetup & H).
  apply bind_Some in H as (u3 & w4 & [= <- <-] & H).
  apply bind_Some in H as (u4 & w5 & [= <- <-] & H).
  injection H as <- <-.
  destruct (setupShaderProgram_calls _ _ _ _ _ _ _ _ _ _ _ _ _ _ _ _ _ _
              Hsetup)
    as (shaderSets & shaderSet & a & b & c & d & _ & _ & Hgen & Hsel
        & Huse & _).
  exists shaderSets, shaderSet, (a, b, c, d).
  split; [done|]. split; [done|]. simpl. split.
  - apply elem_of_app. left. apply elem_of_app. by left.
  - apply elem_of_app. left. apply elem_of_app. right.
    by apply list_elem_of_singleton.
Qed.

Lemma Total_drawMesh gl s_instance this textureNo indexCount vertexCount
    indexArray vertexArray uvArray opacity colorBlendMode invertedMask :
  shaderSetsComplete (getInstance s_instance) ->
  hasChannel (_clippingContextBufferForMask this) ->
  hasChannel (_clippingContextBufferForDraw this) ->
  Total (drawMesh gl s_instance this textureNo indexCount vertexCount
           indexArray vertexArray uvArray opacity colorBlendMode
           invertedMask).
Proof.
  intros Hsets Hmask Hdraw. unfold drawMesh.
  apply Total_bind; [gl_steps|]. intros _.
  apply Total_bind; [gl_steps|]. intros _.
  apply Total_bind; [by apply Total_setupShaderProgram|]. intros r.
  gl_steps.
Qed.




(** ** The order of the screen pass *)

Section ScreenPass.
Variable model : CubismModel.

Let n := getDrawableCount model.
Let orders := getDrawableRenderOrders model.
Let key := renderOrderOf model.

(** The render orders are the ranks [0 .. n-1], each one once. *)
Hypothesis orders_ranks : orders ≡ₚ Z.of_nat <$> seq 0 n.

Lemma orders_length : length orders = n.
Proof.
  rewrite (Permutation_length orders_ranks).
  by rewrite length_fmap, length_seq.
Qed.

Lemma orders_NoDup : NoDup orders.
Proof.
  rewrite orders_ranks. apply NoDup_fmap_2; [|apply NoDup_seq].
  intros a b. apply Nat2Z.inj.
Qed.

Lemma orders_lookup (i : nat) :
  (i < n)%nat -> orders !! i = Some (key i) /\ (0 <= key i < Z.of_nat n)%Z.
Proof.
  intros Hi. rewrite <- orders_length in Hi.
  destruct (lookup_lt_is_Some_2 _ _ Hi) as [o Ho].
  unfold key, renderOrderOf. fold orders. rewrite Ho. simpl.
  split; [done|].
  apply list_elem_of_lookup_2 in Ho. rewrite orders_ranks in Ho.
  apply list_elem_of_fmap in Ho as (k & -> & Hk).
  apply elem_of_seq in Hk. lia.
Qed.

Lemma key_inj (i j : nat) :
  (i < n)%nat -> (j < n)%nat -> key i = key j -> i = j.
Proof.
  intros Hi Hj Heq.
  destruct (orders_lookup i Hi) as [Hoi _].
  destruct (orders_lookup j Hj) as [Hoj _].
  rewrite <- Heq in Hoj.
  exact (NoDup_lookup _ _ _ _ orders_NoDup Hoi Hoj).
Qed.

(** The first loop puts every drawable into the slot of its rank. *)
Lemma sortDrawableIndices_prefix (sorted0 : list nat) (m : nat) :
  length sorted0 = n -> (m <= n)%nat ->
  let sorted := sortDrawableIndices m orders sorted0 in
  length sorted = n /\
  forall i, (i < m)%nat -> sorted !! Z.to_nat (key i) = Some i.
Proof.
  intros Hlen. induction m as [|m IH]; intros Hm; cbv zeta.
  - split; [done|]. intros i Hi. lia.
  - destruct IH as [IHlen IHslots]; [lia|].
    unfold sortDrawableIndices in *.
    rewrite seq_S, fold_left_app.
    set (r := fold_left _ (seq 0 m) sorted0) in *.
    cbn [fold_left Nat.add].
    destruct (orders_lookup m) as [-> [Hlo Hhi]]; [lia|].
    unfold csmVector.set.
    destruct (Z.leb_spec 0 (key m)) as [_|]; [|lia].
    split; [by rewrite length_insert|].
    intros i Hi. destruct (decide (i = m)) as [->|Hne].
    + apply list_lookup_insert_eq. rewrite IHlen. lia.
    + rewrite list_lookup_insert_ne; [apply IHslots; lia|].
      intros Heq. apply Hne. symmetry.
      destruct (orders_lookup i) as [_ [Hlo' _]]; [lia|].
      apply key_inj; [lia|lia|]. lia.
Qed.

(** Insertion keeps the indices and keeps the list sorted. *)
Lemma stableInsert_Permutation (i : nat) (l : list nat) :
  stableInsert key i l ≡ₚ i :: l.
Proof.
  induction l as [|j l IH]; simpl; [done|].
  destruct (key i <=? key j)%Z; [done|].
  rewrite IH. apply Permutation_swap.
Qed.

Lemma stableSort_Permutation (l : list nat) :
  stableSortByRenderOrder key l ≡ₚ l.
Proof.
  induction l as [|i l IH]; simpl; [done|].
  by rewrite stableInsert_Permutation, IH.
Qed.

Lemma stableInsert_Sorted (i : nat) (l : list nat) :
  Sorted (fun a b => (key a <= key b)%Z) l ->
  Sorted (fun a b => (key a <= key b)%Z) (stableInsert key i l).
Proof.
  induction 1 as [|j l Hl IH Hhd]; simpl.
  - by repeat constructor.
  - destruct (Z.leb_spec (key i) (key j)) as [Hle|Hgt].
    + constructor; [by constructor|]. by constructor.
    + constructor; [done|].
      destruct Hhd as [|k l' Hk]; simpl.
      * constructor. lia.
      * destruct (Z.leb_spec (key i) (key k)); constructor; lia.
Qed.

Lemma stableSort_Sorted (l : list nat) :
  Sorted (fun a b => (key a <= key b)%Z) (stableSortByRenderOrder key l).
Proof.
  induction l as [|i l IH]; simpl; [constructor|].
  by apply stableInsert_Sorted.
Qed.

Lemma Sorted_le_seq (a k : nat) : Sorted le (seq a k).
Proof.
  revert a. induction k as [|k IH]; intros a; simpl; constructor; [done|].
  destruct k; simpl; constructor. lia.
Qed.

(** The stable sort has the drawable of rank [p] at position [p]. *)
Lemma stableSort_keys :
  key <$> stableSortByRenderOrder key (seq 0 n) = Z.of_nat <$> seq 0 n.
Proof.
  apply (Sorted_unique Z.le).
  - apply (Sorted_fmap _ (fun a b => (key a <= key b)%Z)); [done|].
    apply stableSort_Sorted.
  - apply (Sorted_fmap _ le); [intros; lia | apply Sorted_le_seq].
  - rewrite stableSort_Permutation, <- orders_ranks.
    replace (key <$> seq 0 n) with orders; [done|].
    apply list_eq. intros i. rewrite list_lookup_fmap.
    destruct (decide (i < n)%nat) as [Hi|Hi].
    + rewrite lookup_seq_lt by done. simpl.
      by destruct (orders_lookup i Hi) as [-> _].
    + rewrite lookup_seq_ge by lia. simpl.
      apply lookup_ge_None_2. rewrite orders_length. lia.
Qed.

Lemma sortDrawableIndices_stableSort (sorted0 : list nat) :
  length sorted0 = n ->
  sortDrawableIndices n orders sorted0
  = stableSortByRenderOrder key (seq 0 n).
Proof.
  intros Hlen.
  destruct (sortDrawableIndices_prefix sorted0 n Hlen (le_n n))
    as [Hrlen Hslots].
  pose proof (Permutation_length (stableSort_Permutation (seq 0 n)))
    as Hslen. rewrite length_seq in Hslen.
  apply list_eq. intros p.
  destruct (decide (p < n)%nat) as [Hp|Hp].
  - destruct (lookup_lt_is_Some_2
                (stableSortByRenderOrder key (seq 0 n)) p) as [j Hj];
      [lia|].
    rewrite Hj.
    assert (j < n)%nat as Hjn.
    { apply list_elem_of_lookup_2 in Hj.
      rewrite stableSort_Permutation in Hj.
      apply elem_of_seq in Hj. lia. }
    assert (key j = Z.of_nat p) as Hkey.
    { pose proof (f_equal (fun l => l !! p) stableSort_keys) as Hk.
      simpl in Hk. rewrite !list_lookup_fmap, Hj in Hk.
      rewrite lookup_seq_lt in Hk by done. simpl in Hk. congruence. }
    rewrite <- (Hslots j Hjn). by rewrite Hkey, Nat2Z.id.
  - rewrite !lookup_ge_None_2; [done|lia|lia].
Qed.

Lemma doDrawModel_screenPass_sorted (sorted0 : list nat) :
  length sorted0 = n ->
  sortDrawableIndices n orders sorted0
  = stableSortByRenderOrder key (seq 0 n) /\
  length (stableSortByRenderOrder key (seq 0 n)) = n /\
  forall d, d ∈ stableSortByRenderOrder key (seq 0 n) -> (d < n)%nat.
Proof.
  intros Hlen. split; [by apply sortDrawableIndices_stableSort|].
  split.
  - rewrite (Permutation_length (stableSort_Permutation (seq 0 n))).
    by rewrite length_seq.
  - intros d Hd. rewrite stableSort_Permutation in Hd.
    apply elem_of_seq in Hd. lia.
Qed.
End ScreenPass.

(** What a returned [drawMesh] leaves: shader sets that are complete, and
    no context in either buffer. *)
Lemma drawMesh_leaves gl s_instance this textureNo indexCount vertexCount
    indexArray vertexArray uvArray opacity colorBlendMode invertedMask
    w r w' :
  shaderSetsComplete (getInstance s_instance) ->
  drawMesh gl s_instance this textureNo indexCount vertexCount
    indexArray vertexArray uvArray opacity colorBlendMode invertedMask w
    = Some (r, w') ->
  shaderSetsComplete (getInstance (fst r)) /\
  _clippingContextBufferForMask (snd r) = None /\
  _clippingContextBufferForDraw (snd r) = None.
Proof.
  intros Hsets. unfold drawMesh.
  intros (u1 & w1 & _ & H)%bind_Some.
  apply bind_Some in H as (u2 & w2 & _ & H).
  apply bind_Some in H as (r1 & w3 & Hsetup & H).
  apply bind_Some in H as (u3 & w4 & _ & H).
  apply bind_Some in H as (u4 & w5 & _ & H).
  injection H as <- <-. simpl. split; [|done].
  destruct (setupShaderProgram_calls _ _ _ _ _ _ _ _ _ _ _ _ _ _ _ _ _ _
              Hsetup)
    as (shaderSets & _ & _ & _ & _ & _ & Hr & Hsame & Hgen & _).
  unfold shaderSetsComplete in *. rewrite Hr.
  destruct (_shaderSets (getInstance s_instance)) as [s|].
  - by rewrite (Hsame s eq_refl).
  - destruct (Hgen eq_refl) as (wa & wb & Hrun).
    destruct (Returns_generateShaders_reduce gl ShaderNames_members [] wa)
      as (l & wc & Hrun' & Hlen).
    unfold generateShaders in Hrun. rewrite Hrun' in Hrun.
    by injection Hrun as <- _.
Qed.

(** The second loop returns when every visible drawable that it comes to
    has no context or a context with a channel, and then it has drawn the
    visible drawables of the slots, in the order of the slots. *)
Lemma drawLoop_filter gl model _clippingManager (sorted : list nat)
    (a k : nat) s_instance this w :
  (a + k = length sorted)%nat ->
  shaderSetsComplete (getInstance s_instance) ->
  _clippingContextBufferForMask this = None ->
  (forall d, d ∈ drop a sorted ->
     getDrawableDynamicFlagIsVisible model d = true ->
     hasChannel (clippingContextForDraw _clippingManager d)) ->
  exists s_instance' this' w',
    drawLoop gl model _clippingManager sorted (seq a k) s_instance this w
    = Some ((s_instance', this',
             List.filter (getDrawableDynamicFlagIsVisible model)
                         (drop a sorted)), w') /\
    shaderSetsComplete (getInstance s_instance') /\
    _clippingContextBufferForMask this' = None.
Proof.
  revert a s_instance this w.
  induction k as [|k IH]; intros a s_instance this w Hlen Hsets Hmask Hok;
    simpl.
  - rewrite drop_ge by lia. by eexists _, _, _.
  - destruct (lookup_lt_is_Some_2 sorted a) as [d Hd]; [lia|].
    unfold csmVector.at_. rewrite Hd.
    rewrite (drop_S _ _ _ Hd) in Hok |- *. simpl.
    destruct (getDrawableDynamicFlagIsVisible model d) eqn:Hvis; simpl.
    + match goal with
      | |- context [bind (drawMesh ?g ?s ?t ?a1 ?a2 ?a3 ?a4 ?a5 ?a6 ?a7 ?a8
                            ?a9) _] =>
          destruct (Total_drawMesh g s t a1 a2 a3 a4 a5 a6 a7 a8 a9) with w
            as (r & w1 & Hdraw)
      end.
      { done. }
      { simpl. by rewrite Hmask. }
      { simpl. apply Hok; [by left|done]. }
      destruct (drawMesh_leaves _ _ _ _ _ _ _ _ _ _ _ _ _ _ _ Hsets Hdraw)
        as (Hsets1 & Hmask1 & _).
      destruct (IH (S a) (fst r) (snd r) w1) as (s' & this' & w' & Hrun & Hkeep);
        [lia|done|done| |].
      { intros d' Hd'. apply Hok. by right. }
      exists s', this', w'. split; [|done].
      unfold bind at 1. rewrite Hdraw.
      unfold bind at 1. by rewrite Hrun.
    + destruct (IH (S a) s_instance this w)
        as (s' & this' & w' & Hrun & Hkeep); [lia|done|done| |].
      { intros d' Hd'. apply Hok. by right. }
      by exists s', this', w'.
Qed.




(** * Further properties *)

(** ** findSameClip on any manager *)

Lemma isSameClip_matchesIds (cc : CubismClippingContext) (masks : list Z) :
  countedContext cc ->
  isSameClip cc masks (Z.of_nat (length masks)) = true <-> matchesIds cc masks.
Proof.
  intros Hcc. unfold countedContext in Hcc.
  rewrite <- (isSameClip_new (_clippingIdList cc) masks).
  unfold isSameClip. simpl. by rewrite Hcc.
Qed.

Lemma findSameClip_from_first (l : list CubismClippingContext)
    (masks : list Z) (cnt : Z) (i : nat) :
  match findSameClip_from i l masks cnt with
  | Some k =>
      (i <= k)%nat /\
      (exists cc, l !! (k - i)%nat = Some cc /\
                  isSameClip cc masks cnt = true) /\
      (forall j cc, (j < k - i)%nat -> l !! j = Some cc ->
                    isSameClip cc masks cnt = false)
  | None => forall j cc, l !! j = Some cc -> isSameClip cc masks cnt = false
  end.
Proof.
  revert i. induction l as [|c l IH]; intros i; simpl.
  - intros j cc H. by rewrite lookup_nil in H.
  - destruct (isSameClip c masks cnt) eqn:Hc.
    + split; [lia|]. rewrite Nat.sub_diag. split; [by exists c|].
      intros j cc Hj. lia.
    + specialize (IH (S i)).
      destruct (findSameClip_from (S i) l masks cnt) as [k|].
      * destruct IH as (Hk & (cc & Hcc & Hm) & Hfirst).
        split; [lia|]. split.
        -- exists cc. split; [|done].
           by replace (k - i)%nat with (S (k - S i)) by lia.
        -- intros [|j] cc' Hj Hl; simpl in Hl; [congruence|].
           apply (Hfirst j); [lia|done].
      * intros [|j] cc' Hl; simpl in Hl; [congruence|]. by apply (IH j).
Qed.

(** X1.  On any manager whose contexts have their count, [findSameClip]
    returns the first context, in the order of registration, whose id list
    has the length of the queried list and only ids of it, and [null] when
    there is none. *)
Theorem findSameClip_first_match (this : CubismClippingManager_WebGL)
    (masks : list Z) :
  Forall countedContext (_clippingContextListForMask this) ->
  match findSameClip this masks (Z.of_nat (length masks)) with
  | Some k =>
      (exists cc, _clippingContextListForMask this !! k = Some cc /\
                  matchesIds cc masks) /\
      (forall j cc, (j < k)%nat ->
         _clippingContextListForMask this !! j = Some cc ->
         ~ matchesIds cc masks)
  | None =>
      forall cc, cc ∈ _clippingContextListForMask this -> ~ matchesIds cc masks
  end.
Proof.
  intros Hcounted. unfold findSameClip.
  pose proof (findSameClip_from_first (_clippingContextListForMask this)
                masks (Z.of_nat (length masks)) 0) as H.
  assert (forall j cc, _clippingContextListForMask this !! j = Some cc ->
                       countedContext cc) as Hc.
  { intros j cc Hj. by apply (Forall_lookup_1 _ _ _ _ Hcounted Hj). }
  destruct (findSameClip_from 0 _ masks _) as [k|].
  - destruct H as (_ & (cc & Hcc & Hm) & Hfirst).
    rewrite Nat.sub_0_r in *. split.
    + exists cc. split; [done|]. apply isSameClip_matchesIds; eauto.
    + intros j cc' Hj Hl Hmatch.
      apply isSameClip_matchesIds in Hmatch; [|eauto].
      rewrite (Hfirst j cc' Hj Hl) in Hmatch. discriminate.
  - intros cc [j Hj]%list_elem_of_lookup_1 Hmatch.
    apply isSameClip_matchesIds in Hmatch; [|eauto].
    rewrite (H j cc Hj) in Hmatch. discriminate.
Qed.

Lemma findSameClip_first_match_witness :
  let this := registered [1; 2; 3]%Z in
  let masks := [3; 2; 1]%Z in
  Forall countedContext (_clippingContextListForMask this) /\
  match findSameClip this masks (Z.of_nat (length masks)) with
  | Some k =>
      (exists cc, _clippingContextListForMask this !! k = Some cc /\
                  matchesIds cc masks) /\
      (forall j cc, (j < k)%nat ->
         _clippingContextListForMask this !! j = Some cc ->
         ~ matchesIds cc masks)
  | None =>
      forall cc, cc ∈ _clippingContextListForMask this -> ~ matchesIds cc masks
  end.
Proof.
  intros this masks.
  assert (Forall countedContext (_clippingContextListForMask this)) as H
    by (repeat constructor).
  split; [exact H|]. exact (findSameClip_first_match this masks H).
Defined.

(** ** initialize: one context per set of mask ids *)

Lemma initialize_body_returns (drawableMasks : list (list Z))
    (drawableMaskCounts : list Z) (n : nat)
    (this : CubismClippingManager_WebGL) :
  (n < length drawableMasks)%nat -> (n < length drawableMaskCounts)%nat ->
  exists this',
    initialize_body drawableMasks drawableMaskCounts n this = Some this'.
Proof.
  intros Hm Hc.
  destruct (lookup_lt_is_Some_2 _ _ Hm) as [masks Hmasks].
  destruct (lookup_lt_is_Some_2 _ _ Hc) as [cnt Hcnt].
  unfold initialize_body. rewrite Hcnt. simpl.
  destruct (cnt <=? 0)%Z; [eauto|]. rewrite Hmasks. simpl.
  destruct (findSameClip this masks cnt); eauto.
Qed.

(** The three ways through one turn of the loop. *)
Lemma initialize_body_cases (drawableMasks : list (list Z))
    (drawableMaskCounts : list Z) (n : nat)
    (this this' : CubismClippingManager_WebGL) (ms : list Z) (cnt : Z) :
  drawableMasks !! n = Some ms -> drawableMaskCounts !! n = Some cnt ->
  initialize_body drawableMasks drawableMaskCounts n this = Some this' ->
  ((cnt <= 0)%Z /\ this' = pushBackForDraw None this) \/
  ((0 < cnt)%Z /\ exists k,
     findSameClip this ms cnt = Some k /\
     this' = pushBackForDraw (Some k)
               (updateContext k (addClippedDrawable n) this)) \/
  ((0 < cnt)%Z /\ findSameClip this ms cnt = None /\
   this' =
     {| _clippingContextListForMask :=
          _clippingContextListForMask this ++
          [addClippedDrawable n (CubismClippingContext_new ms cnt)];
        _clippingContextListForDraw :=
          _clippingContextListForDraw this ++
          [Some (length (_clippingContextListForMask this))] |}).
Proof.
  intros Hms Hcnt. unfold initialize_body. rewrite Hcnt. simpl.
  destruct (Z.leb_spec cnt 0) as [Hle|Hlt].
  - intros [= <-]. left. done.
  - rewrite Hms. simpl. destruct (findSameClip this ms cnt) as [k|] eqn:Hf.
    + intros [= <-]. right. left. eauto.
    + intros [= <-]. right. right. split; [done|]. split; [done|].
      unfold pushBackForDraw, updateContext, pushBackForMask. simpl.
      f_equal. rewrite alter_app_r_alt by lia.
      rewrite Nat.sub_diag. reflexivity.
Qed.

(** Induction over the loop of [initialize]. *)
Lemma initialize_loop_invariant
    (P : nat -> CubismClippingManager_WebGL -> Prop)
    (drawableMasks : list (list Z)) (drawableMaskCounts : list Z) :
  (forall n this this' ms cnt,
     drawableMasks !! n = Some ms -> drawableMaskCounts !! n = Some cnt ->
     P n this ->
     initialize_body drawableMasks drawableMaskCounts n this = Some this' ->
     P (S n) this') ->
  forall count a this,
    (a + count <= length drawableMasks)%nat ->
    (a + count <= length drawableMaskCounts)%nat ->
    P a this ->
    exists this',
      initialize_loop drawableMasks drawableMaskCounts (seq a count) this
      = Some this' /\
      P (a + count)%nat this'.
Proof.
  intros Hstep count. induction count as [|count IH]; intros a this Hm Hc HP.
  - exists this. rewrite Nat.add_0_r. done.
  - simpl.
    destruct (initialize_body_returns drawableMasks drawableMaskCounts a this)
      as [this1 H1]; [lia|lia|].
    rewrite H1. simpl.
    destruct (lookup_lt_is_Some_2 drawableMasks a) as [ms Hms]; [lia|].
    destruct (lookup_lt_is_Some_2 drawableMaskCounts a) as [cnt Hcnt]; [lia|].
    destruct (IH (S a) this1) as (this' & Hrun & HP'); [lia|lia|eauto|].
    exists this'. split; [done|].
    by replace (a + S count)%nat with (S a + count)%nat by lia.
Qed.

Lemma idLists_addClippedDrawable (k n : nat)
    (l : list CubismClippingContext) :
  _clippingIdList <$> alter (addClippedDrawable n) k l = _clippingIdList <$> l.
Proof.
  revert k. induction l as [|c l IH]; intros [|k]; csimpl; try done.
  f_equal. apply IH.
Qed.

Lemma isSameClip_sameSet (cc : CubismClippingContext) (masks : list Z) :
  countedContext cc -> NoDup (_clippingIdList cc) -> NoDup masks ->
  isSameClip cc masks (Z.of_nat (length masks)) = true <->
  sameSet (_clippingIdList cc) masks.
Proof.
  intros Hcc Hids Hms. rewrite isSameClip_matchesIds by done.
  by apply same_length_incl_iff_same_set.
Qed.

Lemma sameSet_nil (a : list Z) : sameSet a [] -> a = [].
Proof.
  destruct a as [|x a]; [done|]. intros H.
  destruct (H x) as [Hx _]. specialize (Hx ltac:(left)).
  by apply elem_of_nil in Hx.
Qed.

Lemma grouped_upto_step (drawableMasks : list (list Z))
    (drawableMaskCounts : list Z) (n : nat)
    (this this' : CubismClippingManager_WebGL) (ms : list Z) (cnt : Z) :
  Forall NoDup drawableMasks ->
  drawableMaskCounts = (fun ms => Z.of_nat (length ms)) <$> drawableMasks ->
  drawableMasks !! n = Some ms -> drawableMaskCounts !! n = Some cnt ->
  grouped_upto drawableMasks n this ->
  initialize_body drawableMasks drawableMaskCounts n this = Some this' ->
  grouped_upto drawableMasks (S n) this'.
Proof.
  intros Hnodup Hcounts Hms Hcnt (Hlen & Hcounted & Hids & Hinj & Hdraw) Hbody.
  assert (cnt = Z.of_nat (length ms)) as ->.
  { rewrite Hcounts, list_lookup_fmap, Hms in Hcnt. by injection Hcnt. }
  assert (NoDup ms) as Hms_nodup by (by apply (Forall_lookup_1 _ _ _ _ Hnodup Hms)).
  assert (forall i ms0 (draw' : list (option nat)),
            (i < n)%nat -> drawableMasks !! i = Some ms0 ->
            (_clippingContextListForDraw this ++ draw') !! i
            = _clippingContextListForDraw this !! i) as Hold.
  { intros i ms0 draw' Hi _. apply lookup_app_l. lia. }
  assert (forall ref, (_clippingContextListForDraw this ++ [ref]) !! n
                      = Some ref) as Hnew.
  { intros ref. rewrite lookup_app_r by lia.
    by replace (n - length (_clippingContextListForDraw this))%nat
      with 0%nat by lia. }
  destruct (initialize_body_cases _ _ _ _ _ _ _ Hms Hcnt Hbody)
    as [[Hle ->]|[(Hlt & k & Hfind & ->)|(Hlt & Hfind & ->)]].
  - (* no mask *)
    assert (ms = []) as -> by (destruct ms; [done|simpl in Hle; lia]).
    split; [simpl; rewrite length_app; simpl; lia|].
    split; [done|]. split; [done|]. split; [done|].
    intros i ms0 Hi Hms0. simpl.
    destruct (decide (i = n)) as [->|Hne].
    + rewrite Hnew. congruence.
    + rewrite (Hold i ms0) by (done || lia). apply Hdraw; [lia|done].
  - (* an existing context *)
    unfold findSameClip in Hfind.
    pose proof (findSameClip_from_first (_clippingContextListForMask this)
                  ms (Z.of_nat (length ms)) 0) as Hfirst.
    rewrite Hfind in Hfirst. destruct Hfirst as (_ & (cc & Hcc & Hsame) & _).
    rewrite Nat.sub_0_r in Hcc.
    assert (idLists (pushBackForDraw (Some k)
              (updateContext k (addClippedDrawable n) this)) = idLists this)
      as Hidl by apply idLists_addClippedDrawable.
    split; [simpl; rewrite length_app; simpl; lia|].
    split; [simpl; by apply Forall_alter|].
    rewrite Hidl. split; [done|]. split; [done|].
    intros i ms0 Hi Hms0. simpl.
    destruct (decide (i = n)) as [->|Hne].
    + rewrite Hnew. exists (_clippingIdList cc). split.
      * unfold idLists. by rewrite list_lookup_fmap, Hcc.
      * assert (ms0 = ms) as -> by congruence.
        apply isSameClip_sameSet; try done.
        -- by apply (Forall_lookup_1 _ _ _ _ Hcounted Hcc).
        -- assert (idLists this !! k = Some (_clippingIdList cc)) as Hk
             by (unfold idLists; by rewrite list_lookup_fmap, Hcc).
           by destruct (Forall_lookup_1 _ _ _ _ Hids Hk).
    + rewrite (Hold i ms0) by (done || lia). apply Hdraw; [lia|done].
  - (* a new context *)
    unfold findSameClip in Hfind.
    pose proof (findSameClip_from_first (_clippingContextListForMask this)
                  ms (Z.of_nat (length ms)) 0) as Hnone.
    rewrite Hfind in Hnone.
    assert (ms <> []) as Hne_ms by (intros ->; simpl in Hlt; lia).
    set (this' := {| _clippingContextListForMask := _;
                     _clippingContextListForDraw := _ |}).
    assert (idLists this' = idLists this ++ [ms]) as Hidl.
    { unfold idLists, this'. simpl. by rewrite fmap_app. }
    assert (forall k a, idLists this !! k = Some a -> ~ sameSet a ms) as Hfresh.
    { intros k a Hk Hsame. unfold idLists in Hk.
      rewrite list_lookup_fmap in Hk.
      destruct (_clippingContextListForMask this !! k) as [cc|] eqn:Hcc;
        [|done].
      injection Hk as <-.
      apply isSameClip_sameSet in Hsame; try done.
      - by rewrite (Hnone k cc Hcc) in Hsame.
      - by apply (Forall_lookup_1 _ _ _ _ Hcounted Hcc).
      - assert (idLists this !! k = Some (_clippingIdList cc)) as Hk
          by (unfold idLists; by rewrite list_lookup_fmap, Hcc).
        by destruct (Forall_lookup_1 _ _ _ _ Hids Hk). }
    assert (length (idLists this)
            = length (_clippingContextListForMask this)) as Hlen_ids
      by apply length_fmap.
    split; [simpl; rewrite length_app; simpl; lia|].
    split; [simpl; apply Forall_app; split; [done|by repeat constructor]|].
    rewrite Hidl.
    split; [apply Forall_app; split; [done|by repeat constructor]|].
    split.
    + intros k k' a b Hk Hk' Hsame.
      apply lookup_app_Some in Hk as [Hk|[Hk1 Hk2]];
        apply lookup_app_Some in Hk' as [Hk'|[Hk1' Hk2']].
      * by apply (Hinj k k' a b).
      * apply list_lookup_singleton_Some in Hk2' as [_ <-].
        by destruct (Hfresh k a).
      * apply list_lookup_singleton_Some in Hk2 as [_ <-].
        destruct (Hfresh k' b); [done|]. intros x. by rewrite (Hsame x).
      * apply list_lookup_singleton_Some in Hk2 as [? _].
        apply list_lookup_singleton_Some in Hk2' as [? _]. lia.
    + intros i ms0 Hi Hms0. simpl.
      destruct (decide (i = n)) as [->|Hne].
      * rewrite Hnew. exists ms. split.
        -- rewrite lookup_app_r by lia. rewrite Hlen_ids, Nat.sub_diag.
           assert (ms0 = ms) as -> by congruence. done.
        -- assert (ms0 = ms) as -> by congruence. done.
      * rewrite (Hold i ms0) by (done || lia).
        specialize (Hdraw i ms0 ltac:(lia) Hms0).
        destruct (_clippingContextListForDraw this !! i) as [[k|]|]; try done.
        destruct Hdraw as (ids & Hk & Hsame). exists ids. split; [|done].
        by apply lookup_app_l_Some.
Qed.

(** X2.  On the mask arrays of a model (one array per drawable, without
    duplicate ids, the counts being their lengths) [initialize] returns, and
    two drawables have the same entry in the draw list exactly when their
    mask arrays hold the same ids: drawables clipped by the same set of
    masks share one context whatever the order of the ids, drawables with
    different sets never do, and the unmasked ones all have [null]. *)
Theorem initialize_shares_context (drawableCount : nat)
    (drawableMasks : list (list Z)) (drawableMaskCounts : list Z) :
  masksOfModel drawableCount drawableMasks drawableMaskCounts ->
  exists this,
    initialize CubismClippingManager_WebGL_new drawableCount
               drawableMasks drawableMaskCounts = Some this /\
    forall i j mi mj,
      drawableMasks !! i = Some mi -> drawableMasks !! j = Some mj ->
      (_clippingContextListForDraw this !! i
       = _clippingContextListForDraw this !! j
       <-> sameSet mi mj).
Proof.
  intros (Hlen & Hcounts & Hnodup).
  destruct (initialize_loop_invariant (grouped_upto drawableMasks)
              drawableMasks drawableMaskCounts
              (fun n this this' ms cnt Hms Hcnt =>
                 grouped_upto_step _ _ n this this' ms cnt
                                   Hnodup Hcounts Hms Hcnt)
              drawableCount 0%nat CubismClippingManager_WebGL_new)
    as (this & Hrun & (_ & _ & Hids & Hinj & Hdraw)).
  { simpl. lia. }
  { rewrite Hcounts, length_fmap. simpl. lia. }
  { split; [done|]. split; [constructor|]. split; [constructor|]. split.
    - intros k k' a b Hk. cbv in Hk. discriminate.
    - intros i ms Hi. lia. }
  exists this. split; [exact Hrun|].
  intros i j mi mj Hmi Hmj. simpl in Hdraw.
  pose proof (Hdraw i mi ltac:(apply lookup_lt_Some in Hmi; lia) Hmi) as Hi.
  pose proof (Hdraw j mj ltac:(apply lookup_lt_Some in Hmj; lia) Hmj) as Hj.
  assert (forall k ids ms, idLists this !! k = Some ids -> sameSet ids ms ->
                           ms <> []) as Hne.
  { intros k ids ms Hk Hsame ->.
    destruct (Forall_lookup_1 _ _ _ _ Hids Hk) as [_ Hne].
    destruct ids as [|x ids]; [done|].
    destruct (Hsame x) as [Hx _].
    specialize (Hx ltac:(left)). by apply elem_of_nil in Hx. }
  destruct (_clippingContextListForDraw this !! i) as [[k|]|];
    destruct (_clippingContextListForDraw this !! j) as [[k'|]|]; try done.
  - destruct Hi as (a & Ha & Hsa). destruct Hj as (b & Hb & Hsb). split.
    + intros [= <-]. assert (a = b) as <- by congruence.
      intros x. by rewrite <- (Hsa x), <- (Hsb x).
    + intros Hsame. do 2 f_equal. apply (Hinj k k' a b); try done.
      intros x. by rewrite (Hsa x), (Hsame x), <- (Hsb x).
  - destruct Hi as (a & Ha & Hsa). subst mj. split; [done|].
    intros Hsame%sameSet_nil. by destruct (Hne k a mi).
  - destruct Hj as (b & Hb & Hsb). subst mi. split; [done|].
    intros Hsame. destruct (Hne k' b mj); try done.
    apply sameSet_nil. intros x. by rewrite (Hsame x).
  - subst. done.
Qed.

Lemma initialize_shares_context_witness :
  let drawableMasks := [[1; 2]; [2; 1]; []; [1]]%Z in
  let drawableMaskCounts := [2; 2; 0; 1]%Z in
  masksOfModel 4 drawableMasks drawableMaskCounts /\
  exists this,
    initialize CubismClippingManager_WebGL_new 4
               drawableMasks drawableMaskCounts = Some this /\
    forall i j mi mj,
      drawableMasks !! i = Some mi -> drawableMasks !! j = Some mj ->
      (_clippingContextListForDraw this !! i
       = _clippingContextListForDraw this !! j
       <-> sameSet mi mj).
Proof.
  intros drawableMasks drawableMaskCounts.
  assert (masksOfModel 4 drawableMasks drawableMaskCounts) as H.
  { split; [reflexivity|]. split; [reflexivity|].
    apply (bool_decide_unpack _). vm_compute. reflexivity. }
  split; [exact H|].
  exact (initialize_shares_context 4 drawableMasks drawableMaskCounts H).
Defined.

(** ** initialize: the drawables of each context *)

Lemma filter_ext_elem_of {A} (P Q : A -> Prop) `{!forall x, Decision (P x)}
    `{!forall x, Decision (Q x)} (l : list A) :
  (forall x, x ∈ l -> (P x <-> Q x)) -> filter P l = filter Q l.
Proof.
  induction l as [|x l IH]; intros Hext; [done|].
  rewrite !filter_cons.
  rewrite IH by (intros y Hy; apply Hext; by right).
  destruct (decide (P x)) as [HP|HP], (decide (Q x)) as [HQ|HQ]; try done.
  - destruct HQ. apply Hext; [left|done].
  - destruct HP. apply Hext; [left|done].
Qed.

Lemma filter_none {A} (P : A -> Prop) `{!forall x, Decision (P x)}
    (l : list A) :
  (forall x, x ∈ l -> ~ P x) -> filter P l = [].
Proof.
  induction l as [|x l IH]; intros Hnone; [done|].
  rewrite filter_cons_False by (apply Hnone; left).
  apply IH. intros y Hy. apply Hnone. by right.
Qed.

(** One more drawable: the list of a context grows by the new index when
    the new entry is this context, and stays otherwise. *)
Lemma drawablesOf_push (this : CubismClippingManager_WebGL)
    (mask' : list CubismClippingContext) (ref : option nat) (k : nat) :
  let n := length (_clippingContextListForDraw this) in
  drawablesOf {| _clippingContextListForMask := mask';
                 _clippingContextListForDraw :=
                   _clippingContextListForDraw this ++ [ref] |} (S n) k
  = drawablesOf this n k ++ (if decide (ref = Some k) then [n] else []).
Proof.
  intros n. unfold drawablesOf.
  rewrite seq_S, filter_app. cbn [_clippingContextListForDraw Nat.add].
  f_equal.
  - apply filter_ext_elem_of. intros i Hi.
    apply elem_of_seq in Hi. rewrite lookup_app_l by (fold n; lia). done.
  - rewrite filter_singleton; [|exact []].
    assert ((_clippingContextListForDraw this ++ [ref]) !! n = Some ref)
      as Hn.
    { rewrite lookup_app_r by (fold n; lia). fold n.
      by rewrite Nat.sub_diag. }
    destruct (decide (ref = Some k)) as [->|Hne].
    + by rewrite decide_True.
    + rewrite decide_False; [done|]. rewrite Hn. congruence.
Qed.

Lemma listed_upto_step (drawableMasks : list (list Z))
    (drawableMaskCounts : list Z) (n : nat)
    (this this' : CubismClippingManager_WebGL) (ms : list Z) (cnt : Z) :
  drawableMasks !! n = Some ms -> drawableMaskCounts !! n = Some cnt ->
  listed_upto n this ->
  initialize_body drawableMasks drawableMaskCounts n this = Some this' ->
  listed_upto (S n) this'.
Proof.
  intros Hms Hcnt (Hlen & Hbound & Hlist) Hbody.
  assert (forall ref j k (draw := _clippingContextListForDraw this),
            (draw ++ [ref]) !! j = Some (Some k) ->
            draw !! j = Some (Some k) \/ ref = Some k) as Hrefs.
  { intros ref j k draw [Hj|[_ Hj]]%lookup_app_Some; [by left|].
    apply list_lookup_singleton_Some in Hj as [_ ->]. by right. }
  pose proof (drawablesOf_push this) as Hpush. simpl in Hpush.
  rewrite Hlen in Hpush.
  destruct (initialize_body_cases _ _ _ _ _ _ _ Hms Hcnt Hbody)
    as [[Hle ->]|[(Hlt & k0 & Hfind & ->)|(Hlt & Hfind & ->)]].
  - split; [simpl; rewrite length_app; simpl; lia|]. split.
    + intros j k [Hj|Hj]%Hrefs; [by apply (Hbound j)|done].
    + intros k cc Hcc. unfold pushBackForDraw. rewrite Hpush.
      rewrite decide_False by done. rewrite app_nil_r. by apply Hlist.
  - unfold findSameClip in Hfind.
    pose proof (findSameClip_from_first (_clippingContextListForMask this)
                  ms cnt 0) as Hfirst.
    rewrite Hfind in Hfirst. destruct Hfirst as (_ & (cc0 & Hcc0 & _) & _).
    rewrite Nat.sub_0_r in Hcc0.
    split; [simpl; rewrite length_app; simpl; lia|]. split.
    + intros j k [Hj|Hj]%Hrefs; simpl; rewrite length_alter.
      * by apply (Hbound j).
      * injection Hj as <-. by apply lookup_lt_Some in Hcc0.
    + intros k cc Hcc. unfold pushBackForDraw, updateContext. rewrite Hpush.
      simpl in Hcc. destruct (decide (k0 = k)) as [->|Hne].
      * rewrite list_lookup_alter_eq, Hcc0 in Hcc. injection Hcc as <-.
        rewrite decide_True by done. simpl.
        destruct (Hlist k cc0 Hcc0) as [-> _]. split; [done|].
        intros H. by apply app_eq_nil in H as [_ H].
      * rewrite list_lookup_alter_ne in Hcc by done.
        rewrite decide_False by congruence. rewrite app_nil_r.
        by apply Hlist.
  - split; [simpl; rewrite length_app; simpl; lia|]. split.
    + intros j k [Hj|Hj]%Hrefs; simpl; rewrite length_app; simpl.
      * specialize (Hbound j k Hj). lia.
      * injection Hj as <-. lia.
    + intros k cc Hcc. rewrite Hpush. simpl in Hcc.
      apply lookup_app_Some in Hcc as [Hcc|[Hk Hcc]].
      * rewrite decide_False.
        -- rewrite app_nil_r. by apply Hlist.
        -- intros [= <-]. apply lookup_lt_Some in Hcc. lia.
      * apply list_lookup_singleton_Some in Hcc as [Hk' <-].
        assert (k = length (_clippingContextListForMask this)) as -> by lia.
        rewrite decide_True by done. simpl.
        unfold drawablesOf. rewrite filter_none; [done|].
        intros i _ Hi. specialize (Hbound i _ Hi). lia.
Qed.

(** X3.  After [initialize] on a fresh manager, the clipped-drawable list of
    every context is exactly the increasing list of the drawables whose
    entry in the draw list is this context, and it is never empty: every
    masked drawable is listed once, by its own context and by no other, and
    no context is created without a drawable. *)
Theorem initialize_clipped_lists (drawableCount : nat)
    (drawableMasks : list (list Z)) (drawableMaskCounts : list Z) :
  length drawableMasks = drawableCount ->
  length drawableMaskCounts = drawableCount ->
  exists this,
    initialize CubismClippingManager_WebGL_new drawableCount
               drawableMasks drawableMaskCounts = Some this /\
    forall k cc, _clippingContextListForMask this !! k = Some cc ->
      _clippedDrawableIndexList cc = drawablesOf this drawableCount k /\
      _clippedDrawableIndexList cc <> [].
Proof.
  intros Hm Hc.
  destruct (initialize_loop_invariant listed_upto
              drawableMasks drawableMaskCounts
              (fun n this this' ms cnt Hms Hcnt =>
                 listed_upto_step _ _ n this this' ms cnt Hms Hcnt)
              drawableCount 0%nat CubismClippingManager_WebGL_new)
    as (this & Hrun & (_ & _ & Hlist)).
  { simpl. lia. }
  { simpl. lia. }
  { split; [done|]. split.
    - intros j k Hj. cbv in Hj. discriminate.
    - intros k cc Hcc. cbv in Hcc. discriminate. }
  exists this. split; [exact Hrun|]. exact Hlist.
Qed.

Lemma initialize_clipped_lists_witness :
  let drawableMasks := [[1; 2]; []; [2; 1]; [1]]%Z in
  let drawableMaskCounts := [2; 0; 2; 1]%Z in
  exists this,
    initialize CubismClippingManager_WebGL_new 4
               drawableMasks drawableMaskCounts = Some this /\
    forall k cc, _clippingContextListForMask this !! k = Some cc ->
      _clippedDrawableIndexList cc = drawablesOf this 4 k /\
      _clippedDrawableIndexList cc <> [].
Proof.
  intros drawableMasks drawableMaskCounts.
  exact (initialize_clipped_lists 4 drawableMasks drawableMaskCounts
           eq_refl eq_refl).
Defined.

(** ** setupLayoutBounds: too few contexts, too many groups *)

Lemma sameButLayout_refl (cc : CubismClippingContext) : sameButLayout cc cc.
Proof. by repeat split. Qed.

Lemma sameButLayout_trans (a b c : CubismClippingContext) :
  sameButLayout a b -> sameButLayout b c -> sameButLayout a c.
Proof.
  intros (H1 & H2 & H3 & H4 & H5 & H6 & H7) (G1 & G2 & G3 & G4 & G5 & G6 & G7).
  repeat split; congruence.
Qed.

Lemma Forall2_sameButLayout_refl (l : list CubismClippingContext) :
  Forall2 sameButLayout l l.
Proof. apply Forall_Forall2_diag, Forall_forall. intros. apply sameButLayout_refl. Qed.

Lemma Forall2_sameButLayout_trans (l1 l2 l3 : list CubismClippingContext) :
  Forall2 sameButLayout l1 l2 -> Forall2 sameButLayout l2 l3 ->
  Forall2 sameButLayout l1 l3.
Proof.
  intros H12. revert l3. induction H12; intros l3 H23; inversion H23; subst;
    constructor; eauto using sameButLayout_trans.
Qed.

Lemma layoutAt_frame (channelNo : nat) (b : csmRect.t) (st st' : LayoutState) :
  layoutAt channelNo b st = Some st' ->
  Forall2 sameButLayout (layoutContexts st) (layoutContexts st') /\
  curClipIndex st' = S (curClipIndex st) /\
  (curClipIndex st' <= length (layoutContexts st))%nat /\
  layoutLog st' = layoutLog st.
Proof.
  unfold layoutAt.
  destruct (layoutContexts st !! curClipIndex st) as [cc|] eqn:Hcc; [|done].
  intros [= <-]. simpl. split; [|split; [done|split; [|done]]].
  - apply Forall2_alter_r; [apply Forall2_sameButLayout_refl|].
    intros x y _ _ H. apply (sameButLayout_trans _ _ _ H). by repeat split.
  - apply lookup_lt_Some in Hcc. lia.
Qed.

Lemma layoutLoop_frame (channelNo : nat) (bounds : nat -> csmRect.t)
    (indices : list nat) (st st' : LayoutState) :
  layoutLoop channelNo bounds indices st = Some st' ->
  Forall2 sameButLayout (layoutContexts st) (layoutContexts st') /\
  curClipIndex st' = (curClipIndex st + length indices)%nat /\
  (indices <> [] -> (curClipIndex st' <= length (layoutContexts st))%nat) /\
  layoutLog st' = layoutLog st.
Proof.
  revert st. induction indices as [|i l IH]; intros st; simpl.
  - intros [= <-]. split; [apply Forall2_sameButLayout_refl|].
    split; [lia|]. done.
  - destruct (layoutAt channelNo (bounds i) st) as [st1|] eqn:H1; [|done].
    simpl. intros Hrun.
    destruct (layoutAt_frame _ _ _ _ H1) as (Hf1 & Hc1 & Hb1 & Hl1).
    destruct (IH st1 Hrun) as (Hf & Hc & Hb & Hl).
    split; [by apply (Forall2_sameButLayout_trans _ _ _ Hf1)|].
    split; [lia|]. split; [|congruence].
    intros _. destruct l as [|j l]; [simpl in Hc; lia|].
    rewrite (Forall2_length _ _ _ Hf1). by apply Hb.
Qed.

Lemma setupLayoutBounds_channel_frame (div mod_ channelNo : nat)
    (st st' : LayoutState) :
  setupLayoutBounds_channel div mod_ channelNo st = Some st' ->
  Forall2 sameButLayout (layoutContexts st) (layoutContexts st') /\
  curClipIndex st'
  = (curClipIndex st + placedCount div mod_ [channelNo])%nat /\
  ((0 < placedCount div mod_ [channelNo])%nat ->
   (curClipIndex st' <= length (layoutContexts st))%nat) /\
  layoutLog st' = layoutLog st ++ overflowLog div mod_ [channelNo].
Proof.
  unfold setupLayoutBounds_channel, placedCount, overflowLog. simpl.
  generalize (div + (if channelNo <? mod_ then 1 else 0))%nat.
  intros layoutCount.
  assert (forall bounds,
    layoutLoop channelNo bounds (seq 0 layoutCount) st = Some st' ->
    Forall2 sameButLayout (layoutContexts st) (layoutContexts st') /\
    curClipIndex st' = (curClipIndex st + (layoutCount + 0))%nat /\
    ((0 < layoutCount + 0)%nat ->
     (curClipIndex st' <= length (layoutContexts st))%nat) /\
    layoutLog st' = layoutLog st ++ []) as Hloop.
  { intros bounds Hrun.
    destruct (layoutLoop_frame _ _ _ _ _ Hrun) as (Hf & Hc & Hb & Hl).
    rewrite length_seq in Hc. split; [done|]. split; [lia|].
    split; [|by rewrite app_nil_r].
    intros Hpos. apply Hb. destruct layoutCount; [lia|done]. }
  destruct (Nat.eqb_spec layoutCount 0) as [H0|H0].
  { intros [= <-]. subst layoutCount. simpl.
    split; [apply Forall2_sameButLayout_refl|]. split; [lia|].
    split; [lia|]. by rewrite app_nil_r. }
  destruct (Nat.eqb_spec layoutCount 1) as [H1|H1].
  { intros Hrun. destruct (layoutAt_frame _ _ _ _ Hrun) as (Hf & Hc & Hb & Hl).
    subst layoutCount. simpl. split; [done|]. split; [lia|].
    split; [done|]. by rewrite app_nil_r. }
  destruct (Nat.eqb_spec layoutCount 2) as [H2|H2].
  { subst layoutCount. apply Hloop. }
  destruct (Nat.leb_spec layoutCount 4) as [H4|H4].
  { destruct (Nat.leb_spec layoutCount 9); [apply Hloop|lia]. }
  destruct (Nat.leb_spec layoutCount 9) as [H9|H9]; [apply Hloop|].
  intros [= <-]. simpl. split; [apply Forall2_sameButLayout_refl|].
  split; [lia|]. split; [lia|done].
Qed.

Lemma placedCount_cons (div mod_ c : nat) (l : list nat) :
  placedCount div mod_ (c :: l)
  = (placedCount div mod_ [c] + placedCount div mod_ l)%nat.
Proof. unfold placedCount. simpl. lia. Qed.

Lemma overflowLog_cons (div mod_ c : nat) (l : list nat) :
  overflowLog div mod_ (c :: l)
  = overflowLog div mod_ [c] ++ overflowLog div mod_ l.
Proof.
  unfold overflowLog. simpl.
  by destruct (div + (if c <? mod_ then 1 else 0) <=? 9)%nat.
Qed.

Lemma setupLayoutBounds_channels_frame (div mod_ : nat) (channels : list nat)
    (st st' : LayoutState) :
  setupLayoutBounds_channels div mod_ channels st = Some st' ->
  Forall2 sameButLayout (layoutContexts st) (layoutContexts st') /\
  curClipIndex st' = (curClipIndex st + placedCount div mod_ channels)%nat /\
  ((0 < placedCount div mod_ channels)%nat ->
   (curClipIndex st' <= length (layoutContexts st))%nat) /\
  layoutLog st' = layoutLog st ++ overflowLog div mod_ channels.
Proof.
  revert st. induction channels as [|c l IH]; intros st.
  - intros [= <-]. split; [apply Forall2_sameButLayout_refl|].
    unfold placedCount, overflowLog. simpl.
    split; [lia|]. split; [lia|]. by rewrite app_nil_r.
  - intros Hrun. cbn [setupLayoutBounds_channels] in Hrun.
    destruct (setupLayoutBounds_channel div mod_ c st) as [st1|] eqn:H1;
      [|done].
    simpl in Hrun.
    destruct (setupLayoutBounds_channel_frame _ _ _ _ _ H1)
      as (Hf1 & Hc1 & Hb1 & Hl1).
    destruct (IH st1 Hrun) as (Hf & Hc & Hb & Hl).
    rewrite placedCount_cons, overflowLog_cons.
    split; [by apply (Forall2_sameButLayout_trans _ _ _ Hf1)|].
    split; [lia|]. split; [|by rewrite Hl, Hl1, app_assoc].
    intros Hpos. rewrite (Forall2_length _ _ _ Hf1).
    destruct (placedCount div mod_ l) as [|k] eqn:Hk.
    + rewrite Hc, Nat.add_0_r, <- (Forall2_length _ _ _ Hf1).
      apply Hb1. lia.
    + apply Hb. lia.
Qed.

Lemma setupLayoutBounds_channel_returns (div mod_ channelNo : nat)
    (st : LayoutState) :
  (curClipIndex st + (div + (if channelNo <? mod_ then 1 else 0))
   <= length (layoutContexts st))%nat ->
  is_Some (setupLayoutBounds_channel div mod_ channelNo st).
Proof.
  intros Hlen.
  destruct (Nat.leb_spec (div + (if channelNo <? mod_ then 1 else 0)) 9)
    as [H9|H9].
  - destruct (setupLayoutBounds_channel_placed div mod_ channelNo st H9 Hlen)
      as (st' & -> & _). done.
  - unfold setupLayoutBounds_channel.
    repeat match goal with
           | |- context [(?a =? ?b)%nat] =>
               destruct (Nat.eqb_spec a b); [lia|]
           | |- context [(?a <=? ?b)%nat] =>
               destruct (Nat.leb_spec a b); [lia|]
           end.
    done.
Qed.

Lemma placedCount_le (div mod_ c0 m : nat) :
  (placedCount div mod_ (seq c0 m) <= countsFrom div mod_ c0 (c0 + m))%nat.
Proof.
  revert c0. induction m as [|m IH]; intros c0.
  - rewrite Nat.add_0_r, countsFrom_self. unfold placedCount. simpl. lia.
  - rewrite countsFrom_S by lia. cbn [seq]. rewrite placedCount_cons.
    specialize (IH (S c0)).
    replace (S c0 + m)%nat with (c0 + S m)%nat in IH by lia.
    unfold placedCount at 1. simpl.
    destruct (div + (if c0 <? mod_ then 1 else 0) <=? 9)%nat; lia.
Qed.

Lemma setupLayoutBounds_channels_returns (div mod_ m c0 : nat)
    (st : LayoutState) :
  (curClipIndex st + countsFrom div mod_ c0 (c0 + m)
   <= length (layoutContexts st))%nat ->
  is_Some (setupLayoutBounds_channels div mod_ (seq c0 m) st).
Proof.
  revert c0 st. induction m as [|m IH]; intros c0 st Hlen; [done|].
  rewrite countsFrom_S in Hlen by lia. cbn [seq setupLayoutBounds_channels].
  destruct (setupLayoutBounds_channel_returns div mod_ c0 st) as [st1 H1];
    [lia|].
  rewrite H1. simpl.
  destruct (setupLayoutBounds_channel_frame _ _ _ _ _ H1)
    as (Hf1 & Hc1 & _ & _).
  apply IH. rewrite <- (Forall2_length _ _ _ Hf1), Hc1.
  replace (S c0 + m)%nat with (c0 + S m)%nat by lia.
  assert (placedCount div mod_ [c0]
          <= div + (if c0 <? mod_ then 1 else 0))%nat; [|lia].
  unfold placedCount. simpl.
  destruct (div + (if c0 <? mod_ then 1 else 0) <=? 9)%nat; lia.
Qed.

Lemma countsFrom_total (n : nat) :
  countsFrom (n / ColorChannelCount) (n mod ColorChannelCount) 0 4 = n.
Proof.
  unfold countsFrom, ColorChannelCount.
  pose proof (Nat.div_mod_eq n 4) as Hn.
  pose proof (Nat.mod_upper_bound n 4 ltac:(lia)) as Hr.
  generalize dependent (n / 4)%nat. generalize dependent (n mod 4)%nat.
  intros r Hr d Hn. simpl.
  repeat match goal with
         | |- context [(?a <? ?b)%nat] => destruct (Nat.ltb_spec a b)
         end; lia.
Qed.

Lemma overflowLog_nil_iff (n : nat) :
  overflowLog (n / ColorChannelCount) (n mod ColorChannelCount) (seq 0 4) = []
  <-> (n <= 36)%nat.
Proof.
  unfold overflowLog, ColorChannelCount.
  pose proof (Nat.div_mod_eq n 4) as Hn.
  pose proof (Nat.mod_upper_bound n 4 ltac:(lia)) as Hr.
  generalize dependent (n / 4)%nat. generalize dependent (n mod 4)%nat.
  intros r Hr d Hn. simpl.
  repeat match goal with
         | |- context [(?a <? ?b)%nat] => destruct (Nat.ltb_spec a b)
         end;
  repeat match goal with
         | |- context [(?a <=? ?b)%nat] => destruct (Nat.leb_spec a b)
         end; simpl; split; intros Hgoal; try done; try lia.
Qed.

Lemma placedCount_total (n : nat) :
  (n <= 36)%nat ->
  placedCount (n / ColorChannelCount) (n mod ColorChannelCount) (seq 0 4) = n.
Proof.
  unfold placedCount, ColorChannelCount. intros Hle.
  pose proof (Nat.div_mod_eq n 4) as Hn.
  pose proof (Nat.mod_upper_bound n 4 ltac:(lia)) as Hr.
  generalize dependent (n / 4)%nat. generalize dependent (n mod 4)%nat.
  intros r Hr d Hn. simpl.
  repeat match goal with
         | |- context [(?a <? ?b)%nat] => destruct (Nat.ltb_spec a b)
         end;
  repeat match goal with
         | |- context [(?a <=? ?b)%nat] => destruct (Nat.leb_spec a b)
         end; lia.
Qed.

Lemma setupLayoutBounds_returns (n : nat)
    (contexts : list CubismClippingContext) :
  (n <= length contexts)%nat ->
  exists st,
    setupLayoutBounds n contexts = Some st /\
    Forall2 sameButLayout contexts (layoutContexts st) /\
    layoutLog st
    = overflowLog (n / ColorChannelCount) (n mod ColorChannelCount)
                  (seq 0 ColorChannelCount) /\
    curClipIndex st
    = placedCount (n / ColorChannelCount) (n mod ColorChannelCount)
                  (seq 0 ColorChannelCount).
Proof.
  intros Hlen. unfold setupLayoutBounds.
  destruct (setupLayoutBounds_channels_returns
              (n / ColorChannelCount) (n mod ColorChannelCount) 4 0
              (mkLayoutState contexts 0 [])) as [st Hrun].
  { cbn [curClipIndex layoutContexts].
    change (0 + 4)%nat with 4%nat. rewrite countsFrom_total. lia. }
  change (seq 0 ColorChannelCount) with (seq 0 4).
  exists st. split; [exact Hrun|].
  destruct (setupLayoutBounds_channels_frame _ _ _ _ _ Hrun)
    as (Hf & Hc & _ & Hl).
  simpl in Hf, Hc, Hl. done.
Qed.

(** X4.  With at least [n] contexts [setupLayoutBounds(n)] returns for every
    [n], also beyond the 36 groups that the texture holds: each channel
    meant to hold more than nine groups logs one error with its count and
    gets no group at all, so the log is empty exactly when [n <= 36] and
    fewer than [n] slots are handed out otherwise; whatever [n], no context
    is added, removed or changed in anything but its layout. *)
Theorem setupLayoutBounds_overflow (n : nat)
    (contexts : list CubismClippingContext) :
  (n <= length contexts)%nat ->
  exists st,
    setupLayoutBounds n contexts = Some st /\
    Forall2 sameButLayout contexts (layoutContexts st) /\
    layoutLog st
    = overflowLog (n / ColorChannelCount) (n mod ColorChannelCount)
                  (seq 0 ColorChannelCount) /\
    (layoutLog st = [] <-> (n <= 36)%nat) /\
    curClipIndex st
    = placedCount (n / ColorChannelCount) (n mod ColorChannelCount)
                  (seq 0 ColorChannelCount) /\
    ((36 < n)%nat -> (curClipIndex st < n)%nat).
Proof.
  intros Hlen.
  destruct (setupLayoutBounds_returns n contexts Hlen)
    as (st & Hrun & Hf & Hl & Hc).
  exists st. split; [exact Hrun|]. split; [done|]. split; [done|].
  split; [rewrite Hl; apply overflowLog_nil_iff|]. split; [done|].
  rewrite Hc. clear. unfold placedCount, ColorChannelCount.
  pose proof (Nat.div_mod_eq n 4) as Hn.
  pose proof (Nat.mod_upper_bound n 4 ltac:(lia)) as Hr.
  generalize dependent (n / 4)%nat. generalize dependent (n mod 4)%nat.
  intros r Hr d Hn. simpl.
  repeat match goal with
         | |- context [(?a <? ?b)%nat] => destruct (Nat.ltb_spec a b)
         end;
  repeat match goal with
         | |- context [(?a <=? ?b)%nat] => destruct (Nat.leb_spec a b)
         end; lia.
Qed.

Lemma setupLayoutBounds_overflow_witness :
  let contexts := replicate 37 (CubismClippingContext_new [1%Z] 1) in
  exists st,
    setupLayoutBounds 37 contexts = Some st /\
    Forall2 sameButLayout contexts (layoutContexts st) /\
    layoutLog st = [unsupportedMaskCount 10] /\
    curClipIndex st = 27%nat.
Proof.
  intros contexts.
  destruct (setupLayoutBounds_overflow 37 contexts)
    as (st & Hrun & Hf & Hl & _ & Hc & _).
  { vm_compute. reflexivity. }
  exists st. split; [exact Hrun|]. split; [exact Hf|].
  split; [exact Hl|exact Hc].
Defined.

(** X5.  With fewer contexts than groups to lay out, [setupLayoutBounds]
    throws: for [n <= 36] it returns if and only if the list holds at least
    [n] contexts (the read past the end of the list gives [undefined], and
    the write of the channel to it fails). *)
Theorem setupLayoutBounds_returns_iff (n : nat)
    (contexts : list CubismClippingContext) :
  (n <= 36)%nat ->
  is_Some (setupLayoutBounds n contexts) <-> (n <= length contexts)%nat.
Proof.
  intros Hle. split.
  - intros [st Hrun]. unfold setupLayoutBounds in Hrun.
    destruct (setupLayoutBounds_channels_frame _ _ _ _ _ Hrun)
      as (_ & Hc & Hb & _).
    change (seq 0 ColorChannelCount) with (seq 0 4) in *.
    rewrite placedCount_total in * by done. simpl in Hc, Hb.
    destruct n; [lia|]. rewrite <- Hc. apply Hb. lia.
  - intros Hlen. unfold setupLayoutBounds.
    apply (setupLayoutBounds_channels_returns _ _ 4 0).
    cbn [curClipIndex layoutContexts].
    change (0 + 4)%nat with 4%nat. rewrite countsFrom_total. lia.
Qed.

Lemma setupLayoutBounds_returns_iff_witness :
  setupLayoutBounds 2 [CubismClippingContext_new [1%Z] 1] = None.
Proof.
  pose proof (setupLayoutBounds_returns_iff 2
                [CubismClippingContext_new [1%Z] 1] ltac:(lia)) as [H _].
  destruct (setupLayoutBounds 2 [CubismClippingContext_new [1%Z] 1])
    as [st|]; [|reflexivity].
  exfalso. specialize (H ltac:(eexists; reflexivity)). simpl in H. lia.
Defined.

(** ** calcClippedDrawTotalBounds: the rectangle of a group *)

Lemma Qltb_true (a b : Q) : Qltb a b = true <-> (a < b)%Q.
Proof.
  unfold Qltb. rewrite negb_true_iff. split.
  - intros H. apply Qnot_le_lt. intros Hle.
    apply Qle_bool_iff in Hle. congruence.
  - intros Hlt. destruct (Qle_bool b a) eqn:H; [|done].
    apply Qle_bool_iff in H. lra.
Qed.

Lemma Qltb_false (a b : Q) : Qltb a b = false <-> (b <= a)%Q.
Proof.
  unfold Qltb. rewrite negb_false_iff. apply Qle_bool_iff.
Qed.

(** The four components of the extent of a drawable are four folds. *)
Lemma drawableExtent_folds (v : list Q) (l : list nat) (e : Extent) :
  let e' :=
    fold_left
      (fun e pi =>
         let x := v !! pi in
         let y := v !! (pi + 1)%nat in
         mkExtent (lowerTo x (minX e)) (lowerTo y (minY e))
                  (raiseTo x (maxX e)) (raiseTo y (maxY e)))
      l e in
  minX e' = fold_left (fun m pi => lowerTo (v !! pi) m) l (minX e) /\
  minY e' = fold_left (fun m pi => lowerTo (v !! (pi + 1)%nat) m) l (minY e) /\
  maxX e' = fold_left (fun m pi => raiseTo (v !! pi) m) l (maxX e) /\
  maxY e' = fold_left (fun m pi => raiseTo (v !! (pi + 1)%nat) m) l (maxY e).
Proof.
  revert e. induction l as [|pi l IH]; intros e; simpl; [done|].
  apply IH.
Qed.

Lemma lowerTo_fold (g : nat -> option Q) (l : list nat) (init : Q) :
  let m := fold_left (fun m pi => lowerTo (g pi) m) l init in
  (m <= init)%Q /\
  (forall q, q ∈ omap g l -> (m <= q)%Q) /\
  (m = init \/ m ∈ omap g l).
Proof.
  revert init. induction l as [|pi l IH]; intros init; simpl.
  - split; [lra|]. split; [|by left]. intros q Hq. by apply elem_of_nil in Hq.
  - destruct (IH (lowerTo (g pi) init)) as (Hle & Hall & Hatt).
    assert (lowerTo (g pi) init <= init)%Q as Hstep.
    { unfold lowerTo. destruct (g pi) as [q|]; [|lra].
      destruct (Qltb q init) eqn:Hq; [|lra]. apply Qltb_true in Hq. lra. }
    split; [lra|]. split.
    + intros q Hq. destruct (g pi) as [q0|] eqn:Hg; [|by apply Hall].
      apply elem_of_cons in Hq as [->|Hq]; [|by apply Hall].
      assert (lowerTo (Some q0) init <= q0)%Q; [|lra].
      simpl. destruct (Qltb q0 init) eqn:Hq; [lra|].
      by apply Qltb_false in Hq.
    + destruct Hatt as [Hatt|Hatt].
      * rewrite Hatt. unfold lowerTo. destruct (g pi) as [q|]; [|by left].
        destruct (Qltb q init); [right; left|by left].
      * right. destruct (g pi); [by right|done].
Qed.

Lemma raiseTo_fold (g : nat -> option Q) (l : list nat) (init : Q) :
  let m := fold_left (fun m pi => raiseTo (g pi) m) l init in
  (init <= m)%Q /\
  (forall q, q ∈ omap g l -> (q <= m)%Q) /\
  (m = init \/ m ∈ omap g l).
Proof.
  revert init. induction l as [|pi l IH]; intros init; simpl.
  - split; [lra|]. split; [|by left]. intros q Hq. by apply elem_of_nil in Hq.
  - destruct (IH (raiseTo (g pi) init)) as (Hle & Hall & Hatt).
    assert (init <= raiseTo (g pi) init)%Q as Hstep.
    { unfold raiseTo. destruct (g pi) as [q|]; [|lra].
      destruct (Qltb init q) eqn:Hq; [|lra]. apply Qltb_true in Hq. lra. }
    split; [lra|]. split.
    + intros q Hq. destruct (g pi) as [q0|] eqn:Hg; [|by apply Hall].
      apply elem_of_cons in Hq as [->|Hq]; [|by apply Hall].
      assert (q0 <= raiseTo (Some q0) init)%Q; [|lra].
      simpl. destruct (Qltb init q0) eqn:Hq; [lra|].
      by apply Qltb_false in Hq.
    + destruct Hatt as [Hatt|Hatt].
      * rewrite Hatt. unfold raiseTo. destruct (g pi) as [q|]; [|by left].
        destruct (Qltb init q); [right; left|by left].
      * right. destruct (g pi); [by right|done].
Qed.

(** The extent of one drawable, in terms of its points. *)
Lemma drawableExtent_spec (model : CubismModel) (d : nat) :
  let e := drawableExtent model d in
  ((minX e <= Number_MAX_VALUE)%Q /\
   (forall x, x ∈ xsOf model d -> (minX e <= x)%Q) /\
   (minX e = Number_MAX_VALUE \/ minX e ∈ xsOf model d)) /\
  (forall y, y ∈ ysOf model d -> (minY e <= y)%Q) /\
  ((Number_MIN_VALUE <= maxX e)%Q /\
   (forall x, x ∈ xsOf model d -> (x <= maxX e)%Q) /\
   (maxX e = Number_MIN_VALUE \/ maxX e ∈ xsOf model d)) /\
  ((Number_MIN_VALUE <= maxY e)%Q /\
   (forall y, y ∈ ysOf model d -> (y <= maxY e)%Q)).
Proof.
  intros e. unfold e, drawableExtent, xsOf, ysOf. cbv zeta.
  set (v := getDrawableVertices model d).
  set (l := vertexPositions _).
  pose proof (drawableExtent_folds v l Extent_init) as Hfolds.
  cbv zeta in Hfolds. destruct Hfolds as (-> & -> & -> & ->).
  destruct (lowerTo_fold (fun pi => v !! pi) l (minX Extent_init))
    as (H1 & H2 & H3).
  destruct (lowerTo_fold (fun pi => v !! (pi + 1)%nat) l (minY Extent_init))
    as (_ & G2 & _).
  destruct (raiseTo_fold (fun pi => v !! pi) l (maxX Extent_init))
    as (K1 & K2 & K3).
  destruct (raiseTo_fold (fun pi => v !! (pi + 1)%nat) l (maxY Extent_init))
    as (L1 & L2 & _).
  done.
Qed.

Lemma drawableExtent_valid (model : CubismModel) (d : nat) :
  Qeq_bool (minX (drawableExtent model d)) Number_MAX_VALUE = false <->
  hasValidPoint model d.
Proof.
  destruct (drawableExtent_spec model d) as ((Hle & Hall & Hatt) & _).
  split.
  - intros Hne.
    assert (~ minX (drawableExtent model d) == Number_MAX_VALUE) as Hneq.
    { intros Heq. apply Qeq_bool_iff in Heq. congruence. }
    destruct Hatt as [Heq|Hin]; [destruct Hneq; by rewrite Heq|].
    exists (minX (drawableExtent model d)). split; [done|]. lra.
  - intros (x & Hx & Hlt). specialize (Hall x Hx).
    destruct (Qeq_bool _ _) eqn:Heq; [|done].
    apply Qeq_bool_iff in Heq. lra.
Qed.

Lemma lower_pick (a b : Q) :
  let m := if Qltb a b then a else b in
  (m <= a)%Q /\ (m <= b)%Q /\ (m = a \/ m = b).
Proof.
  simpl. destruct (Qltb a b) eqn:H.
  - apply Qltb_true in H. split; [lra|]. split; [lra|by left].
  - apply Qltb_false in H. split; [lra|]. split; [lra|by right].
Qed.

Lemma upper_pick (a b : Q) :
  let m := if Qltb b a then a else b in
  (a <= m)%Q /\ (b <= m)%Q /\ (m = a \/ m = b).
Proof.
  simpl. destruct (Qltb b a) eqn:H.
  - apply Qltb_true in H. split; [lra|]. split; [lra|by left].
  - apply Qltb_false in H. split; [lra|]. split; [lra|by right].
Qed.

(** What the loop over the clipped drawables has computed after the
    drawables of [l]: nothing is written before the first drawable with a
    valid point; from then on the context holds the rectangle of the running
    extent and is in use. *)
Lemma calcClippedDrawTotalBounds_body_fold (model : CubismModel)
    (cc0 : CubismClippingContext) (l : list nat) :
  let st := fold_left (calcClippedDrawTotalBounds_body model) l
                      (Extent_init, cc0) in
  let total := fst st in
  (Number_MIN_VALUE <= maxX total)%Q /\
  (Number_MIN_VALUE <= maxY total)%Q /\
  (((forall d, d ∈ l -> ~ hasValidPoint model d) /\ st = (Extent_init, cc0)) \/
   ((exists d, d ∈ l /\ hasValidPoint model d) /\
    (minX total < Number_MAX_VALUE)%Q /\
    snd st
    = setAllClippedDrawRect
        (csmRect.mk (minX total) (minY total)
                    (maxX total - minX total) (maxY total - minY total))
        true cc0 /\
    (forall d, d ∈ l -> hasValidPoint model d ->
       let e := drawableExtent model d in
       (minX total <= minX e)%Q /\ (minY total <= minY e)%Q /\
       (maxX e <= maxX total)%Q /\ (maxY e <= maxY total)%Q) /\
    (exists d, d ∈ l /\ hasValidPoint model d /\
               minX total = minX (drawableExtent model d)) /\
    (maxX total = Number_MIN_VALUE \/
     exists d, d ∈ l /\ hasValidPoint model d /\
               maxX total = maxX (drawableExtent model d)))).
Proof.
  induction l as [|d l IH] using rev_ind.
  - simpl. split; [lra|]. split; [lra|]. left. split; [|done].
    intros d Hd. by apply elem_of_nil in Hd.
  - rewrite fold_left_app. cbn [fold_left].
    destruct (fold_left (calcClippedDrawTotalBounds_body model) l
                        (Extent_init, cc0)) as [total cc] eqn:Hst.
    cbn [fst snd] in IH. destruct IH as (HmaxX & HmaxY & IH).
    unfold calcClippedDrawTotalBounds_body.
    destruct (Qeq_bool (minX (drawableExtent model d)) Number_MAX_VALUE)
      eqn:Hd.
    { (* continue *)
      assert (~ hasValidPoint model d) as Hinvalid.
      { intros Hv. apply drawableExtent_valid in Hv. congruence. }
      cbn [fst snd]. split; [done|]. split; [done|].
      destruct IH as [[Hnone Heq]|(Hsome & Hlt & Hcc & Hall & Hleft & Hright)].
      - left. split; [|done].
        intros d' [Hd'|Hd']%elem_of_app; [by apply Hnone|].
        apply list_elem_of_singleton in Hd'. by subst.
      - right. split.
        { destruct Hsome as (d' & Hd' & Hv). exists d'.
          split; [apply elem_of_app; by left|done]. }
        split; [done|]. split; [done|]. split.
        { intros d' [Hd'|Hd']%elem_of_app Hv; [by apply Hall|].
          apply list_elem_of_singleton in Hd'. by subst. }
        split.
        { destruct Hleft as (d' & Hd' & Hv & Heq). exists d'.
          split; [apply elem_of_app; by left|done]. }
        destruct Hright as [Heq|(d' & Hd' & Hv & Heq)]; [by left|].
        right. exists d'. split; [apply elem_of_app; by left|done]. }
    (* a drawable with a valid point *)
    assert (hasValidPoint model d) as Hvalid by (by apply drawableExtent_valid).
    destruct (drawableExtent_spec model d) as ((HeMax & _) & _ & _ & _).
    assert (minX (drawableExtent model d) < Number_MAX_VALUE)%Q as HeLt.
    { apply Qle_lteq in HeMax as [Hlt|Heq]; [done|].
      apply Qeq_bool_iff in Heq. congruence. }
    set (e := drawableExtent model d) in *.
    pose proof (lower_pick (minX e) (minX total)) as (X1 & X2 & X3).
    pose proof (lower_pick (minY e) (minY total)) as (Y1 & Y2 & Y3).
    pose proof (upper_pick (maxX e) (maxX total)) as (U1 & U2 & U3).
    pose proof (upper_pick (maxY e) (maxY total)) as (V1 & V2 & V3).
    cbv zeta in X1, X2, X3, Y1, Y2, Y3, U1, U2, U3, V1, V2, V3.
    cbv zeta.
    set (mx := if Qltb (minX e) (minX total) then minX e else minX total) in *.
    set (my := if Qltb (minY e) (minY total) then minY e else minY total) in *.
    set (Mx := if Qltb (maxX total) (maxX e) then maxX e else maxX total) in *.
    set (My := if Qltb (maxY total) (maxY e) then maxY e else maxY total) in *.
    cbn [minX minY maxX maxY].
    assert (Qeq_bool mx Number_MAX_VALUE = false) as ->.
    { destruct (Qeq_bool mx Number_MAX_VALUE) eqn:Heq; [|done].
      apply Qeq_bool_iff in Heq. lra. }
    cbn [fst snd minX minY maxX maxY].
    split; [lra|]. split; [lra|]. right.
    split; [exists d; split; [apply elem_of_app; right; by left|done]|].
    split; [lra|].
    assert (forall d', d' ∈ [d] -> d' = d) as Hsingle.
    { intros d' Hd'. by apply list_elem_of_singleton in Hd'. }
    destruct IH as [[Hnone Heq]|(Hsome & Hlt & Hcc & Hall & Hleft & Hright)].
    + injection Heq as -> ->. split; [done|]. split.
      { intros d' [Hd'|Hd']%elem_of_app Hv; [by destruct (Hnone d')|].
        apply Hsingle in Hd'. subst d'. fold e. cbv zeta. lra. }
      split.
      { exists d. split; [apply elem_of_app; right; by left|]. split; [done|].
        destruct X3 as [->|X3]; [done|].
        exfalso. rewrite X3 in X1. simpl in X1. lra. }
      destruct U3 as [->|U3].
      * right. exists d. split; [apply elem_of_app; right; by left|done].
      * left. exact U3.
    + split; [rewrite Hcc; reflexivity|]. split.
      { intros d' [Hd'|Hd']%elem_of_app Hv.
        - specialize (Hall d' Hd' Hv). cbv zeta in Hall. cbv zeta. lra.
        - apply Hsingle in Hd'. subst d'. fold e. cbv zeta. lra. }
      split.
      { destruct X3 as [-> | ->].
        - exists d. split; [apply elem_of_app; right; by left|done].
        - destruct Hleft as (d' & Hd' & Hv & Heq). exists d'.
          split; [apply elem_of_app; by left|done]. }
      destruct U3 as [-> | ->].
      * right. exists d. split; [apply elem_of_app; right; by left|done].
      * destruct Hright as [Heq|(d' & Hd' & Hv & Heq)]; [by left|].
        right. exists d'. split; [apply elem_of_app; by left|done].
Qed.

(** X6.  [calcClippedDrawTotalBounds] never marks a group as not in use.
    When no clipped drawable has a valid point (a vertex with x below
    [Number.MAX_VALUE]) the context is left exactly as it was, stale
    rectangle and flag included; otherwise the context becomes in use, and
    nothing but its rectangle and its flag is written. *)
Theorem calcClippedDrawTotalBounds_never_idle (model : CubismModel)
    (clippingContext : CubismClippingContext) :
  ((forall d, d ∈ _clippedDrawableIndexList clippingContext ->
              ~ hasValidPoint model d) /\
   calcClippedDrawTotalBounds model clippingContext = clippingContext) \/
  ((exists d, d ∈ _clippedDrawableIndexList clippingContext /\
              hasValidPoint model d) /\
   exists r,
     calcClippedDrawTotalBounds model clippingContext
     = setAllClippedDrawRect r true clippingContext).
Proof.
  unfold calcClippedDrawTotalBounds.
  destruct (calcClippedDrawTotalBounds_body_fold model clippingContext
              (_clippedDrawableIndexList clippingContext))
    as (_ & _ & [[Hnone Heq]|(Hsome & _ & Hcc & _)]).
  - left. split; [done|]. by rewrite Heq.
  - right. split; [done|]. eexists. exact Hcc.
Qed.

(** X7.  When some clipped drawable has a valid point, the left and the
    top edge of the rectangle that [calcClippedDrawTotalBounds] leaves are
    the least x and the least y of the loop, and the four totals of the
    loop enclose every point of every clipped drawable with a valid point.
    The least x is the x of one of these points; the greatest x is one
    only if that is positive: the running maximum starts at
    [Number.MIN_VALUE], the least positive number, so the two maxima,
    which the width and the height are then computed from, are never
    below it.  (Comparisons only: nothing here depends on how the
    subtraction rounds.) *)
Theorem calcClippedDrawTotalBounds_rectangle (model : CubismModel)
    (clippingContext : CubismClippingContext) :
  (exists d, d ∈ _clippedDrawableIndexList clippingContext /\
             hasValidPoint model d) ->
  let r := _allClippedDrawRect
             (calcClippedDrawTotalBounds model clippingContext) in
  let total := clippedDrawTotal model clippingContext in
  csmRect.x r = minX total /\ csmRect.y r = minY total /\
  (forall d, d ∈ _clippedDrawableIndexList clippingContext ->
     hasValidPoint model d ->
     (forall x, x ∈ xsOf model d ->
        (minX total <= x)%Q /\ (x <= maxX total)%Q) /\
     (forall y, y ∈ ysOf model d ->
        (minY total <= y)%Q /\ (y <= maxY total)%Q)) /\
  (exists d, d ∈ _clippedDrawableIndexList clippingContext /\
             minX total ∈ xsOf model d) /\
  (maxX total = Number_MIN_VALUE \/
   exists d, d ∈ _clippedDrawableIndexList clippingContext /\
             maxX total ∈ xsOf model d) /\
  (Number_MIN_VALUE <= maxX total)%Q /\
  (Number_MIN_VALUE <= maxY total)%Q.
Proof.
  intros Hex r total. unfold r, total, clippedDrawTotal,
    calcClippedDrawTotalBounds.
  destruct (calcClippedDrawTotalBounds_body_fold model clippingContext
              (_clippedDrawableIndexList clippingContext))
    as (HmaxX & HmaxY & [[Hnone _]|(_ & Hlt & -> & Hall & Hleft & Hright)]).
  { destruct Hex as (d & Hd & Hv). by destruct (Hnone d). }
  set (t := fst _) in *. simpl.
  split; [done|]. split; [done|].
  split; [|split; [|split; [|split; done]]].
  - intros d Hd Hv. destruct (Hall d Hd Hv) as (H1 & H2 & H3 & H4).
    destruct (drawableExtent_spec model d)
      as ((_ & Hx & _) & Hy & (_ & Hx' & _) & (_ & Hy')).
    split.
    + intros x Hin. specialize (Hx x Hin). specialize (Hx' x Hin). lra.
    + intros y Hin. specialize (Hy y Hin). specialize (Hy' y Hin). lra.
  - destruct Hleft as (d & Hd & Hv & ->). exists d. split; [done|].
    destruct (drawableExtent_spec model d) as ((_ & _ & [Heq|Hin]) & _);
      [|done].
    apply drawableExtent_valid in Hv. rewrite Heq in Hv.
    by rewrite (proj2 (Qeq_bool_iff _ _) (Qeq_refl _)) in Hv.
  - destruct Hright as [Heq|(d & Hd & Hv & Heq)]; [by left|].
    destruct (drawableExtent_spec model d)
      as (_ & _ & (_ & _ & [Hmin|Hin]) & _).
    + left. by rewrite Heq, Hmin.
    + right. exists d. split; [done|]. by rewrite Heq.
Qed.

Lemma calcClippedDrawTotalBounds_rectangle_witness :
  let r := _allClippedDrawRect
             (calcClippedDrawTotalBounds frameWithPoints oneDrawableContext) in
  let total := clippedDrawTotal frameWithPoints oneDrawableContext in
  csmRect.x r = minX total /\
  (forall x, x ∈ xsOf frameWithPoints 0 ->
     (minX total <= x)%Q /\ (x <= maxX total)%Q) /\
  (Number_MIN_VALUE <= maxX total)%Q.
Proof.
  assert (hasValidPoint frameWithPoints 0) as Hvalid.
  { exists 1%Q. split; [vm_compute; left|vm_compute; reflexivity]. }
  assert (0%nat ∈ _clippedDrawableIndexList oneDrawableContext) as Hin
    by (vm_compute; left).
  pose proof (calcClippedDrawTotalBounds_rectangle frameWithPoints
                oneDrawableContext
                (ex_intro _ 0%nat (conj Hin Hvalid))) as H.
  cbv zeta in H. destruct H as (Hx & _ & Hall & _ & _ & Hfloor & _).
  split; [exact Hx|]. split; [|exact Hfloor].
  exact (proj1 (Hall 0%nat Hin Hvalid)).
Defined.

(** ** setupClippingContext: what a frame keeps *)

Lemma sameGroup_calcClippedDrawTotalBounds (model : CubismModel)
    (cc : CubismClippingContext) :
  sameGroup cc (calcClippedDrawTotalBounds model cc) /\
  _layoutChannelNo (calcClippedDrawTotalBounds model cc) = _layoutChannelNo cc.
Proof.
  unfold calcClippedDrawTotalBounds.
  destruct (calcClippedDrawTotalBounds_body_fold model cc
              (_clippedDrawableIndexList cc))
    as (_ & _ & [[_ ->]|(_ & _ & -> & _)]); by repeat split.
Qed.

Lemma filter_length_le {A} (f : A -> bool) (l : list A) :
  (length (List.filter f l) <= length l)%nat.
Proof.
  induction l as [|x l IH]; simpl; [lia|]. destruct (f x); simpl; lia.
Qed.

(** The part of a frame that works on the contexts never throws: the
    count that it hands to [setupLayoutBounds] does not exceed the number
    of contexts.  It leaves the draw list, the number of contexts, and the
    ids and the clipped drawables of each context as they are, and
    [setupLayoutBounds] logs an error exactly when more than 36 groups are
    in use. *)
Lemma setupClippingContext_contexts_groups (model : CubismModel)
    (this : CubismClippingManager_WebGL) :
  exists this' log,
    setupClippingContext model this = Some (this', log) /\
    _clippingContextListForDraw this' = _clippingContextListForDraw this /\
    Forall2 sameGroup (_clippingContextListForMask this)
                      (_clippingContextListForMask this') /\
    (log = [] <-> (usingClipCountOf model this <= 36)%nat).
Proof.
  unfold setupClippingContext, usingClipCountOf.
  destruct (calcAllBounds_count model (_clippingContextListForMask this) 0)
    as [Hcount Hctx].
  destruct (calcAllBounds model (_clippingContextListForMask this) 0)
    as [contexts n].
  simpl in Hcount, Hctx. subst contexts.
  set (l := _clippingContextListForMask this) in *.
  assert (Forall2 sameGroup l (map (calcClippedDrawTotalBounds model) l))
    as Hcalc.
  { apply Forall2_same_length_lookup. split; [by rewrite length_map|].
    intros i x y Hx Hy. change (map ?f ?k) with (f <$> k) in Hy.
    rewrite list_lookup_fmap, Hx in Hy. injection Hy as <-.
    apply sameGroup_calcClippedDrawTotalBounds. }
  destruct (Nat.ltb_spec 0 n) as [Hpos|Hzero].
  - destruct (setupLayoutBounds_returns n
                (map (calcClippedDrawTotalBounds model) l))
      as (st & -> & Hf & Hl & _).
    { rewrite Hcount. apply filter_length_le. }
    simpl. eexists _, _. split; [done|]. simpl. split; [done|]. split.
    + apply Forall2_same_length_lookup. split.
      * rewrite length_map, <- (Forall2_length _ _ _ Hf).
        by rewrite length_map.
      * intros i x y Hx Hy.
        change (map ?f ?k) with (f <$> k) in Hy.
        rewrite list_lookup_fmap in Hy.
        destruct (layoutContexts st !! i) as [y2|] eqn:Hy2; [|done].
        injection Hy as <-.
        destruct (Forall2_lookup_r _ _ _ _ _ Hf Hy2)
          as (y1 & Hy1 & _ & G2 & G3 & _ & _ & _ & G7).
        pose proof (Forall2_lookup_lr _ _ _ _ _ _ Hcalc Hx Hy1)
          as (K1 & K2 & K3).
        repeat split; simpl; congruence.
    + rewrite Hl, Hcount. apply overflowLog_nil_iff.
  - eexists _, _. split; [done|]. simpl. split; [done|]. split; [done|].
    split; [lia|done].
Qed.

(** ** setupLayoutBounds: the tiles do not overlap *)

Lemma disjointRectsb_true (r1 r2 : csmRect.t) :
  disjointRectsb r1 r2 = true -> disjointRects r1 r2.
Proof.
  unfold disjointRectsb, disjointRects. rewrite !orb_true_iff.
  rewrite !Qle_bool_iff. tauto.
Qed.

Lemma insideUnitSquareb_true (r : csmRect.t) :
  insideUnitSquareb r = true -> insideUnitSquare r.
Proof.
  unfold insideUnitSquareb, insideUnitSquare. rewrite !andb_true_iff.
  rewrite !Qle_bool_iff, !Qltb_true. tauto.
Qed.

(** The tiles of a channel with up to nine groups, by exhaustion. *)
Lemma branchBounds_tiles (k i j : nat) :
  (k <= 9)%nat -> (i < k)%nat -> (j < k)%nat ->
  insideUnitSquare (branchBounds k i) /\
  (i <> j -> disjointRects (branchBounds k i) (branchBounds k j)).
Proof.
  intros Hk Hi Hj.
  assert (forallb (fun k =>
            forallb (fun i =>
              insideUnitSquareb (branchBounds k i) &&
              forallb (fun j =>
                (i =? j)%nat ||
                disjointRectsb (branchBounds k i) (branchBounds k j))
                (seq 0 k))
              (seq 0 k))
            (seq 0 10) = true) as Hall by (vm_compute; reflexivity).
  rewrite forallb_forall in Hall.
  specialize (Hall k ltac:(apply in_seq; lia)).
  rewrite forallb_forall in Hall.
  specialize (Hall i ltac:(apply in_seq; lia)).
  apply andb_true_iff in Hall as [Hin Hall].
  rewrite forallb_forall in Hall.
  specialize (Hall j ltac:(apply in_seq; lia)).
  split; [by apply insideUnitSquareb_true|].
  intros Hne. apply orb_true_iff in Hall as [Heq|Hdis].
  - apply Nat.eqb_eq in Heq. lia.
  - by apply disjointRectsb_true.
Qed.

(** Each position below the count is the [i]-th group of one channel. *)
Lemma position_channel (div mod_ p : nat) :
  (p < countsFrom div mod_ 0 4)%nat ->
  exists c i, (c < 4)%nat /\
              (i < div + (if c <? mod_ then 1 else 0))%nat /\
              p = (countsFrom div mod_ 0 c + i)%nat.
Proof.
  unfold countsFrom. simpl. intros Hp.
  set (k0 := (div + (if 0 <? mod_ then 1 else 0))%nat) in *.
  set (k1 := (div + (if 1 <? mod_ then 1 else 0))%nat) in *.
  set (k2 := (div + (if 2 <? mod_ then 1 else 0))%nat) in *.
  set (k3 := (div + (if 3 <? mod_ then 1 else 0))%nat) in *.
  destruct (decide (p < k0)%nat).
  { exists 0%nat, p. simpl. fold k0. lia. }
  destruct (decide (p < k0 + k1)%nat).
  { exists 1%nat, (p - k0)%nat. simpl. fold k0 k1. lia. }
  destruct (decide (p < k0 + k1 + k2)%nat).
  { exists 2%nat, (p - k0 - k1)%nat. simpl. fold k0 k1 k2. lia. }
  exists 3%nat, (p - k0 - k1 - k2)%nat. simpl. fold k0 k1 k2 k3. lia.
Qed.

Lemma countsFrom_split (div mod_ c c' : nat) :
  (c <= c')%nat ->
  countsFrom div mod_ 0 c'
  = (countsFrom div mod_ 0 c + countsFrom div mod_ c c')%nat.
Proof.
  intros Hle. unfold countsFrom. rewrite !Nat.sub_0_r.
  replace c' with (c + (c' - c))%nat at 1 by lia.
  by rewrite seq_app, map_app, list_sum_app.
Qed.

(** Up to 36 groups: group [i] of channel [c] is the context at the
    position that the counts of the channels before give. *)
Lemma setupLayoutBounds_placed_all (n : nat)
    (contexts : list CubismClippingContext) :
  let div := (n / ColorChannelCount)%nat in
  let mod_ := (n mod ColorChannelCount)%nat in
  (n <= 36)%nat -> (n <= length contexts)%nat ->
  exists st,
    setupLayoutBounds n contexts = Some st /\
    layoutLog st = [] /\
    length (layoutContexts st) = length contexts /\
    (forall p, (n <= p)%nat -> layoutContexts st !! p = contexts !! p) /\
    (forall c i, (c < 4)%nat ->
       (i < div + (if c <? mod_ then 1 else 0))%nat ->
       (div + (if c <? mod_ then 1 else 0) <= 9)%nat /\
       (countsFrom div mod_ 0 c + i < n)%nat /\
       layoutContexts st !! (countsFrom div mod_ 0 c + i)%nat
       = setLayout c (branchBounds (div + (if c <? mod_ then 1 else 0)) i)
           <$> contexts !! (countsFrom div mod_ 0 c + i)%nat).
Proof.
  intros div mod_ Hle Hlen.
  pose proof (countsFrom_total n) as Htotal. fold div mod_ in Htotal.
  assert (forall c, (c < 4)%nat ->
            (div + (if c <? mod_ then 1 else 0) <= 9)%nat) as Hnine.
  { intros c Hc. unfold div, mod_, ColorChannelCount.
    pose proof (Nat.div_mod_eq n 4) as Hn.
    pose proof (Nat.mod_upper_bound n 4 ltac:(lia)) as Hr.
    destruct (c <? n mod 4)%nat eqn:Hcmp; [|lia].
    apply Nat.ltb_lt in Hcmp. lia. }
  destruct (setupLayoutBounds_channels_placed div mod_ 4 0
              (mkLayoutState contexts 0 []))
    as (st & Hrun & _ & Hlog & Hlength & Hset & Hkeep).
  { intros c Hc. apply Hnine. lia. }
  { cbn [curClipIndex layoutContexts]. change (0 + 4)%nat with 4%nat.
    rewrite Htotal. lia. }
  cbn [curClipIndex layoutContexts layoutLog] in *.
  change (0 + 4)%nat with 4%nat in Hkeep. rewrite Htotal in Hkeep.
  exists st. split; [exact Hrun|]. split; [done|]. split; [done|].
  split; [intros p Hp; apply Hkeep; lia|].
  intros c i Hc Hi. split; [by apply Hnine|]. split.
  - rewrite <- Htotal.
    rewrite (countsFrom_split div mod_ c 4) by lia.
    rewrite (countsFrom_S div mod_ c 4) by lia. lia.
  - apply (Hset c i); [lia|done].
Qed.

(** Up to 36 groups: what each of the first [n] contexts gets. *)
Lemma setupLayoutBounds_slots (n : nat)
    (contexts : list CubismClippingContext) :
  (n <= 36)%nat -> (n <= length contexts)%nat ->
  exists st,
    setupLayoutBounds n contexts = Some st /\
    layoutLog st = [] /\
    length (layoutContexts st) = length contexts /\
    (forall p, (n <= p)%nat -> layoutContexts st !! p = contexts !! p) /\
    forall p cp, (p < n)%nat -> layoutContexts st !! p = Some cp ->
      exists c i cc k,
        (c < 4)%nat /\ (k <= 9)%nat /\ (i < k)%nat /\
        contexts !! p = Some cc /\
        cp = setLayout c (branchBounds k i) cc /\
        k = (n / ColorChannelCount
             + (if c <? n mod ColorChannelCount then 1 else 0))%nat /\
        p = (countsFrom (n / ColorChannelCount) (n mod ColorChannelCount) 0 c
             + i)%nat.
Proof.
  intros Hle Hlen.
  destruct (setupLayoutBounds_placed_all n contexts Hle Hlen)
    as (st & Hrun & Hlog & Hlength & Hkeep & Hset).
  exists st. split; [exact Hrun|]. split; [done|]. split; [done|].
  split; [done|].
  intros p cp Hp Hcp.
  destruct (position_channel (n / ColorChannelCount)
              (n mod ColorChannelCount) p) as (c & i & Hc & Hi & ->).
  { by rewrite countsFrom_total. }
  destruct (Hset c i Hc Hi) as (Hk & _ & Hl).
  rewrite Hl in Hcp.
  destruct (contexts !! _) as [cc|] eqn:Hcc; [|done].
  injection Hcp as <-.
  exists c, i, cc, (n / ColorChannelCount
                    + (if c <? n mod ColorChannelCount then 1 else 0))%nat.
  done.
Qed.

(** X9.  For up to 36 groups no two groups get the same place on the mask
    texture: after [setupLayoutBounds(n)] each of the first [n] contexts has
    one of the four channels and a rectangle of positive size inside the
    unit square, and two of them on the same channel have rectangles that
    do not overlap. *)
Theorem setupLayoutBounds_no_overlap (n : nat)
    (contexts : list CubismClippingContext) :
  (n <= 36)%nat -> (n <= length contexts)%nat ->
  exists st,
    setupLayoutBounds n contexts = Some st /\
    (forall p cp, (p < n)%nat -> layoutContexts st !! p = Some cp ->
       (exists c, _layoutChannelNo cp = Some c /\ (c < ColorChannelCount)%nat) /\
       insideUnitSquare (_layoutBounds cp)) /\
    (forall p q cp cq, (p < n)%nat -> (q < n)%nat -> p <> q ->
       layoutContexts st !! p = Some cp -> layoutContexts st !! q = Some cq ->
       _layoutChannelNo cp <> _layoutChannelNo cq \/
       disjointRects (_layoutBounds cp) (_layoutBounds cq)).
Proof.
  intros Hle Hlen.
  destruct (setupLayoutBounds_slots n contexts Hle Hlen)
    as (st & Hrun & _ & _ & _ & Hat).
  exists st. split; [exact Hrun|]. split.
  - intros p cp Hp Hcp.
    destruct (Hat p cp Hp Hcp)
      as (c & i & cc & k & Hc & Hk & Hi & _ & -> & _).
    simpl. split; [exists c; split; [done|unfold ColorChannelCount; lia]|].
    by apply (branchBounds_tiles k i i).
  - intros p q cp cq Hp Hq Hne Hcp Hcq.
    destruct (Hat p cp Hp Hcp)
      as (c & i & cc & k & Hc & Hk & Hi & _ & -> & -> & ->).
    destruct (Hat q cq Hq Hcq)
      as (c' & i' & cc' & k' & Hc' & Hk' & Hi' & _ & -> & -> & ->).
    simpl. destruct (decide (c = c')) as [<-|Hch].
    + right. apply branchBounds_tiles; [done|done|done|].
      intros ->. lia.
    + left. congruence.
Qed.

Lemma setupLayoutBounds_no_overlap_witness :
  let contexts := replicate 5 (CubismClippingContext_new [1%Z] 1) in
  exists st,
    setupLayoutBounds 5 contexts = Some st /\
    (forall p cp, (p < 5)%nat -> layoutContexts st !! p = Some cp ->
       (exists c, _layoutChannelNo cp = Some c /\ (c < ColorChannelCount)%nat) /\
       insideUnitSquare (_layoutBounds cp)) /\
    (forall p q cp cq, (p < 5)%nat -> (q < 5)%nat -> p <> q ->
       layoutContexts st !! p = Some cp -> layoutContexts st !! q = Some cq ->
       _layoutChannelNo cp <> _layoutChannelNo cq \/
       disjointRects (_layoutBounds cp) (_layoutBounds cq)).
Proof.
  intros contexts.
  apply (setupLayoutBounds_no_overlap 5 contexts); [lia|].
  vm_compute. lia.
Defined.

(** ** loadShaderProgram: what a failed build leaves behind *)

(** The run of [loadShaderProgram], case by case. *)
Lemma loadShaderProgram_run (gl : WebGLRenderingContext)
    (vs fs : ShaderSource) (w : World) :
  let program := S (glObjects w) in
  let vert := S (S (glObjects w)) in
  let frag := S (S (S (glObjects w))) in
  loadShaderProgram gl vs fs w =
  if COMPILE_STATUS gl VERTEX_SHADER vs then
    if COMPILE_STATUS gl FRAGMENT_SHADER fs then
      if LINK_STATUS gl vs fs then
        Some (program,
              mkWorld (glCalls w ++
                       [gl_createProgram program;
                        gl_createShader VERTEX_SHADER vert;
                        gl_shaderSource vert vs; gl_compileShader vert;
                        gl_createShader FRAGMENT_SHADER frag;
                        gl_shaderSource frag fs; gl_compileShader frag;
                        gl_attachShader program vert;
                        gl_attachShader program frag;
                        gl_linkProgram program;
                        gl_deleteShader vert; gl_deleteShader frag])
                      frag (errorLog w))
      else
        Some (0%nat,
              mkWorld (glCalls w ++
                       [gl_createProgram program;
                        gl_createShader VERTEX_SHADER vert;
                        gl_shaderSource vert vs; gl_compileShader vert;
                        gl_createShader FRAGMENT_SHADER frag;
                        gl_shaderSource frag fs; gl_compileShader frag;
                        gl_attachShader program vert;
                        gl_attachShader program frag;
                        gl_linkProgram program;
                        gl_deleteShader vert; gl_deleteShader frag;
                        gl_deleteProgram program])
                      frag
                      (errorLog w ++
                       [CubismLogError "Failed to link program: {0}"
                                       [Z.of_nat program]]))
    else
      Some (0%nat,
            mkWorld (glCalls w ++
                     [gl_createProgram program;
                      gl_createShader VERTEX_SHADER vert;
                      gl_shaderSource vert vs; gl_compileShader vert;
                      gl_createShader FRAGMENT_SHADER frag;
                      gl_shaderSource frag fs; gl_compileShader frag;
                      gl_deleteShader frag])
                    frag
                    (errorLog w ++
                     [CubismLogError "Vertex shader compile error!" []]))
  else
    Some (0%nat,
          mkWorld (glCalls w ++
                   [gl_createProgram program;
                    gl_createShader VERTEX_SHADER vert;
                    gl_shaderSource vert vs; gl_compileShader vert;
                    gl_deleteShader vert])
                  vert
                  (errorLog w ++
                   [CubismLogError "Vertex shader compile error!" []])).
Proof.
  unfold loadShaderProgram, compileShaderSource, bind, create, call,
    logError, ret.
  cbn [glCalls glObjects errorLog].
  destruct (COMPILE_STATUS gl VERTEX_SHADER vs);
    cbn [negb glCalls glObjects errorLog];
    [destruct (COMPILE_STATUS gl FRAGMENT_SHADER fs);
     cbn [negb glCalls glObjects errorLog];
     [destruct (LINK_STATUS gl vs fs);
      cbn [negb glCalls glObjects errorLog]|]|];
    rewrite <- !app_assoc; reflexivity.
Qed.

Ltac in_trace :=
  rewrite ?elem_of_cons; repeat (first [left; reflexivity | right]).

Ltac not_in_trace :=
  let H := fresh "H" in
  rewrite ?elem_of_cons, ?elem_of_nil; intros H;
  repeat (destruct H as [H|H]);
  try discriminate H; try (injection H; lia); try exact H.

Ltac shaders_deleted :=
  let t := fresh "t" in
  let s := fresh "s" in
  let H := fresh "H" in
  intros t s; rewrite ?elem_of_cons, ?elem_of_nil; intros H;
  repeat (destruct H as [H|H]);
  try discriminate H; try (exfalso; exact H);
  injection H as -> ->; in_trace.

(** X10.  [loadShaderProgram] always returns, and returns the zero handle
    exactly when a shader does not compile or the program does not link.
    On success the handle is the program created at the start, nothing is
    logged, both shaders are deleted and the program is kept.  When a shader
    does not compile, the program object created at the start is never
    deleted, although the caller only gets the zero handle; when it is the
    fragment shader that fails, the compiled vertex shader is not deleted
    either.  Only a link failure releases all it created. *)
Theorem loadShaderProgram_leaks (gl : WebGLRenderingContext)
    (vs fs : ShaderSource) (w : World) :
  exists p w' cs,
    loadShaderProgram gl vs fs w = Some (p, w') /\
    glCalls w' = glCalls w ++ cs /\
    let program := S (glObjects w) in
    let vert := S (S (glObjects w)) in
    gl_createProgram program ∈ cs /\
    (p = 0%nat <-> buildFails gl vs fs) /\
    (p <> 0%nat ->
     p = program /\ errorLog w' = errorLog w /\
     (gl_deleteProgram program ∉ cs) /\
     (forall t s, gl_createShader t s ∈ cs -> gl_deleteShader s ∈ cs)) /\
    (COMPILE_STATUS gl VERTEX_SHADER vs = false \/
     COMPILE_STATUS gl FRAGMENT_SHADER fs = false ->
     gl_deleteProgram program ∉ cs) /\
    (COMPILE_STATUS gl VERTEX_SHADER vs = true ->
     COMPILE_STATUS gl FRAGMENT_SHADER fs = false ->
     gl_createShader VERTEX_SHADER vert ∈ cs /\ gl_deleteShader vert ∉ cs) /\
    (COMPILE_STATUS gl VERTEX_SHADER vs = true ->
     COMPILE_STATUS gl FRAGMENT_SHADER fs = true ->
     LINK_STATUS gl vs fs = false ->
     gl_deleteProgram program ∈ cs /\
     (forall t s, gl_createShader t s ∈ cs -> gl_deleteShader s ∈ cs)).
Proof.
  pose proof (loadShaderProgram_run gl vs fs w) as Hrun. cbv zeta in Hrun.
  unfold buildFails.
  destruct (COMPILE_STATUS gl VERTEX_SHADER vs);
    [destruct (COMPILE_STATUS gl FRAGMENT_SHADER fs);
     [destruct (LINK_STATUS gl vs fs)|]|];
    (eexists _, _, _; split; [exact Hrun|]; split; [reflexivity|]);
    cbv zeta; cbn [errorLog].
  - split; [in_trace|]. split; [split; [lia|intros [?|[?|?]]; discriminate]|].
    split.
    { intros _. split; [done|]. split; [done|].
      split; [not_in_trace|shaders_deleted]. }
    split; [intros [?|?]; discriminate|]. split; [discriminate|].
    discriminate.
  - split; [in_trace|]. split; [split; [auto|done]|].
    split; [done|]. split; [intros [?|?]; discriminate|].
    split; [discriminate|]. intros _ _ _. split; [in_trace|shaders_deleted].
  - split; [in_trace|]. split; [split; [auto|done]|].
    split; [done|]. split; [intros _; not_in_trace|].
    split; [|discriminate]. intros _ _. split; [in_trace|not_in_trace].
  - split; [in_trace|]. split; [split; [auto|done]|].
    split; [done|]. split; [intros _; not_in_trace|].
    split; discriminate.
Qed.

(** ** generateShaders: the ten programs *)

Lemma loadShaderProgram_handle (gl : WebGLRenderingContext)
    (vs fs : ShaderSource) (w : World) :
  exists p w',
    loadShaderProgram gl vs fs w = Some (p, w') /\
    (glObjects w < glObjects w')%nat /\
    (p = 0%nat <-> buildFails gl vs fs) /\
    (p <> 0%nat -> (glObjects w < p <= glObjects w')%nat).
Proof.
  pose proof (loadShaderProgram_run gl vs fs w) as Hrun. cbv zeta in Hrun.
  unfold buildFails.
  destruct (COMPILE_STATUS gl VERTEX_SHADER vs);
    [destruct (COMPILE_STATUS gl FRAGMENT_SHADER fs);
     [destruct (LINK_STATUS gl vs fs)|]|];
    (eexists _, _; split; [exact Hrun|]); cbn [glObjects];
    (split; [lia|]); (split; [|lia]); split; try lia; auto;
    intros [?|[?|?]]; discriminate.
Qed.

Lemma generateShader_inv (gl : WebGLRenderingContext) (name : ShaderNames)
    (w : World) (s : CubismShaderSet) (w' : World) :
  generateShader gl name w = Some (s, w') ->
  loadShaderProgram gl (shaderSources name).1 (shaderSources name).2 w
  = Some (shaderProgram s, w') /\
  locationsOf name s.
Proof.
  destruct name; unfold generateShader;
    intros (p & w1 & Hload & [= <- <-])%bind_Some; simpl;
    (split; [exact Hload|]); by repeat split.
Qed.

Lemma generateShader_returns (gl : WebGLRenderingContext)
    (name : ShaderNames) (w : World) :
  exists s w', generateShader gl name w = Some (s, w').
Proof.
  destruct (loadShaderProgram_handle gl (shaderSources name).1
              (shaderSources name).2 w) as (p & w' & Hload & _).
  destruct name; simpl in Hload; unfold generateShader, bind;
    cbn [isInvertedShader]; rewrite Hload; eauto.
Qed.

(** The entries that the [reduce] adds: one per variant, each with the
    locations of its variant, a zero program exactly for a failed build,
    and fresh, increasing handles otherwise. *)
Lemma generateShaders_reduce_inv (gl : WebGLRenderingContext)
    (indices : list ShaderNames) (acc : list CubismShaderSet) (w : World) :
  exists new w',
    generateShaders_reduce gl indices acc w = Some (acc ++ new, w') /\
    (glObjects w <= glObjects w')%nat /\
    length new = length indices /\
    (forall i name s, indices !! i = Some name -> new !! i = Some s ->
       locationsOf name s /\
       (shaderProgram s = 0%nat <->
        buildFails gl (shaderSources name).1 (shaderSources name).2) /\
       (shaderProgram s <> 0%nat ->
        (glObjects w < shaderProgram s <= glObjects w')%nat)) /\
    (forall i j si sj, (i < j)%nat ->
       new !! i = Some si -> new !! j = Some sj ->
       shaderProgram si <> 0%nat -> shaderProgram sj <> 0%nat ->
       (shaderProgram si < shaderProgram sj)%nat).
Proof.
  revert acc w. induction indices as [|name rest IH]; intros acc w.
  - exists [], w. simpl. rewrite app_nil_r. split; [done|]. split; [lia|].
    split; [done|]. split; intros; by rewrite lookup_nil in *.
  - destruct (generateShader_returns gl name w) as (s & w1 & Hs).
    destruct (generateShader_inv _ _ _ _ _ Hs) as [Hload Hloc].
    destruct (loadShaderProgram_handle gl (shaderSources name).1
                (shaderSources name).2 w) as (p & w1' & Hload' & Hlt & Hzero & Hin).
    rewrite Hload in Hload'. injection Hload' as <- <-.
    destruct (IH (acc ++ [s]) w1) as (new & w' & Hrun & Hle & Hlen & Hall & Hinc).
    exists (s :: new), w'. cbn [generateShaders_reduce]. unfold bind at 1.
    rewrite Hs, Hrun, <- app_assoc. split; [done|]. split; [lia|].
    split; [simpl; lia|]. split.
    + intros [|i] name' s' Hi Hl; simpl in Hi, Hl.
      * injection Hi as <-. injection Hl as <-.
        split; [done|]. split; [done|]. intros Hne. specialize (Hin Hne). lia.
      * destruct (Hall i name' s' Hi Hl) as (H1 & H2 & H3).
        split; [done|]. split; [done|]. intros Hne. specialize (H3 Hne). lia.
    + intros [|i] [|j] si sj Hij Hi Hj Hsi Hsj; simpl in Hi, Hj; try lia.
      * injection Hi as <-. specialize (Hin Hsi).
        assert (exists name', rest !! j = Some name') as [name' Hname].
        { apply lookup_lt_is_Some_2. rewrite <- Hlen.
          by apply lookup_lt_Some in Hj. }
        destruct (Hall j name' sj Hname Hj) as (_ & _ & H3).
        specialize (H3 Hsj). lia.
      * apply (Hinc i j); try done. lia.
Qed.

(** X11.  [generateShaders] always returns ten entries, one per member of
    [ShaderNames] at the member's number.  The program of an entry is the
    zero handle exactly when the build of that variant fails; the programs
    that were built are fresh and pairwise different, also for variants
    built from the same pair of sources; and the locations of an entry are
    those of its own program. *)
Theorem generateShaders_programs (gl : WebGLRenderingContext) (w : World) :
  exists shaderSets w',
    generateShaders gl w = Some (shaderSets, w') /\
    length shaderSets = length ShaderNames_members /\
    (forall name, exists s,
       shaderSets !! ShaderNames_number name = Some s /\
       locationsOf name s /\
       (shaderProgram s = 0%nat <->
        buildFails gl (shaderSources name).1 (shaderSources name).2) /\
       (shaderProgram s <> 0%nat -> (glObjects w < shaderProgram s)%nat)) /\
    (forall i j si sj, i <> j ->
       shaderSets !! i = Some si -> shaderSets !! j = Some sj ->
       shaderProgram si <> 0%nat -> shaderProgram si <> shaderProgram sj).
Proof.
  destruct (generateShaders_reduce_inv gl ShaderNames_members [] w)
    as (sets & w' & Hrun & _ & Hlen & Hall & Hinc).
  simpl in Hrun. exists sets, w'. split; [exact Hrun|]. split; [done|]. split.
  - intros name.
    destruct (lookup_lt_is_Some_2 sets (ShaderNames_number name)) as [s Hs].
    { rewrite Hlen. apply (lookup_lt_Some _ _ name).
      apply ShaderNames_members_lookup. }
    exists s. split; [done|].
    destruct (Hall _ name s (ShaderNames_members_lookup name) Hs)
      as (H1 & H2 & H3).
    split; [done|]. split; [done|]. intros Hne. specialize (H3 Hne). lia.
  - intros i j si sj Hij Hi Hj Hsi Heq.
    assert (shaderProgram sj <> 0%nat) as Hsj by congruence.
    destruct (decide (i < j)%nat).
    + pose proof (Hinc i j si sj ltac:(lia) Hi Hj Hsi Hsj). lia.
    + pose proof (Hinc j i sj si ltac:(lia) Hj Hi Hsj Hsi). lia.
Qed.

(** ** The calls of a draw *)

Section Emitting.
Context {A B : Type} (P : GLcall -> Prop).

Lemma Emits_ret (a : A) : Emits P (ret a).
Proof. intros w a' w' [= <- <-]. exists []. by rewrite app_nil_r. Qed.

Lemma Emits_throw : Emits P (@throw A).
Proof. intros w a w' H. discriminate H. Qed.

Lemma Emits_bind (m : GL A) (f : A -> GL B) :
  Emits P m -> (forall a, Emits P (f a)) -> Emits P (bind m f).
Proof.
  intros Hm Hf w b w' (a & w1 & H1 & H2)%bind_Some.
  destruct (Hm _ _ _ H1) as (cs1 & E1 & HP1).
  destruct (Hf a _ _ _ H2) as (cs2 & E2 & HP2).
  exists (cs1 ++ cs2). rewrite E2, E1, app_assoc. split; [done|].
  by apply Forall_app.
Qed.
End Emitting.

Lemma Emits_call (P : GLcall -> Prop) (c : GLcall) : P c -> Emits P (call c).
Proof.
  intros HP w a w' [= <- <-]. exists [c]. split; [done|]. by constructor.
Qed.

Lemma Emits_create (P : GLcall -> Prop) (c : WebGLObject -> GLcall) :
  (forall o, P (c o)) -> Emits P (create c).
Proof.
  intros HP w a w' [= <- <-]. eexists [_]. split; [done|]. by constructor.
Qed.

Lemma Emits_logError (P : GLcall -> Prop) (format : string) (args : list Z) :
  Emits P (logError format args).
Proof. intros w a w' [= <- <-]. exists []. by rewrite app_nil_r. Qed.

Ltac emits_step tac :=
  lazymatch goal with
  | |- Emits _ (ret _) => apply Emits_ret
  | |- Emits _ throw => apply Emits_throw
  | |- Emits _ (logError _ _) => apply Emits_logError
  | |- Emits _ (call _) => apply Emits_call; tac
  | |- Emits _ (create _) => apply Emits_create; intro; tac
  | |- Emits _ (bind _ _) => apply Emits_bind; [|intro]
  | |- Emits _ (match ?x with _ => _ end) => destruct x eqn:?
  | |- Emits _ (let _ := _ in _) => cbv zeta
  end.

Ltac emits_steps tac := repeat (emits_step tac).

(** Building the shaders issues build calls only. *)
Lemma Emits_loadShaderProgram (P : GLcall -> Prop)
    (gl : WebGLRenderingContext) (vs fs : ShaderSource) :
  (forall c, isBuildCall c -> P c) ->
  Emits P (loadShaderProgram gl vs fs).
Proof.
  intros HP. unfold loadShaderProgram, compileShaderSource.
  emits_steps ltac:(apply HP; exact I).
Qed.

Lemma Emits_generateShaders_reduce (P : GLcall -> Prop)
    (gl : WebGLRenderingContext) (indices : list ShaderNames)
    (acc : list CubismShaderSet) :
  (forall c, isBuildCall c -> P c) ->
  Emits P (generateShaders_reduce gl indices acc).
Proof.
  intros HP. revert acc.
  induction indices as [|name rest IH]; intros acc; simpl.
  - apply Emits_ret.
  - apply Emits_bind; [|intro; apply IH].
    destruct name; unfold generateShader;
      (apply Emits_bind;
       [by apply Emits_loadShaderProgram|intro; apply Emits_ret]).
Qed.

(** What [setupShaderProgram] returns: the instance with its shader sets,
    and the three buffers; what was there is kept. *)
Lemma setupShaderProgram_result gl this renderer textureId vertexCount
    vertexArray indexArray uvArray bufferData opacity colorBlendMode
    baseColor isPremultipliedAlpha matrix4x4 invertedMask w r w' :
  setupShaderProgram gl this renderer textureId vertexCount
    vertexArray indexArray uvArray bufferData opacity colorBlendMode
    baseColor isPremultipliedAlpha matrix4x4 invertedMask w = Some (r, w') ->
  exists shaderSets v u i,
    r = (mkShader (Some shaderSets),
         mkBufferData (Some v) (Some u) (Some i)) /\
    (forall s, _shaderSets this = Some s -> shaderSets = s) /\
    (forall b, vertex bufferData = Some b -> v = b) /\
    (forall b, uv bufferData = Some b -> u = b) /\
    (forall b, index bufferData = Some b -> i = b).
Proof.
  unfold setupShaderProgram. intros H.
  apply bind_Some in H as (? & w1 & _ & H).
  apply bind_Some in H as (shaderSets & w2 & Hsets & H).
  destruct (shaderContent shaderSets _ _ invertedMask colorBlendMode)
    as [[shaderSet|] [[[srcColor dstColor] srcAlpha] dstAlpha]]; [|done].
  assert (forall (buffer : option WebGLObject) b wa wb,
            ensureBuffer buffer wa = Some (b, wb) ->
            forall b', buffer = Some b' -> b = b') as Hensure.
  { intros buffer b wa wb Hbuf b' ->. simpl in Hbuf.
    by injection Hbuf as <- _. }
  repeat
    match type of H with
    | bind (call _) _ _ = Some _ =>
        apply bind_Some in H as (? & ? & _ & H)
    | bind (ensureBuffer ?x) _ _ = Some _ =>
        let Hb := fresh "Hb" in
        apply bind_Some in H as (? & ? & Hb & H);
        pose proof (Hensure _ _ _ _ Hb); clear Hb
    end.
  apply bind_Some in H as (? & w3 & _ & [= <- <-]).
  eexists _, _, _, _. split; [reflexivity|].
  split; [|by repeat split].
  intros s Hs. rewrite Hs in Hsets. by injection Hsets as ->.
Qed.

(** X12.  The shader programs and the three buffers are created once.
    After a draw that returned, every later draw with the shader instance
    and the buffers that it left creates no GL object, whatever it draws,
    and leaves the same instance and the same buffers. *)
Theorem drawMesh_creates_once gl s_instance this textureNo indexCount
    vertexCount indexArray vertexArray uvArray opacity colorBlendMode
    invertedMask w s' this' w' :
  drawMesh gl s_instance this textureNo indexCount vertexCount
    indexArray vertexArray uvArray opacity colorBlendMode invertedMask w
    = Some ((s', this'), w') ->
  forall next textureNo2 indexCount2 vertexCount2 indexArray2 vertexArray2
         uvArray2 opacity2 colorBlendMode2 invertedMask2,
    _bufferData next = _bufferData this' ->
    Emits createsNothing
      (drawMesh gl s' next textureNo2 indexCount2 vertexCount2
         indexArray2 vertexArray2 uvArray2 opacity2 colorBlendMode2
         invertedMask2) /\
    forall w2 r w2',
      drawMesh gl s' next textureNo2 indexCount2 vertexCount2
        indexArray2 vertexArray2 uvArray2 opacity2 colorBlendMode2
        invertedMask2 w2 = Some (r, w2') ->
      fst r = s' /\ _bufferData (snd r) = _bufferData this'.
Proof.
  unfold drawMesh at 1. intros H.
  apply bind_Some in H as (? & ? & _ & H).
  apply bind_Some in H as (? & ? & _ & H). cbv zeta in H.
  apply bind_Some in H as (r0 & ? & Hsetup & H).
  apply bind_Some in H as (? & ? & _ & H).
  apply bind_Some in H as (? & ? & _ & H).
  injection H as <- <- _.
  destruct (setupShaderProgram_result _ _ _ _ _ _ _ _ _ _ _ _ _ _ _ _ _ _
              Hsetup) as (shaderSets & v & u & i & -> & _).
  cbn [fst snd _bufferData].
  intros next textureNo2 indexCount2 vertexCount2 indexArray2 vertexArray2
    uvArray2 opacity2 colorBlendMode2 invertedMask2 Hbuf.
  split.
  - unfold drawMesh, setupShaderProgram, getInstance,
      setupUniformChannelFlagLocation, setupUniformClipMatrixLocation.
    rewrite Hbuf. cbn [_shaderSets vertex uv index ensureBuffer].
    emits_steps ltac:(exact I).
  - intros w2 r w2' H. unfold drawMesh in H.
    apply bind_Some in H as (? & ? & _ & H).
    apply bind_Some in H as (? & ? & _ & H). cbv zeta in H.
    apply bind_Some in H as (r2 & ? & Hsetup2 & H).
    apply bind_Some in H as (? & ? & _ & H).
    apply bind_Some in H as (? & ? & _ & H).
    injection H as <- _.
    destruct (setupShaderProgram_result _ _ _ _ _ _ _ _ _ _ _ _ _ _ _ _ _ _
                Hsetup2) as (sets2 & v2 & u2 & i2 & -> & Hs & Hv & Hu & Hi).
    cbn [fst snd _bufferData]. rewrite Hbuf in Hv, Hu, Hi.
    rewrite (Hs shaderSets eq_refl), (Hv v eq_refl), (Hu u eq_refl),
      (Hi i eq_refl).
    done.
Qed.

Lemma drawMesh_creates_once_witness :
  match drawMesh glBuildsAll None plainRenderer 0 3 3 [] [] [] 1
          CubismBlendMode_Normal false emptyWorld with
  | Some ((s', this'), _) =>
      Emits createsNothing
        (drawMesh glBuildsAll s' this' 0 6 4 [] [] [] 1
           CubismBlendMode_Additive false)
  | None => False
  end.
Proof.
  destruct (drawMesh glBuildsAll None plainRenderer 0 3 3 [] [] [] 1
              CubismBlendMode_Normal false emptyWorld)
    as [[[s' this'] w']|] eqn:H; [|vm_compute in H; discriminate H].
  exact (proj1 (drawMesh_creates_once _ _ _ _ _ _ _ _ _ _ _ _ _ _ _ _ H
                  this' 0%Z 6%Z 4%Z [] [] [] 1%Q CubismBlendMode_Additive
                  false eq_refl)).
Defined.

(** ** setupShaderProgram: the locations it uses *)

Lemma selectedShader_kind (renderer : CubismRenderer_WebGL)
    (colorBlendMode : CubismBlendMode) (invertedMask : bool) :
  let name := selectedShader renderer colorBlendMode invertedMask in
  bool_decide (name = SetupMask)
  = bool_decide (is_Some (_clippingContextBufferForMask renderer)) /\
  isMaskedShader name
  = negb (bool_decide (is_Some (_clippingContextBufferForMask renderer))) &&
    bool_decide (is_Some (_clippingContextBufferForDraw renderer)).
Proof.
  unfold selectedShader.
  destruct (bool_decide (is_Some (_clippingContextBufferForMask renderer)));
    [done|].
  by destruct (bool_decide (is_Some (_clippingContextBufferForDraw renderer))),
    colorBlendMode, invertedMask.
Qed.

(** X13.  With shader sets from [generateShaders], every call of a returned
    [setupShaderProgram] uses the program of the selected variant and
    locations of that same program, and each location it passes is one
    that the variant's entry defines: the choice of the entry (by the
    renderer's two context buffers, the blend mode and the inversion flag)
    agrees with the uniforms that the function then sets. *)
Theorem setupShaderProgram_own_locations gl this renderer textureId
    vertexCount vertexArray indexArray uvArray bufferData opacity
    colorBlendMode baseColor isPremultipliedAlpha matrix4x4 invertedMask
    w r w' :
  shaderSetsGenerated gl this ->
  setupShaderProgram gl this renderer textureId vertexCount
    vertexArray indexArray uvArray bufferData opacity colorBlendMode
    baseColor isPremultipliedAlpha matrix4x4 invertedMask w = Some (r, w') ->
  exists shaderSets s cs,
    _shaderSets (fst r) = Some shaderSets /\
    shaderSets !! ShaderNames_number
                    (selectedShader renderer colorBlendMode invertedMask)
    = Some s /\
    glCalls w' = glCalls w ++ cs /\
    gl_useProgram (Some (shaderProgram s)) ∈ cs /\
    Forall (onProgram (shaderProgram s)) cs.
Proof.
  intros Hgen H.
  destruct (setupShaderProgram_result _ _ _ _ _ _ _ _ _ _ _ _ _ _ _ _ _ _ H)
    as (sets' & v & u & i & Hr & Hsame & _).
  unfold setupShaderProgram in H.
  apply bind_Some in H as (? & w1 & Hlog & H).
  assert (glCalls w1 = glCalls w) as Hw1.
  { destruct (negb isPremultipliedAlpha); by injection Hlog as _ <-. }
  apply bind_Some in H as (shaderSets & w2 & Hsets & H).
  assert (sets' = shaderSets) as ->.
  { subst r. clear -H. revert H.
    destruct (shaderContent shaderSets _ _ invertedMask colorBlendMode)
      as [[shaderSet|] [[[srcColor dstColor] srcAlpha] dstAlpha]]; [|done].
    intros H.
    repeat
      match type of H with
      | bind _ _ _ = Some _ => apply bind_Some in H as (? & ? & _ & H)
      end.
    by injection H as -> _ _ _ _. }
  assert ((exists w0 w0', generateShaders gl w0 = Some (shaderSets, w0')) /\
          exists cs0, glCalls w2 = glCalls w1 ++ cs0 /\
                      Forall (fun c => forall p, onProgram p c) cs0)
    as [(w0 & w0' & Hgenerated) (cs0 & Hcs0 & Hall0)].
  { unfold shaderSetsGenerated in Hgen.
    destruct (_shaderSets this) as [sets0|].
    - injection Hsets as <- <-. split; [done|].
      exists []. by rewrite app_nil_r.
    - split; [eauto|].
      apply (Emits_generateShaders_reduce
               (fun c => forall p, onProgram p c) gl ShaderNames_members []
               ltac:(intros [] Hc p; solve [destruct Hc | exact I])
               _ _ _ Hsets). }
  set (name := selectedShader renderer colorBlendMode invertedMask).
  assert (exists s, shaderSets !! ShaderNames_number name = Some s /\
                    locationsOf name s) as (s & Hs & Hloc).
  { destruct (generateShaders_reduce_inv gl ShaderNames_members [] w0)
      as (new & wn & Hrun & _ & Hlen & Hall & _).
    unfold generateShaders in Hgenerated. rewrite Hrun in Hgenerated.
    injection Hgenerated as <- _. simpl.
    destruct (lookup_lt_is_Some_2 new (ShaderNames_number name)) as [s Hs].
    { rewrite Hlen. apply (lookup_lt_Some _ _ name).
      apply ShaderNames_members_lookup. }
    exists s. split; [done|].
    by destruct (Hall _ name s (ShaderNames_members_lookup name) Hs). }
  rewrite shaderContent_variant in H. fold (selectedShader renderer
    colorBlendMode invertedMask) in H. fold name in H. rewrite Hs in H.
  set (blend := if bool_decide _ then _ else _) in H.
  destruct blend as [[[srcColor dstColor] srcAlpha] dstAlpha].
  apply bind_Some in H as (? & w3 & [= <- <-] & H).
  match type of H with
  | ?m ?w0 = Some _ =>
      assert (Emits (onProgram (shaderProgram s)) m) as Hem
  end.
  { clear -Hloc. subst name. unfold selectedShader in Hloc.
    unfold setupUniformChannelFlagLocation, setupUniformClipMatrixLocation,
      ensureBuffer.
    destruct s as [p apl atl st0 ubc um ucm st1 ucf].
    unfold locationsOf in Hloc.
    cbn [shaderProgram attributePositionLocation attributeTexCoordLocation
         samplerTexture0Location uniformBaseColorLocation
         uniformMatrixLocation uniformClipMatrixLocation
         samplerTexture1Location uniformChannelFlagLocation] in *.
    destruct (selectedShader_kind renderer colorBlendMode invertedMask)
      as [Hsetup Hmasked].
    unfold selectedShader in Hsetup, Hmasked. rewrite Hsetup, Hmasked in Hloc.
    clear Hsetup Hmasked.
    destruct (_clippingContextBufferForMask renderer) as [cm|];
      destruct (_clippingContextBufferForDraw renderer) as [cd|];
      cbn [bool_decide decide_rel negb andb orb] in Hloc;
      vm_compute in Hloc;
      destruct Hloc as (-> & -> & -> & -> & -> & -> & -> & ->);
      emits_steps ltac:(first [exact I | reflexivity
                              | eexists; reflexivity]). }
  destruct (Hem _ _ _ H) as (cs1 & Hcs1 & Hall1).
  exists shaderSets, s, (cs0 ++ gl_useProgram (Some (shaderProgram s)) :: cs1).
  split; [by subst r|]. split; [done|]. split.
  { rewrite Hcs1. cbn [glCalls]. rewrite Hcs0, Hw1, <- !app_assoc. done. }
  split; [apply elem_of_app; right; left|].
  apply Forall_app. split.
  - eapply Forall_impl; [exact Hall0|]. intros c Hc. apply Hc.
  - constructor; [by left|done].
Qed.

Lemma setupShaderProgram_own_locations_witness :
  match setupShaderProgram glBuildsAll (mkShader None) plainRenderer None 3
          [] [] [] (mkBufferData None None None) 1 CubismBlendMode_Normal
          (mkColor 1 1 1 1) true CubismMatrix44.new false emptyWorld with
  | Some (r, w') =>
      exists shaderSets s cs,
        _shaderSets (fst r) = Some shaderSets /\
        shaderSets !! ShaderNames_number
                        (selectedShader plainRenderer CubismBlendMode_Normal
                                        false)
        = Some s /\
        glCalls w' = glCalls emptyWorld ++ cs /\
        gl_useProgram (Some (shaderProgram s)) ∈ cs /\
        Forall (onProgram (shaderProgram s)) cs
  | None => False
  end.
Proof.
  destruct (setupShaderProgram glBuildsAll (mkShader None) plainRenderer
              None 3 [] [] [] (mkBufferData None None None) 1
              CubismBlendMode_Normal (mkColor 1 1 1 1) true
              CubismMatrix44.new false emptyWorld)
    as [[r w']|] eqn:H; [|vm_compute in H; discriminate H].
  exact (setupShaderProgram_own_locations glBuildsAll (mkShader None)
           _ _ _ _ _ _ _ _ _ _ _ _ _ _ _ _ I H).
Defined.

(** ** deleteInstance: the release of the shader programs *)

Lemma releaseShaderProgram_run (shaderSets : list CubismShaderSet)
    (w : World) :
  releaseShaderProgram (mkShader (Some shaderSets)) w =
  Some (tt, mkWorld (glCalls w ++
                     map (fun s => gl_deleteProgram (shaderProgram s))
                         shaderSets)
                    (glObjects w) (errorLog w)).
Proof.
  unfold releaseShaderProgram. cbn [_shaderSets]. revert w.
  induction shaderSets as [|s l IH]; intros w; simpl.
  - unfold ret. rewrite app_nil_r. by destruct w.
  - unfold bind, call. rewrite IH. cbn [glCalls glObjects errorLog].
    by rewrite <- app_assoc.
Qed.

Lemma deletedPrograms_map (shaderSets : list CubismShaderSet) :
  deletedPrograms (map (fun s => gl_deleteProgram (shaderProgram s))
                       shaderSets)
  = map shaderProgram shaderSets.
Proof. induction shaderSets as [|s l IH]; simpl; [done|]. by f_equal. Qed.

(** The programs that the [reduce] creates when nothing fails are the ones
    it stores. *)
Lemma generateShaders_reduce_created (gl : WebGLRenderingContext)
    (indices : list ShaderNames) (acc : list CubismShaderSet) (w : World)
    (shaderSets : list CubismShaderSet) (w' : World) :
  buildsEveryVariant gl ->
  generateShaders_reduce gl indices acc w = Some (shaderSets, w') ->
  exists new cs,
    shaderSets = acc ++ new /\ glCalls w' = glCalls w ++ cs /\
    createdPrograms cs = map shaderProgram new.
Proof.
  intros Hbuilds. revert acc w.
  induction indices as [|name rest IH]; intros acc w; simpl.
  - intros [= <- <-]. exists [], []. by rewrite !app_nil_r.
  - intros (s & w1 & Hs & Hrest)%bind_Some.
    destruct (IH _ _ Hrest) as (new & cs & -> & Hcs & Hcreated).
    destruct (generateShader_inv _ _ _ _ _ Hs) as [Hload _].
    pose proof (loadShaderProgram_run gl (shaderSources name).1
                  (shaderSources name).2 w) as Hrun.
    cbv zeta in Hrun. specialize (Hbuilds name). unfold buildFails in Hbuilds.
    destruct (COMPILE_STATUS gl VERTEX_SHADER (shaderSources name).1);
      [|destruct Hbuilds; auto].
    destruct (COMPILE_STATUS gl FRAGMENT_SHADER (shaderSources name).2);
      [|destruct Hbuilds; auto].
    destruct (LINK_STATUS gl (shaderSources name).1 (shaderSources name).2);
      [|destruct Hbuilds; auto].
    rewrite Hrun in Hload. injection Hload as Hp Hw1.
    eexists (s :: new), (_ ++ cs). split; [by rewrite <- app_assoc|].
    split.
    + rewrite Hcs, <- Hw1. cbn [glCalls]. by rewrite <- app_assoc.
    + unfold createdPrograms in *. rewrite omap_app, Hcreated. simpl.
      by rewrite Hp.
Qed.

(** X14.  Round trip of the shader programs on a driver that builds every
    variant: [deleteInstance], on the instance that holds what
    [generateShaders] returned, deletes exactly the programs that
    [generateShaders] created, each once and in the order of creation,
    issues no other call, and leaves no instance; a second
    [deleteInstance] does nothing. *)
Theorem deleteInstance_round_trip (gl : WebGLRenderingContext) (w : World)
    (shaderSets : list CubismShaderSet) (w1 : World) :
  buildsEveryVariant gl ->
  generateShaders gl w = Some (shaderSets, w1) ->
  exists cs1 cs2 w2,
    glCalls w1 = glCalls w ++ cs1 /\
    deleteInstance (Some (mkShader (Some shaderSets))) w1 = Some (None, w2) /\
    glCalls w2 = glCalls w1 ++ cs2 /\
    cs2 = map gl_deleteProgram (createdPrograms cs1) /\
    length cs2 = length ShaderNames_members /\
    NoDup (createdPrograms cs1) /\
    deleteInstance None w2 = Some (None, w2).
Proof.
  intros Hbuilds Hgen.
  destruct (generateShaders_reduce_created _ _ _ _ _ _ Hbuilds Hgen)
    as (new & cs1 & Hnew & Hcs1 & Hcreated).
  simpl in Hnew. subst new.
  destruct (generateShaders_reduce_inv gl ShaderNames_members [] w)
    as (sets & w' & Hrun & _ & Hlen & Hall & Hinc).
  unfold generateShaders in Hgen. rewrite Hrun in Hgen.
  injection Hgen as -> ->.
  exists cs1, (map gl_deleteProgram (createdPrograms cs1)).
  eexists. split; [done|]. split.
  { unfold deleteInstance, CubismShader_WebGL_release, bind.
    rewrite releaseShaderProgram_run. reflexivity. }
  cbn [glCalls]. rewrite Hcreated, map_map. split; [done|]. split; [done|].
  split; [by rewrite !length_map|]. split; [|done].
  apply NoDup_alt. intros i j p Hi Hj.
  change (map ?f ?l) with (f <$> l) in Hi, Hj.
  rewrite list_lookup_fmap in Hi, Hj.
  destruct (shaderSets !! i) as [si|] eqn:Hsi; [|done].
  destruct (shaderSets !! j) as [sj|] eqn:Hsj; [|done].
  injection Hi as Hi. injection Hj as Hj.
  assert (forall k s, shaderSets !! k = Some s -> shaderProgram s <> 0%nat)
    as Hnz.
  { intros k s Hk.
    assert (exists name, ShaderNames_members !! k = Some name) as [name Hn].
    { apply lookup_lt_is_Some_2. rewrite <- Hlen.
      by apply lookup_lt_Some in Hk. }
    destruct (Hall k name s Hn Hk) as (_ & Hz & _).
    intros Hzero. by apply (Hbuilds name), Hz. }
  destruct (Nat.lt_trichotomy i j) as [Hlt|[Heq|Hgt]]; [|done|].
  - pose proof (Hinc i j si sj Hlt Hsi Hsj (Hnz _ _ Hsi) (Hnz _ _ Hsj)). lia.
  - pose proof (Hinc j i sj si Hgt Hsj Hsi (Hnz _ _ Hsj) (Hnz _ _ Hsi)). lia.
Qed.

Lemma deleteInstance_round_trip_witness :
  match generateShaders glBuildsAll emptyWorld with
  | Some (shaderSets, w1) =>
      exists cs1 cs2 w2,
        glCalls w1 = glCalls emptyWorld ++ cs1 /\
        deleteInstance (Some (mkShader (Some shaderSets))) w1
        = Some (None, w2) /\
        glCalls w2 = glCalls w1 ++ cs2 /\
        cs2 = map gl_deleteProgram (createdPrograms cs1) /\
        length cs2 = length ShaderNames_members /\
        NoDup (createdPrograms cs1) /\
        deleteInstance None w2 = Some (None, w2)
  | None => False
  end.
Proof.
  destruct (generateShaders glBuildsAll emptyWorld) as [[shaderSets w1]|]
    eqn:H; [|vm_compute in H; discriminate H].
  refine (deleteInstance_round_trip glBuildsAll emptyWorld shaderSets w1 _ H).
  intros name [Hf|[Hf|Hf]]; discriminate Hf.
Defined.

(** X15.  The instance that a returned draw leaves can always be released:
    [deleteInstance] returns without instance and issues one
    [deleteProgram] per entry of the shader sets, the zero handles of
    failed builds included, and no other call.  An instance that never
    drew (it exists as soon as [getInstance] was called) has no shader
    sets: releasing it throws. *)
Theorem deleteInstance_after_draw gl s_instance this textureNo indexCount
    vertexCount indexArray vertexArray uvArray opacity colorBlendMode
    invertedMask w s' this' w' :
  drawMesh gl s_instance this textureNo indexCount vertexCount
    indexArray vertexArray uvArray opacity colorBlendMode invertedMask w
    = Some ((s', this'), w') ->
  (exists shaderSets,
     s' = Some (mkShader (Some shaderSets)) /\
     forall w2,
       deleteInstance s' w2 =
       Some (None,
             mkWorld (glCalls w2 ++
                      map (fun s => gl_deleteProgram (shaderProgram s))
                          shaderSets)
                     (glObjects w2) (errorLog w2))) /\
  (forall w2, deleteInstance (Some (getInstance None)) w2 = None).
Proof.
  unfold drawMesh. intros H.
  apply bind_Some in H as (? & ? & _ & H).
  apply bind_Some in H as (? & ? & _ & H). cbv zeta in H.
  apply bind_Some in H as (r0 & ? & Hsetup & H).
  apply bind_Some in H as (? & ? & _ & H).
  apply bind_Some in H as (? & ? & _ & H).
  injection H as <- _ _.
  destruct (setupShaderProgram_result _ _ _ _ _ _ _ _ _ _ _ _ _ _ _ _ _ _
              Hsetup) as (shaderSets & v & u & i & -> & _).
  split; [|done]. exists shaderSets. split; [done|]. intros w2.
  unfold deleteInstance, CubismShader_WebGL_release, bind. cbn [fst].
  by rewrite releaseShaderProgram_run.
Qed.

Lemma deleteInstance_after_draw_witness :
  match drawMesh glBuildsNone None plainRenderer 0 3 3 [] [] [] 1
          CubismBlendMode_Normal false emptyWorld with
  | Some ((s', _), w') =>
      exists w2, deleteInstance s' w' = Some (None, w2) /\
                 deletedPrograms (drop (length (glCalls w')) (glCalls w2))
                 = replicate 10 0%nat
  | None => False
  end.
Proof.
  destruct (drawMesh glBuildsNone None plainRenderer 0 3 3 [] [] [] 1
              CubismBlendMode_Normal false emptyWorld)
    as [[[s' this'] w']|] eqn:H; [|vm_compute in H; discriminate H].
  destruct (deleteInstance_after_draw _ _ _ _ _ _ _ _ _ _ _ _ _ _ _ _ H)
    as [(shaderSets & -> & Hdel) _].
  eexists. split; [apply Hdel|]. cbn [glCalls].
  rewrite drop_app_length. vm_compute in H. injection H as <- _ _.
  reflexivity.
Defined.

(** ** doDrawModel: the screen pass for any render orders *)

Lemma csmVector_set_lookup (order : Z) (i : nat) (v : list nat) (k : nat) :
  (k < length v)%nat ->
  csmVector.set order i v !! k
  = if decide (order = Z.of_nat k) then Some i else v !! k.
Proof.
  intros Hk. unfold csmVector.set.
  destruct (Z.leb_spec 0 order) as [Hpos|Hneg].
  - destruct (decide (order = Z.of_nat k)) as [->|Hne].
    + rewrite Nat2Z.id. by apply list_lookup_insert_eq.
    + apply list_lookup_insert_ne. lia.
  - rewrite decide_False by lia. done.
Qed.

Lemma csmVector_set_length (order : Z) (i : nat) (v : list nat) :
  length (csmVector.set order i v) = length v.
Proof.
  unfold csmVector.set. destruct (0 <=? order)%Z; [|done].
  apply length_insert.
Qed.

Lemma sortDrawableIndices_S (m : nat) (renderOrder : list Z)
    (sorted0 : list nat) :
  sortDrawableIndices (S m) renderOrder sorted0
  = match renderOrder !! m with
    | Some order =>
        csmVector.set order m (sortDrawableIndices m renderOrder sorted0)
    | None => sortDrawableIndices m renderOrder sorted0
    end.
Proof.
  unfold sortDrawableIndices. by rewrite seq_S, fold_left_app.
Qed.

Lemma sortDrawableIndices_length (m : nat) (renderOrder : list Z)
    (sorted0 : list nat) :
  length (sortDrawableIndices m renderOrder sorted0) = length sorted0.
Proof.
  induction m as [|m IH]; [done|]. rewrite sortDrawableIndices_S.
  destruct (renderOrder !! m); [|done]. by rewrite csmVector_set_length.
Qed.

(** Slot [k] after the first loop: the last drawable with render order
    [k], or what the slot held before. *)
Lemma sortDrawableIndices_slot (m : nat) (renderOrder : list Z)
    (sorted0 : list nat) (k : nat) :
  (k < length sorted0)%nat ->
  sortDrawableIndices m renderOrder sorted0 !! k
  = match lastWithOrder m renderOrder k with
    | Some i => Some i
    | None => sorted0 !! k
    end.
Proof.
  intros Hk. induction m as [|m IH]; [done|].
  rewrite sortDrawableIndices_S. unfold lastWithOrder in *.
  rewrite seq_S, filter_app. simpl.
  rewrite filter_singleton; [|exact []].
  destruct (renderOrder !! m) as [order|] eqn:Hm.
  - rewrite csmVector_set_lookup
      by (by rewrite sortDrawableIndices_length).
    destruct (decide (order = Z.of_nat k)) as [->|Hne].
    + rewrite decide_True by done. by rewrite last_snoc.
    + rewrite decide_False by congruence. by rewrite app_nil_r.
  - rewrite decide_False by done. by rewrite app_nil_r.
Qed.


(** ** setupClippingContext: the matrix for drawing and the matrix for the mask *)

Section DrawMatrix.
Local Open Scope Q_scope.

Lemma matrixForDraw_transform (bx by_ bw bh lx ly lw lh px py : Q) :
  ~ bw == 0 -> ~ bh == 0 ->
  let m := matrixForDraw (csmRect.mk bx by_ bw bh) (csmRect.mk lx ly lw lh) in
  CubismMatrix44.transformX m px py
    == lx + (px - (bx - bw * MARGIN)) * (lw / (bw + bw * MARGIN * 2)) /\
  CubismMatrix44.transformY m px py
    == ly + (py - (by_ - bh * MARGIN)) * (lh / (bh + bh * MARGIN * 2)).
Proof.
  intros Hw Hh.
  assert (~ bw + bw * MARGIN * 2 == 0) as Hw'.
  { unfold MARGIN. intros H. apply Hw. lra. }
  assert (~ bh + bh * MARGIN * 2 == 0) as Hh'.
  { unfold MARGIN. intros H. apply Hh. lra. }
  cbv [matrixForMask matrixForDraw calcMatrix boundsOnModel
       CubismMatrix44.setMatrix CubismMatrix44.getArray
       CubismMatrix44.translateRelative CubismMatrix44.scaleRelative
       CubismMatrix44.multiply CubismMatrix44.new CubismMatrix44.at_
       CubismMatrix44.transformX CubismMatrix44.transformY
       csmRect.expand csmRect.x csmRect.y csmRect.width csmRect.height
       flat_map map seq fold_right nth app Nat.add Nat.mul].
  split; field; done.
Qed.

(** X17.  For a context whose bounds have a width and a height other than
    zero, the two matrices that [setupClippingContext] computes agree: the
    matrix for drawing sends the bounds grown by 5% on each side onto the
    layout rectangle in [0,1] texture coordinates, and for every point the
    matrix for the mask gives twice the result of the matrix for drawing
    minus one, its place in [-1,1] clip coordinates; so a drawable reads
    the mask at the texel where the mask pass drew that point.  Arithmetic
    is exact here. *)
Theorem setupMatrices_mask_agrees_with_draw
    (clipContext : CubismClippingContext) (px py : Q) :
  let r := _allClippedDrawRect clipContext in
  let l := _layoutBounds clipContext in
  let forMask := _matrixForMask (setupMatrices clipContext) in
  let forDraw := _matrixForDraw (setupMatrices clipContext) in
  let left := csmRect.x r - (5 # 100) * csmRect.width r in
  let right := csmRect.x r + csmRect.width r + (5 # 100) * csmRect.width r in
  let top := csmRect.y r - (5 # 100) * csmRect.height r in
  let bottom :=
    csmRect.y r + csmRect.height r + (5 # 100) * csmRect.height r in
  ~ csmRect.width r == 0 -> ~ csmRect.height r == 0 ->
  (CubismMatrix44.transformX forMask px py
     == 2 * CubismMatrix44.transformX forDraw px py - 1 /\
   CubismMatrix44.transformY forMask px py
     == 2 * CubismMatrix44.transformY forDraw px py - 1) /\
  (CubismMatrix44.transformX forDraw left top == csmRect.x l /\
   CubismMatrix44.transformY forDraw left top == csmRect.y l) /\
  (CubismMatrix44.transformX forDraw right bottom == csmRect.getRight l /\
   CubismMatrix44.transformY forDraw right bottom == csmRect.getBottom l).
Proof.
  destruct clipContext as [u ids n ch [lx ly lw lh] [bx by_ bw bh] mm md cl].
  cbn [_allClippedDrawRect _layoutBounds _matrixForMask _matrixForDraw
       setupMatrices csmRect.x csmRect.y csmRect.width csmRect.height
       csmRect.getRight csmRect.getBottom].
  unfold csmRect.getRight, csmRect.getBottom.
  cbn [csmRect.x csmRect.y csmRect.width csmRect.height].
  intros Hw Hh.
  assert (~ bw + bw * MARGIN * 2 == 0) as Hw'.
  { unfold MARGIN. intros H. apply Hw. lra. }
  assert (~ bh + bh * MARGIN * 2 == 0) as Hh'.
  { unfold MARGIN. intros H. apply Hh. lra. }
  pose proof (matrixForMask_transform bx by_ bw bh lx ly lw lh px py Hw Hh)
    as [HmX HmY].
  pose proof (matrixForDraw_transform bx by_ bw bh lx ly lw lh) as Hd.
  cbv zeta in HmX, HmY, Hd.
  split; [split|split; split].
  - rewrite HmX, (proj1 (Hd px py Hw Hh)). reflexivity.
  - rewrite HmY, (proj2 (Hd px py Hw Hh)). reflexivity.
  - rewrite (proj1 (Hd _ _ Hw Hh)). unfold MARGIN in *. field. done.
  - rewrite (proj2 (Hd _ _ Hw Hh)). unfold MARGIN in *. field. done.
  - rewrite (proj1 (Hd _ _ Hw Hh)). unfold MARGIN in *. field. done.
  - rewrite (proj2 (Hd _ _ Hw Hh)). unfold MARGIN in *. field. done.
Qed.

Lemma setupMatrices_mask_agrees_with_draw_witness :
  let forMask := _matrixForMask (setupMatrices contextInUse) in
  let forDraw := _matrixForDraw (setupMatrices contextInUse) in
  CubismMatrix44.transformX forMask 3 7
    == 2 * CubismMatrix44.transformX forDraw 3 7 - 1 /\
  CubismMatrix44.transformY forMask 3 7
    == 2 * CubismMatrix44.transformY forDraw 3 7 - 1.
Proof.
  apply (setupMatrices_mask_agrees_with_draw contextInUse 3 7);
    intros H; discriminate H.
Defined.

End DrawMatrix.

(** ** drawMesh: one draw call, and what it leaves *)

Lemma Emits_setupShaderProgram_no_draw gl this renderer textureId vertexCount
    vertexArray indexArray uvArray bufferData opacity colorBlendMode
    baseColor isPremultipliedAlpha matrix4x4 invertedMask :
  Emits (fun c => ~ isDrawCall c)
    (setupShaderProgram gl this renderer textureId vertexCount
       vertexArray indexArray uvArray bufferData opacity colorBlendMode
       baseColor isPremultipliedAlpha matrix4x4 invertedMask).
Proof.
  unfold setupShaderProgram, setupUniformChannelFlagLocation,
    setupUniformClipMatrixLocation, ensureBuffer.
  apply Emits_bind; [destruct (negb isPremultipliedAlpha);
                     [apply Emits_logError|apply Emits_ret]|intros _].
  apply Emits_bind.
  { destruct (_shaderSets this); [apply Emits_ret|].
    apply Emits_generateShaders_reduce.
    intros [] Hc Hd; solve [destruct Hc | destruct Hd]. }
  intros shaderSets.
  emits_steps ltac:(simpl; tauto).
Qed.

(** X18.  Every returned [drawMesh] issues exactly one draw call: its GL
    calls are the culling switch (enabled exactly when the renderer culls)
    and [frontFace(CCW)], then the calls of [setupShaderProgram], none of
    which draws, then [drawElements] with the given index count and
    [useProgram(null)].  It uses up the two context buffers, which are null
    afterwards, and leaves the culling and alpha flags, the model colour,
    the matrix, the textures and the colour buffer as they were. *)
Theorem drawMesh_one_draw gl s_instance this textureNo indexCount
    vertexCount indexArray vertexArray uvArray opacity colorBlendMode
    invertedMask w s' this' w' :
  drawMesh gl s_instance this textureNo indexCount vertexCount
    indexArray vertexArray uvArray opacity colorBlendMode invertedMask w
    = Some ((s', this'), w') ->
  (exists setup,
     glCalls w' =
     glCalls w ++
     [if _isCulling this then gl_enable_CULL_FACE else gl_disable_CULL_FACE;
      gl_frontFace_CCW] ++
     setup ++ [gl_drawElements_TRIANGLES indexCount; gl_useProgram None] /\
     Forall (fun c => ~ isDrawCall c) setup) /\
  _clippingContextBufferForMask this' = None /\
  _clippingContextBufferForDraw this' = None /\
  _isCulling this' = _isCulling this /\
  _isPremultipliedAlpha this' = _isPremultipliedAlpha this /\
  _modelColor this' = _modelColor this /\
  _mvpMatrix this' = _mvpMatrix this /\
  _textures this' = _textures this /\
  _colorBuffer this' = _colorBuffer this.
Proof.
  unfold drawMesh. intros H.
  apply bind_Some in H as (? & w1 & Hcull & H).
  apply bind_Some in H as (? & w2 & [= <- <-] & H). cbv zeta in H.
  apply bind_Some in H as (r0 & w3 & Hsetup & H).
  apply bind_Some in H as (? & w4 & [= <- <-] & H).
  apply bind_Some in H as (? & w5 & [= <- <-] & H).
  injection H as <- <- <-.
  destruct (Emits_setupShaderProgram_no_draw _ _ _ _ _ _ _ _ _ _ _ _ _ _ _
              _ _ _ Hsetup) as (setup & Hcalls & Hno).
  split; [|by repeat split].
  exists setup. split; [|done].
  cbn [glCalls] in *. rewrite Hcalls. cbn [glCalls].
  assert (glCalls w1 =
          glCalls w ++ [if _isCulling this then gl_enable_CULL_FACE
                        else gl_disable_CULL_FACE]) as ->.
  { destruct (_isCulling this); by injection Hcull as _ <-. }
  rewrite <- !app_assoc. reflexivity.
Qed.

Lemma drawMesh_one_draw_witness :
  match drawMesh glBuildsAll None plainRenderer 0 3 3 [] [] [] 1
          CubismBlendMode_Normal false emptyWorld with
  | Some ((s', this'), w') =>
      (exists setup,
         glCalls w' =
         glCalls emptyWorld ++
         [gl_disable_CULL_FACE; gl_frontFace_CCW] ++
         setup ++ [gl_drawElements_TRIANGLES 3; gl_useProgram None] /\
         Forall (fun c => ~ isDrawCall c) setup) /\
      _clippingContextBufferForDraw this' = None
  | None => False
  end.
Proof.
  destruct (drawMesh glBuildsAll None plainRenderer 0 3 3 [] [] [] 1
              CubismBlendMode_Normal false emptyWorld)
    as [[[s' this'] w']|] eqn:H; [|vm_compute in H; discriminate H].
  destruct (drawMesh_one_draw _ _ _ _ _ _ _ _ _ _ _ _ _ _ _ _ H)
    as (Hcalls & _ & Hdraw & _).
  split; [exact Hcalls|exact Hdraw].
Defined.

(** ** A frame and the draws after it *)

(** The context buffer that [setupShaderProgram] reads the channel of: the
    one for the mask when it is set, else the one for drawing. *)
Lemma Total_setupShaderProgram_inUse gl this renderer textureId vertexCount
    vertexArray indexArray uvArray bufferData opacity colorBlendMode
    baseColor isPremultipliedAlpha matrix4x4 invertedMask :
  shaderSetsComplete this ->
  hasChannel (clipBufferInUse renderer) ->
  Total (setupShaderProgram gl this renderer textureId vertexCount
           vertexArray indexArray uvArray bufferData opacity colorBlendMode
           baseColor isPremultipliedAlpha matrix4x4 invertedMask).
Proof.
  intros Hsets Hchannel. unfold setupShaderProgram.
  apply Total_bind; [gl_steps|]. intros _.
  apply (Total_bind_Returns
           (fun l => length l = length ShaderNames_members)).
  { unfold shaderSetsComplete in Hsets.
    destruct (_shaderSets this) as [shaderSets|].
    - intros w. by exists shaderSets, w.
    - apply (Returns_generateShaders_reduce gl ShaderNames_members []). }
  intros shaderSets Hlen.
  destruct (shaderContent_Some shaderSets
              (bool_decide (is_Some (_clippingContextBufferForMask renderer)))
              (bool_decide (is_Some (_clippingContextBufferForDraw renderer)))
              invertedMask colorBlendMode Hlen)
    as (shaderSet & [[[a b] c] d] & ->).
  unfold setupUniformChannelFlagLocation, setupUniformClipMatrixLocation,
    ensureBuffer.
  unfold clipBufferInUse in Hchannel.
  destruct (_clippingContextBufferForMask renderer) as [mask|].
  - destruct (getChannelFlagAsColor_Some mask Hchannel) as [color ->].
    gl_steps.
  - destruct (_clippingContextBufferForDraw renderer) as [draw|].
    + destruct (getChannelFlagAsColor_Some draw Hchannel) as [color ->].
      gl_steps.
    + gl_steps.
Qed.

Section Throwing.
Context {A B : Type}.

Lemma Throws_throw : Throws (@throw A).
Proof. by intros w. Qed.

Lemma Throws_bind_l (m : GL A) (f : A -> GL B) :
  Throws m -> Throws (bind m f).
Proof. intros Hm w. unfold bind. by rewrite Hm. Qed.

Lemma Throws_bind_r (m : GL A) (f : A -> GL B) :
  (forall a, Throws (f a)) -> Throws (bind m f).
Proof.
  intros Hf w. unfold bind. destruct (m w) as [[a w']|]; [apply Hf|done].
Qed.
End Throwing.

Lemma getChannelFlagAsColor_None (context : CubismClippingContext) :
  ~ hasChannel (Some context) ->
  getChannelFlagAsColor (_layoutChannelNo context) = None.
Proof.
  intros Hno. unfold getChannelFlagAsColor.
  destruct (_layoutChannelNo context) as [c|] eqn:Hc; [|done].
  apply lookup_ge_None_2. simpl.
  destruct (decide (c < 4)%nat) as [Hlt|]; [|lia].
  destruct Hno. exists c. by rewrite Hc.
Qed.

Lemma Throws_setupShaderProgram gl this renderer textureId vertexCount
    vertexArray indexArray uvArray bufferData opacity colorBlendMode
    baseColor isPremultipliedAlpha matrix4x4 invertedMask :
  ~ hasChannel (clipBufferInUse renderer) ->
  Throws (setupShaderProgram gl this renderer textureId vertexCount
            vertexArray indexArray uvArray bufferData opacity colorBlendMode
            baseColor isPremultipliedAlpha matrix4x4 invertedMask).
Proof.
  intros Hno. unfold setupShaderProgram.
  apply Throws_bind_r. intros _. apply Throws_bind_r. intros shaderSets.
  destruct (shaderContent shaderSets _ _ invertedMask colorBlendMode)
    as [[shaderSet|] [[[a b] c] d]]; [|apply Throws_throw].
  unfold clipBufferInUse in Hno.
  repeat
    lazymatch goal with
    | |- Throws (bind (call _) _) => apply Throws_bind_r; intros ?
    | |- Throws (bind (ensureBuffer _) _) => apply Throws_bind_r; intros ?
    end.
  apply Throws_bind_l.
  unfold setupUniformChannelFlagLocation.
  destruct (_clippingContextBufferForMask renderer) as [mask|].
  - apply Throws_bind_l.
    rewrite (getChannelFlagAsColor_None mask Hno). apply Throws_throw.
  - destruct (_clippingContextBufferForDraw renderer) as [draw|];
      [|by destruct Hno].
    apply Throws_bind_l, Throws_bind_r. intros _.
    rewrite (getChannelFlagAsColor_None draw Hno). apply Throws_throw.
Qed.



Lemma calcClippedDrawTotalBounds_in_use (model : CubismModel)
    (cc : CubismClippingContext) :
  (exists d, d ∈ _clippedDrawableIndexList cc /\ hasValidPoint model d) ->
  _isUsing (calcClippedDrawTotalBounds model cc) = Some true.
Proof.
  intros Hex. unfold calcClippedDrawTotalBounds.
  destruct (calcClippedDrawTotalBounds_body_fold model cc
              (_clippedDrawableIndexList cc))
    as (_ & _ & [[Hnone _]|(_ & _ & -> & _)]); [|done].
  destruct Hex as (d & Hd & Hv). by destruct (Hnone d).
Qed.

Lemma filter_all_length {A} (f : A -> bool) (l : list A) :
  Forall (fun x => f x = true) l -> length (List.filter f l) = length l.
Proof.
  induction 1 as [|x l Hx _ IH]; simpl; [done|]. rewrite Hx. simpl. lia.
Qed.



Lemma calcClippedDrawTotalBounds_layout (model : CubismModel)
    (cc : CubismClippingContext) :
  _layoutChannelNo (calcClippedDrawTotalBounds model cc) = _layoutChannelNo cc
  /\ _layoutBounds (calcClippedDrawTotalBounds model cc) = _layoutBounds cc.
Proof.
  unfold calcClippedDrawTotalBounds.
  destruct (calcClippedDrawTotalBounds_body_fold model cc
              (_clippedDrawableIndexList cc))
    as (_ & _ & [[_ ->]|(_ & _ & -> & _)]); by split.
Qed.

(** Which contexts the contexts part of a frame gives a slot to, for up to
    36 groups in use: the first contexts of the list, as many as there are
    groups in use. *)
Lemma setupClippingContext_contexts_slots (model : CubismModel)
    (this : CubismClippingManager_WebGL) :
  let count := usingClipCountOf model this in
  (count <= 36)%nat ->
  exists this',
    setupClippingContext model this = Some (this', []) /\
    length (_clippingContextListForMask this')
    = length (_clippingContextListForMask this) /\
    forall p cc cc',
      _clippingContextListForMask this !! p = Some cc ->
      _clippingContextListForMask this' !! p = Some cc' ->
      ((p < count)%nat ->
       hasChannel (Some cc') /\ insideUnitSquare (_layoutBounds cc')) /\
      ((count <= p)%nat ->
       _layoutChannelNo cc' = _layoutChannelNo cc /\
       _layoutBounds cc' = _layoutBounds cc).
Proof.
  unfold setupClippingContext, usingClipCountOf. intros Hle.
  destruct (calcAllBounds_count model (_clippingContextListForMask this) 0)
    as [Hcount Hctx].
  destruct (calcAllBounds model (_clippingContextListForMask this) 0)
    as [contexts n].
  simpl in Hcount, Hctx. subst contexts.
  set (l := _clippingContextListForMask this) in *.
  rewrite <- Hcount in Hle |- *.
  assert (forall p cc x,
            l !! p = Some cc ->
            map (calcClippedDrawTotalBounds model) l !! p = Some x ->
            _layoutChannelNo x = _layoutChannelNo cc /\
            _layoutBounds x = _layoutBounds cc) as Hcalc.
  { intros p cc x Hcc Hx. change (map ?f ?k) with (f <$> k) in Hx.
    rewrite list_lookup_fmap, Hcc in Hx. injection Hx as <-.
    apply calcClippedDrawTotalBounds_layout. }
  destruct (Nat.ltb_spec 0 n) as [Hpos|Hzero].
  - destruct (setupLayoutBounds_slots n
                (map (calcClippedDrawTotalBounds model) l))
      as (st & -> & Hlog & Hlen & Hkeep & Hat); [done| |].
    { rewrite Hcount. apply filter_length_le. }
    simpl. rewrite Hlog. eexists. split; [done|]. simpl.
    split; [by rewrite length_map, Hlen, length_map|].
    intros p cc cc' Hcc Hcc'.
    change (map ?f ?k) with (f <$> k) in Hcc'.
    rewrite list_lookup_fmap in Hcc'.
    destruct (layoutContexts st !! p) as [cp|] eqn:Hcp; [|done].
    injection Hcc' as <-. simpl. split.
    + intros Hp.
      destruct (Hat p cp Hp Hcp)
        as (c & i & cc0 & k & Hc & Hk & Hi & _ & -> & _).
      simpl. split.
      * exists c. split; [done|]. unfold ColorChannelCount. lia.
      * by apply (branchBounds_tiles k i i).
    + intros Hp. rewrite (Hkeep p Hp) in Hcp. by apply (Hcalc p).
  - eexists. split; [done|]. simpl. split; [by rewrite length_map|].
    intros p cc cc' Hcc Hcc'. split; [lia|]. intros _. by apply (Hcalc p).
Qed.


(** ** drawMesh: what a draw does not depend on *)

(** X22.  What [drawMesh] ignores.  In the mask pass (the context buffer for
    the mask is set) the opacity, the blend mode and the inversion flag
    have no effect at all: two draws that differ only in them do the same,
    call for call.  Outside the mask pass a draw without a context for
    drawing does not depend on the inversion flag. *)
Theorem drawMesh_ignores gl s_instance this textureNo indexCount
    vertexCount indexArray vertexArray uvArray opacity colorBlendMode
    invertedMask opacity' colorBlendMode' invertedMask' w :
  (is_Some (_clippingContextBufferForMask this) ->
   drawMesh gl s_instance this textureNo indexCount vertexCount
     indexArray vertexArray uvArray opacity colorBlendMode invertedMask w
   = drawMesh gl s_instance this textureNo indexCount vertexCount
       indexArray vertexArray uvArray opacity' colorBlendMode'
       invertedMask' w) /\
  (_clippingContextBufferForMask this = None ->
   _clippingContextBufferForDraw this = None ->
   drawMesh gl s_instance this textureNo indexCount vertexCount
     indexArray vertexArray uvArray opacity colorBlendMode invertedMask w
   = drawMesh gl s_instance this textureNo indexCount vertexCount
       indexArray vertexArray uvArray opacity colorBlendMode
       invertedMask' w).
Proof.
  split.
  - intros [context Hmask]. unfold drawMesh, setupShaderProgram.
    rewrite Hmask. reflexivity.
  - intros Hmask Hdraw. unfold drawMesh, setupShaderProgram.
    rewrite Hmask, Hdraw.
    by destruct colorBlendMode, invertedMask, invertedMask'.
Qed.

Lemma drawMesh_ignores_witness :
  let renderer :=
    {| _clippingContextBufferForMask := Some contextInUse;
       _clippingContextBufferForDraw := None;
       _colorBuffer := None;
       _isCulling := false;
       _isPremultipliedAlpha := true;
       _modelColor := mkColor 1 1 1 1;
       _mvpMatrix := CubismMatrix44.new;
       _textures := fun _ => None;
       _bufferData := mkBufferData None None None |} in
  drawMesh glBuildsAll None renderer 0 3 3 [] [] [] 1
    CubismBlendMode_Normal false emptyWorld
  = drawMesh glBuildsAll None renderer 0 3 3 [] [] [] (1 # 2)
      CubismBlendMode_Additive true emptyWorld.
Proof.
  intros renderer.
  exact (proj1 (drawMesh_ignores glBuildsAll None renderer 0 3 3 [] [] [] 1
                  CubismBlendMode_Normal false (1 # 2)
                  CubismBlendMode_Additive true emptyWorld)
               (ex_intro _ contextInUse eq_refl)).
Defined.

(** ** calcClippedDrawTotalBounds and setupClippingContext: a second run *)

(** The running extent does not read the context. *)
Lemma calcClippedDrawTotalBounds_body_extent (model : CubismModel)
    (l : list nat) (e : Extent) (cc1 cc2 : CubismClippingContext) :
  fst (fold_left (calcClippedDrawTotalBounds_body model) l (e, cc1))
  = fst (fold_left (calcClippedDrawTotalBounds_body model) l (e, cc2)).
Proof.
  revert e cc1 cc2. induction l as [|d l IH]; intros e cc1 cc2; [done|].
  cbn [fold_left].
  assert (fst (calcClippedDrawTotalBounds_body model (e, cc1) d)
          = fst (calcClippedDrawTotalBounds_body model (e, cc2) d)) as Hfst.
  { unfold calcClippedDrawTotalBounds_body.
    destruct (Qeq_bool (minX (drawableExtent model d)) Number_MAX_VALUE);
      [done|].
    cbv zeta. cbn [minX]. by destruct (Qeq_bool _ Number_MAX_VALUE). }
  destruct (calcClippedDrawTotalBounds_body model (e, cc1) d) as [e1 c1].
  destruct (calcClippedDrawTotalBounds_body model (e, cc2) d) as [e2 c2].
  simpl in Hfst. subst e2. apply IH.
Qed.

(** A context that already holds the result for its clipped drawables is
    left as it is. *)
Lemma calcClippedDrawTotalBounds_fixed (model : CubismModel)
    (cc y : CubismClippingContext) :
  _clippedDrawableIndexList y = _clippedDrawableIndexList cc ->
  _isUsing y = _isUsing (calcClippedDrawTotalBounds model cc) ->
  _allClippedDrawRect y
  = _allClippedDrawRect (calcClippedDrawTotalBounds model cc) ->
  calcClippedDrawTotalBounds model y = y.
Proof.
  intros Hlist Husing Hrect. unfold calcClippedDrawTotalBounds in *.
  rewrite Hlist.
  pose proof (calcClippedDrawTotalBounds_body_extent model
                (_clippedDrawableIndexList cc) Extent_init y cc) as Hext.
  destruct (calcClippedDrawTotalBounds_body_fold model y
              (_clippedDrawableIndexList cc))
    as (_ & _ & [[_ ->]|(Hsome & _ & Hy & _)]); [done|].
  destruct (calcClippedDrawTotalBounds_body_fold model cc
              (_clippedDrawableIndexList cc))
    as (_ & _ & [[Hnone _]|(_ & _ & Hcc & _)]).
  { destruct Hsome as (d & Hd & Hv). by destruct (Hnone d). }
  rewrite Hy. rewrite Hcc in Husing, Hrect. rewrite <- Hext in Husing, Hrect.
  simpl in Husing, Hrect. rewrite <- Hrect. clear -Husing.
  destruct y. simpl in *. by subst.
Qed.

(** X23.  [calcClippedDrawTotalBounds] is idempotent: run again on its own
    result, with the same model, it changes nothing.  When some clipped
    drawable has a valid point, the rectangle depends on the model and on
    the list of clipped drawables only, not on what the context held. *)
Theorem calcClippedDrawTotalBounds_idempotent (model : CubismModel)
    (clippingContext : CubismClippingContext) :
  calcClippedDrawTotalBounds model
    (calcClippedDrawTotalBounds model clippingContext)
  = calcClippedDrawTotalBounds model clippingContext /\
  forall other,
    _clippedDrawableIndexList other
    = _clippedDrawableIndexList clippingContext ->
    (exists d, d ∈ _clippedDrawableIndexList clippingContext /\
               hasValidPoint model d) ->
    _allClippedDrawRect (calcClippedDrawTotalBounds model other)
    = _allClippedDrawRect (calcClippedDrawTotalBounds model clippingContext).
Proof.
  split.
  - apply (calcClippedDrawTotalBounds_fixed model clippingContext);
      [|done|done].
    unfold calcClippedDrawTotalBounds.
    destruct (calcClippedDrawTotalBounds_body_fold model clippingContext
                (_clippedDrawableIndexList clippingContext))
      as (_ & _ & [[_ ->]|(_ & _ & -> & _)]); done.
  - intros other Hlist Hex. unfold calcClippedDrawTotalBounds.
    rewrite Hlist.
    pose proof (calcClippedDrawTotalBounds_body_extent model
                  (_clippedDrawableIndexList clippingContext) Extent_init
                  other clippingContext) as Hext.
    destruct (calcClippedDrawTotalBounds_body_fold model other
                (_clippedDrawableIndexList clippingContext))
      as (_ & _ & [[Hnone _]|(_ & _ & -> & _)]).
    { destruct Hex as (d & Hd & Hv). by destruct (Hnone d). }
    destruct (calcClippedDrawTotalBounds_body_fold model clippingContext
                (_clippedDrawableIndexList clippingContext))
      as (_ & _ & [[Hnone _]|(_ & _ & -> & _)]).
    { destruct Hex as (d & Hd & Hv). by destruct (Hnone d). }
    simpl. by rewrite Hext.
Qed.

Lemma calcAllBounds_eq (model : CubismModel)
    (contexts : list CubismClippingContext) :
  calcAllBounds model contexts 0
  = (map (calcClippedDrawTotalBounds model) contexts,
     length (List.filter isUsing
               (map (calcClippedDrawTotalBounds model) contexts))).
Proof.
  destruct (calcAllBounds_count model contexts 0) as [Hcount Hctx].
  destruct (calcAllBounds model contexts 0) as [l n].
  simpl in Hcount, Hctx. by subst.
Qed.

Lemma filter_length_pointwise {A} (f : A -> bool) (l1 l2 : list A) :
  Forall2 (fun a b => f a = f b) l1 l2 ->
  length (List.filter f l1) = length (List.filter f l2).
Proof.
  induction 1 as [|a b l1 l2 Hab _ IH]; simpl; [done|].
  rewrite <- Hab. destruct (f a); simpl; lia.
Qed.

(** What a frame leaves is left as it is by the bounds of the same model. *)
Lemma calcClippedDrawTotalBounds_after_frame (model : CubismModel)
    (l laidOut : list CubismClippingContext) :
  Forall2 sameButLayout (map (calcClippedDrawTotalBounds model) l) laidOut ->
  map (calcClippedDrawTotalBounds model) (map setupMatrices laidOut)
  = map setupMatrices laidOut /\
  length (List.filter isUsing (map setupMatrices laidOut))
  = length (List.filter isUsing (map (calcClippedDrawTotalBounds model) l)).
Proof.
  intros Hf. split.
  - apply list_eq. intros p.
    change (map ?f ?k) with (f <$> k). rewrite !list_lookup_fmap.
    destruct (laidOut !! p) as [cp|] eqn:Hcp; [|done]. simpl. f_equal.
    destruct (Forall2_lookup_r _ _ _ _ _ Hf Hcp)
      as (x & Hx & Hu & _ & _ & Hr & _ & _ & Hl).
    change (map ?f ?k) with (f <$> k) in Hx.
    rewrite list_lookup_fmap in Hx.
    destruct (l !! p) as [cc|]; [|done]. injection Hx as <-.
    apply (calcClippedDrawTotalBounds_fixed model cc); simpl; try done.
    rewrite Hl. unfold calcClippedDrawTotalBounds.
    destruct (calcClippedDrawTotalBounds_body_fold model cc
                (_clippedDrawableIndexList cc))
      as (_ & _ & [[_ ->]|(_ & _ & -> & _)]); done.
  - symmetry. apply filter_length_pointwise.
    apply Forall2_fmap_r. eapply Forall2_impl; [exact Hf|].
    intros a b (Hu & _). unfold isUsing. simpl. by rewrite Hu.
Qed.

(** The contexts part of a frame, run again on what it left with the same
    model, for up to 36 groups in use: it computes the same again. *)
Lemma setupClippingContext_contexts_idempotent (model : CubismModel)
    (this this1 : CubismClippingManager_WebGL) (log : list LogEntry) :
  (usingClipCountOf model this <= 36)%nat ->
  setupClippingContext model this = Some (this1, log) ->
  setupClippingContext model this1 = Some (this1, log).
Proof.
  unfold usingClipCountOf, setupClippingContext.
  rewrite !calcAllBounds_eq.
  set (l := _clippingContextListForMask this).
  set (l1 := map (calcClippedDrawTotalBounds model) l).
  set (n := length (List.filter isUsing l1)).
  intros Hle Hrun.
  destruct (Nat.ltb_spec 0 n) as [Hpos|Hzero].
  - assert (n <= length l1)%nat as Hlen by apply filter_length_le.
    destruct (setupLayoutBounds_placed_all n l1 Hle Hlen)
      as (st & Hst & Hlog & Hlength & Hkeep & Hset).
    destruct (setupLayoutBounds_returns n l1 Hlen)
      as (st' & Hst' & Hf & _).
    rewrite Hst in Hst'. injection Hst' as <-.
    rewrite Hst in Hrun. simpl in Hrun. injection Hrun as <- <-.
    cbn [_clippingContextListForMask _clippingContextListForDraw].
    destruct (calcClippedDrawTotalBounds_after_frame model l
                (layoutContexts st) Hf) as [-> ->].
    fold l1. fold n.
    destruct (Nat.ltb_spec 0 n) as [_|]; [|lia].
    set (l2 := map setupMatrices (layoutContexts st)).
    assert (n <= length l2)%nat as Hlen2.
    { unfold l2. rewrite length_map, Hlength. done. }
    destruct (setupLayoutBounds_placed_all n l2 Hle Hlen2)
      as (st2 & -> & Hlog2 & Hlength2 & Hkeep2 & Hset2).
    simpl. rewrite Hlog, Hlog2.
    assert (layoutContexts st2 = l2) as ->.
    { apply list_eq. intros p.
      destruct (decide (n <= p)%nat) as [Hp|Hp]; [by apply Hkeep2|].
      destruct (position_channel (n / ColorChannelCount)
                  (n mod ColorChannelCount) p) as (c & i & Hc & Hi & ->).
      { rewrite countsFrom_total. lia. }
      destruct (Hset c i Hc Hi) as (_ & _ & Hp1).
      destruct (Hset2 c i Hc Hi) as (_ & _ & Hp2).
      rewrite Hp2. unfold l2. change (map ?f ?k) with (f <$> k).
      rewrite list_lookup_fmap, Hp1.
      by destruct (l1 !! _). }
    assert (map setupMatrices l2 = l2) as ->.
    { unfold l2. rewrite map_map. apply map_ext. by intros []. }
    done.
  - injection Hrun as <- <-.
    cbn [_clippingContextListForMask _clippingContextListForDraw].
    assert (map (calcClippedDrawTotalBounds model) l1 = l1) as ->.
    { unfold l1. rewrite map_map. apply map_ext. intros cc.
      apply (calcClippedDrawTotalBounds_fixed model cc); [|done|done].
      unfold calcClippedDrawTotalBounds.
      destruct (calcClippedDrawTotalBounds_body_fold model cc
                  (_clippedDrawableIndexList cc))
        as (_ & _ & [[_ ->]|(_ & _ & -> & _)]); done. }
    fold n. by rewrite (proj2 (Nat.ltb_ge 0 n) Hzero).
Qed.


(** ** doDrawModel: the indices that are drawn *)

Lemma lastWithOrder_lt (n : nat) (renderOrder : list Z) (k i : nat) :
  lastWithOrder n renderOrder k = Some i ->
  (i < n)%nat /\ renderOrder !! i = Some (Z.of_nat k).
Proof.
  unfold lastWithOrder. intros Hlast.
  assert (i ∈ filter (fun i => renderOrder !! i = Some (Z.of_nat k))
                     (seq 0 n)) as Hin.
  { apply last_Some in Hlast as [l' ->]. apply elem_of_app. right. by left. }
  apply list_elem_of_filter in Hin as [Hk Hin].
  apply elem_of_seq in Hin. split; [lia|done].
Qed.


(** ** initialize: where the ids of a context come from *)

Lemma founded_upto_step (drawableMasks : list (list Z))
    (drawableMaskCounts : list Z) (n : nat)
    (this this' : CubismClippingManager_WebGL) (ms : list Z) (cnt : Z) :
  drawableMasks !! n = Some ms -> drawableMaskCounts !! n = Some cnt ->
  founded_upto drawableMasks drawableMaskCounts n this ->
  initialize_body drawableMasks drawableMaskCounts n this = Some this' ->
  founded_upto drawableMasks drawableMaskCounts (S n) this'.
Proof.
  intros Hms Hcnt Hinv Hbody.
  assert (forall k cc, _clippingContextListForMask this !! k = Some cc ->
            exists i, head (_clippedDrawableIndexList cc ++ [n]) = Some i /\
                      (i < S n)%nat /\
                      drawableMasks !! i = Some (_clippingIdList cc) /\
                      drawableMaskCounts !! i = Some (_clippingIdCount cc) /\
                      (0 < _clippingIdCount cc)%Z) as Hgrow.
  { intros k cc Hcc. destruct (Hinv k cc Hcc) as (i & Hi & Hlt & H1 & H2 & H3).
    exists i. split; [|split; [lia|done]].
    destruct (_clippedDrawableIndexList cc); [done|exact Hi]. }
  assert (forall k cc, _clippingContextListForMask this !! k = Some cc ->
            exists i, head (_clippedDrawableIndexList cc) = Some i /\
                      (i < S n)%nat /\
                      drawableMasks !! i = Some (_clippingIdList cc) /\
                      drawableMaskCounts !! i = Some (_clippingIdCount cc) /\
                      (0 < _clippingIdCount cc)%Z) as Hkeep.
  { intros k cc Hcc. destruct (Hinv k cc Hcc) as (i & Hi & Hlt & H).
    exists i. split; [done|]. split; [lia|done]. }
  destruct (initialize_body_cases _ _ _ _ _ _ _ Hms Hcnt Hbody)
    as [[Hle ->]|[(Hlt & k0 & Hfind & ->)|(Hlt & Hfind & ->)]];
    intros k cc Hcc; simpl in Hcc.
  - by apply (Hkeep k).
  - destruct (decide (k0 = k)) as [->|Hne].
    + rewrite list_lookup_alter_eq in Hcc.
      destruct (_clippingContextListForMask this !! k) as [cc0|] eqn:Hcc0;
        [|done].
      injection Hcc as <-. exact (Hgrow k cc0 Hcc0).
    + rewrite list_lookup_alter_ne in Hcc by done. by apply (Hkeep k).
  - apply lookup_app_Some in Hcc as [Hcc|[_ Hcc]]; [by apply (Hkeep k)|].
    apply list_lookup_singleton_Some in Hcc as [_ <-].
    exists n. simpl. split; [done|]. split; [lia|]. done.
Qed.

(** X26.  After [initialize] on a fresh manager every context holds the
    mask array and the count of the first drawable that it clips, as that
    drawable gave them: the drawables that join a context later leave its
    ids as they are, whatever the order of their own. *)
Theorem initialize_context_ids (drawableCount : nat)
    (drawableMasks : list (list Z)) (drawableMaskCounts : list Z) :
  length drawableMasks = drawableCount ->
  length drawableMaskCounts = drawableCount ->
  exists this,
    initialize CubismClippingManager_WebGL_new drawableCount
               drawableMasks drawableMaskCounts = Some this /\
    forall k cc, _clippingContextListForMask this !! k = Some cc ->
      exists i, head (_clippedDrawableIndexList cc) = Some i /\
                (i < drawableCount)%nat /\
                drawableMasks !! i = Some (_clippingIdList cc) /\
                drawableMaskCounts !! i = Some (_clippingIdCount cc) /\
                (0 < _clippingIdCount cc)%Z.
Proof.
  intros Hm Hc.
  destruct (initialize_loop_invariant
              (founded_upto drawableMasks drawableMaskCounts)
              drawableMasks drawableMaskCounts
              (fun n this this' ms cnt Hms Hcnt =>
                 founded_upto_step _ _ n this this' ms cnt Hms Hcnt)
              drawableCount 0%nat CubismClippingManager_WebGL_new)
    as (this & Hrun & Hinv).
  { simpl. lia. }
  { simpl. lia. }
  { intros k cc Hcc. cbv in Hcc. discriminate. }
  exists this. split; [exact Hrun|]. exact Hinv.
Qed.

Lemma initialize_context_ids_witness :
  let drawableMasks := [[1; 2]; []; [2; 1]; [1]]%Z in
  let drawableMaskCounts := [2; 0; 2; 1]%Z in
  exists this,
    initialize CubismClippingManager_WebGL_new 4
               drawableMasks drawableMaskCounts = Some this /\
    forall k cc, _clippingContextListForMask this !! k = Some cc ->
      exists i, head (_clippedDrawableIndexList cc) = Some i /\
                (i < 4)%nat /\
                drawableMasks !! i = Some (_clippingIdList cc) /\
                drawableMaskCounts !! i = Some (_clippingIdCount cc) /\
                (0 < _clippingIdCount cc)%Z.
Proof.
  intros drawableMasks drawableMaskCounts.
  exact (initialize_context_ids 4 drawableMasks drawableMaskCounts
           eq_refl eq_refl).
Defined.

(** ** The mask buffer: made once, released with the manager *)

Section MaskBufferFacts.
Import MaskBuffer.

Lemma getMaskRenderTexture_each_cached (s_fbo : option WebGLObject)
    (steps : list Step) (this : t) (w : World)
    (resource : CubismRenderTextureResource) :
  _maskTexture this = Some resource -> texture resource <> 0%nat ->
  exists this',
    getMaskRenderTexture_each s_fbo steps this w
    = Some (replicate (S (length steps)) (texture resource), this', w) /\
    gl this' = gl this /\
    _colorBuffer this' = _colorBuffer this /\
    _maskTexture this'
    = Some (mkResource (_currentFrameNo this') (texture resource)) /\
    _clippingMaskBufferSize this'
    = fold_left (fun size s => match s with
                               | frame => size
                               | resize size' => size'
                               end) steps (_clippingMaskBufferSize this).
Proof.
  revert this resource. induction steps as [|s rest IH];
    intros this resource Hres Hnz; cbn [getMaskRenderTexture_each];
    unfold getMaskRenderTexture; rewrite Hres;
    rewrite (proj2 (Nat.eqb_neq _ _) Hnz); cbn [negb mbind option_bind].
  - eexists. split; [reflexivity|]. by repeat split.
  - match goal with
    | |- context [getMaskRenderTexture_each s_fbo rest ?m w] =>
        destruct (IH m (mkResource (_currentFrameNo this) (texture resource)))
          as (this' & Hrun & Hgl & Hcolor & Hmask & Hsize)
    end.
    { by destruct s. }
    { done. }
    rewrite Hrun. cbn [mbind option_bind texture].
    eexists. split; [reflexivity|].
    split; [by rewrite Hgl; destruct s|].
    split; [by rewrite Hcolor; destruct s|].
    split; [done|]. rewrite Hsize. by destruct s.
Qed.

(** X27.  The mask texture and its framebuffer are made once.  On a manager
    with a GL context and no mask texture, [getMaskRenderTexture] called
    frame after frame, with frames and changes of the buffer size in
    between, issues the calls of its first call only and returns the same
    framebuffer every time: the texture keeps the size that the manager
    had at the first call, whatever size is set later.  A [release] after
    that deletes this framebuffer and this texture. *)
Theorem getMaskRenderTexture_made_once (s_fbo : option WebGLObject)
    (steps : list Step) (this : t) (w : World) :
  gl this = true -> _maskTexture this = None ->
  let colorBuffer := S (objects w) in
  let buffer := S (S (objects w)) in
  exists this1 w1 this',
    getMaskRenderTexture s_fbo this w = Some (buffer, this1, w1) /\
    getMaskRenderTexture_each s_fbo steps this w
    = Some (replicate (S (length steps)) buffer, this', w1) /\
    created (drop (length (calls w)) (calls w1)) = [colorBuffer; buffer] /\
    (forall width height,
       texImage2D width height ∈ drop (length (calls w)) (calls w1) ->
       width = _clippingMaskBufferSize this /\
       height = _clippingMaskBufferSize this) /\
    _clippingMaskBufferSize this'
    = fold_left (fun size s => match s with
                               | frame => size
                               | resize size' => size'
                               end) steps (_clippingMaskBufferSize this) /\
    release this' w1
    = Some (emit [deleteFramebuffer buffer; deleteTexture (Some colorBuffer)]
                 w1).
Proof.
  intros Hgl Hnone colorBuffer buffer.
  assert (exists this1 w1,
            getMaskRenderTexture s_fbo this w = Some (buffer, this1, w1) /\
            _maskTexture this1
            = Some (mkResource (_currentFrameNo this) buffer) /\
            gl this1 = true /\ _colorBuffer this1 = Some colorBuffer /\
            _clippingMaskBufferSize this1 = _clippingMaskBufferSize this /\
            _currentFrameNo this1 = _currentFrameNo this /\
            calls w1 = calls w ++
              [createTexture colorBuffer;
               bindTexture (Some colorBuffer);
               texImage2D (_clippingMaskBufferSize this)
                          (_clippingMaskBufferSize this);
               texParameteri TEXTURE_WRAP_S CLAMP_TO_EDGE;
               texParameteri TEXTURE_WRAP_T CLAMP_TO_EDGE;
               texParameteri TEXTURE_MIN_FILTER LINEAR;
               texParameteri TEXTURE_MAG_FILTER LINEAR;
               bindTexture None;
               createFramebuffer buffer;
               bindFramebuffer (Some buffer);
               framebufferTexture2D (Some colorBuffer);
               bindFramebuffer s_fbo])
    as (this1 & w1 & Hfirst & Hmask1 & Hgl1 & Hcolor1 & Hsize1 & Hframe1 &
        Hcalls).
  { unfold getMaskRenderTexture, getMaskRenderTexture_create.
    rewrite Hnone, Hgl. cbn [negb]. eexists _, _. split; [reflexivity|].
    simpl. done. }
  assert (exists this',
            getMaskRenderTexture_each s_fbo steps this w
            = Some (replicate (S (length steps)) buffer, this', w1) /\
            gl this' = true /\ _colorBuffer this' = Some colorBuffer /\
            _maskTexture this' = Some (mkResource (_currentFrameNo this') buffer) /\
            _clippingMaskBufferSize this'
            = fold_left (fun size s => match s with
                                       | frame => size
                                       | resize size' => size'
                                       end) steps
                        (_clippingMaskBufferSize this))
    as (this' & Heach & Hgl' & Hcolor' & Hmask' & Hsize').
  { destruct steps as [|s rest]; cbn [getMaskRenderTexture_each];
      rewrite Hfirst; cbn [mbind option_bind].
    - exists this1. split; [done|]. split; [done|]. split; [done|].
      split; [|done]. by rewrite Hmask1, Hframe1.
    - destruct (getMaskRenderTexture_each_cached s_fbo rest (step s this1) w1
                  (mkResource (_currentFrameNo this) buffer))
        as (this' & Hrun & Hgl' & Hcolor' & Hmask' & Hsize').
      { by destruct s. }
      { done. }
      rewrite Hrun. cbn [mbind option_bind texture].
      exists this'. split; [done|].
      split; [by rewrite Hgl'; destruct s|].
      split; [by rewrite Hcolor'; destruct s|].
      split; [done|]. rewrite Hsize'. cbn [fold_left]. f_equal.
      by destruct s. }
  exists this1, w1, this'. split; [done|]. split; [done|].
  rewrite Hcalls, drop_app_length. split; [done|]. split.
  - intros width height Hin.
    rewrite !elem_of_cons, elem_of_nil in Hin.
    repeat (destruct Hin as [Hin|Hin]); try discriminate Hin;
      try (by destruct Hin).
    by injection Hin as -> ->.
  - split; [done|]. unfold release. rewrite Hgl', Hmask', Hcolor'. done.
Qed.

Lemma getMaskRenderTexture_made_once_witness :
  exists this1 w1 this',
    getMaskRenderTexture None (setGL new) (mkWorld [] 0)
    = Some (2%nat, this1, w1) /\
    getMaskRenderTexture_each None [frame; resize 512; frame] (setGL new)
      (mkWorld [] 0)
    = Some ([2; 2; 2; 2]%nat, this', w1) /\
    (forall width height,
       texImage2D width height ∈ calls w1 ->
       width = 256%Z /\ height = 256%Z) /\
    _clippingMaskBufferSize this' = 512%Z.
Proof.
  destruct (getMaskRenderTexture_made_once None [frame; resize 512; frame]
              (setGL new) (mkWorld [] 0) eq_refl eq_refl)
    as (this1 & w1 & this' & Hfirst & Heach & _ & Hsize & Hlast & _).
  exists this1, w1, this'. split; [exact Hfirst|]. split; [exact Heach|].
  split; [exact Hsize|exact Hlast].
Defined.

(** X28.  [CubismRenderer_WebGL.setClippingMaskBufferSize] leaves the
    renderer with a manager that has no GL context.  It returns exactly
    when the old manager has one; it then deletes the old framebuffer, if
    there is one, and the old texture, and the new manager has the given
    size, no texture and [gl] unset: nothing in the function hands it the
    context.  Until [startUp] is called again, [getMaskRenderTexture] on
    the new manager throws, and so does a second
    [setClippingMaskBufferSize]; after [startUp] the texture is made with
    the new size. *)
Theorem setClippingMaskBufferSize_loses_gl (size : Z) (_clippingManager : t)
    (w : World) :
  (is_Some (CubismRenderer_WebGL_setClippingMaskBufferSize size
              _clippingManager w)
   <-> gl _clippingManager = true) /\
  forall this' w',
    CubismRenderer_WebGL_setClippingMaskBufferSize size _clippingManager w
    = Some (this', w') ->
    gl this' = false /\
    getClippingMaskBufferSize this' = size /\
    _maskTexture this' = None /\
    calls w' =
      calls w ++
      match _maskTexture _clippingManager with
      | Some resource => [deleteFramebuffer (texture resource)]
      | None => []
      end ++ [deleteTexture (_colorBuffer _clippingManager)] /\
    (forall s_fbo w2, getMaskRenderTexture s_fbo this' w2 = None) /\
    (forall size2 w2,
       CubismRenderer_WebGL_setClippingMaskBufferSize size2 this' w2 = None) /\
    (forall s_fbo w2, exists buffer this2 w3,
       getMaskRenderTexture s_fbo (startUp this') w2
       = Some (buffer, this2, w3) /\
       texImage2D size size ∈ calls w3).
Proof.
  unfold CubismRenderer_WebGL_setClippingMaskBufferSize, release.
  split.
  - destruct (gl _clippingManager); simpl; split; done.
  - intros this' w'.
    destruct (gl _clippingManager); simpl; [|done].
    intros [= <- <-]. simpl. repeat split.
    intros s_fbo w2. eexists _, _, _. split; [reflexivity|].
    simpl. rewrite elem_of_app. right.
    rewrite !elem_of_cons. right. right. by left.
Qed.

Lemma setClippingMaskBufferSize_loses_gl_witness :
  exists this' w',
    CubismRenderer_WebGL_setClippingMaskBufferSize 512 (setGL new)
      (mkWorld [] 0) = Some (this', w') /\
    getMaskRenderTexture None this' w' = None.
Proof.
  destruct (setClippingMaskBufferSize_loses_gl 512 (setGL new) (mkWorld [] 0))
    as [[_ Hreturns] Hafter].
  destruct (Hreturns eq_refl) as [[this' w'] Hrun].
  exists this', w'. split; [exact Hrun|].
  by destruct (Hafter this' w' Hrun) as (_ & _ & _ & _ & Hthrows & _).
Defined.

End MaskBufferFacts.

(** ** doDrawModel: the screen pass and its draws *)

Lemma hasChannel_dec (buffer : option CubismClippingContext) :
  hasChannel buffer \/ ~ hasChannel buffer.
Proof.
  destruct buffer as [context|]; [|by left]. simpl.
  destruct (_layoutChannelNo context) as [c|]; [|right; by intros (c & ? & _)].
  destruct (decide (c < ColorChannelCount)%nat) as [Hc|Hc].
  - left. by exists c.
  - right. intros (c' & [= <-] & Hc'). done.
Qed.

Lemma Total_drawMesh_inUse gl s_instance this textureNo indexCount
    vertexCount indexArray vertexArray uvArray opacity colorBlendMode
    invertedMask :
  shaderSetsComplete (getInstance s_instance) ->
  hasChannel (clipBufferInUse this) ->
  Total (drawMesh gl s_instance this textureNo indexCount vertexCount
           indexArray vertexArray uvArray opacity colorBlendMode
           invertedMask).
Proof.
  intros Hsets Hchannel. unfold drawMesh.
  apply Total_bind; [gl_steps|]. intros _.
  apply Total_bind; [gl_steps|]. intros _.
  apply Total_bind; [by apply Total_setupShaderProgram_inUse|]. intros r.
  gl_steps.
Qed.

Lemma Throws_drawMesh gl s_instance this textureNo indexCount
    vertexCount indexArray vertexArray uvArray opacity colorBlendMode
    invertedMask :
  ~ hasChannel (clipBufferInUse this) ->
  Throws (drawMesh gl s_instance this textureNo indexCount vertexCount
            indexArray vertexArray uvArray opacity colorBlendMode
            invertedMask).
Proof.
  intros Hno. unfold drawMesh.
  apply Throws_bind_r. intros _. apply Throws_bind_r. intros _.
  cbv zeta. apply Throws_bind_l. by apply Throws_setupShaderProgram.
Qed.

(** The second loop throws when a visible drawable that it comes to has a
    context without a channel. *)
Lemma drawLoop_throws gl model _clippingManager (sorted : list nat)
    (a k : nat) s_instance this w :
  (a + k = length sorted)%nat ->
  shaderSetsComplete (getInstance s_instance) ->
  _clippingContextBufferForMask this = None ->
  (exists d, d ∈ drop a sorted /\
             getDrawableDynamicFlagIsVisible model d = true /\
             ~ hasChannel (clippingContextForDraw _clippingManager d)) ->
  drawLoop gl model _clippingManager sorted (seq a k) s_instance this w
  = None.
Proof.
  revert a s_instance this w.
  induction k as [|k IH]; intros a s_instance this w Hlen Hsets Hmask Hbad;
    simpl.
  - destruct Hbad as (d & Hd & _). rewrite drop_ge in Hd by lia.
    by apply elem_of_nil in Hd.
  - destruct (lookup_lt_is_Some_2 sorted a) as [d0 Hd0]; [lia|].
    unfold csmVector.at_. rewrite Hd0.
    rewrite (drop_S _ _ _ Hd0) in Hbad.
    assert (forall s' this' w',
              shaderSetsComplete (getInstance s') ->
              _clippingContextBufferForMask this' = None ->
              (getDrawableDynamicFlagIsVisible model d0 = true ->
               hasChannel (clippingContextForDraw _clippingManager d0)) ->
              drawLoop gl model _clippingManager sorted (seq (S a) k)
                       s' this' w' = None) as Hrest.
    { intros s' this' w' Hs' Hm' Hd0ok. apply IH; [lia|done|done|].
      destruct Hbad as (d & [->|Hd]%elem_of_cons & Hvis & Hno).
      - destruct Hno. by apply Hd0ok.
      - by exists d. }
    destruct (getDrawableDynamicFlagIsVisible model d0) eqn:Hvis; simpl.
    + destruct (hasChannel_dec (clippingContextForDraw _clippingManager d0))
        as [Hok|Hno].
      * match goal with
        | |- context [bind (drawMesh ?g ?s ?t ?a1 ?a2 ?a3 ?a4 ?a5 ?a6 ?a7
                              ?a8 ?a9) _] =>
            destruct (Total_drawMesh g s t a1 a2 a3 a4 a5 a6 a7 a8 a9)
              with w as (r & w1 & Hdraw)
        end.
        { done. }
        { simpl. by rewrite Hmask. }
        { done. }
        destruct (drawMesh_leaves _ _ _ _ _ _ _ _ _ _ _ _ _ _ _ Hsets Hdraw)
          as (Hsets1 & Hmask1 & _).
        unfold bind at 1. rewrite Hdraw.
        unfold bind at 1. by rewrite Hrest.
      * unfold bind at 1.
        rewrite Throws_drawMesh; [done|].
        unfold clipBufferInUse. simpl. by rewrite Hmask.
    + by apply Hrest.
Qed.





(** ** A frame of the clipping manager, with its GL calls and mask draws *)

Lemma Total_preDraw gl firstDraw : Total (preDraw gl firstDraw).
Proof. unfold preDraw. gl_steps. Qed.

Lemma liftMaskBuffer_getMaskRenderTexture (s_fbo : option WebGLObject)
    (buffer : MaskBuffer.t) :
  MaskBuffer.gl buffer = true ->
  Returns (fun r => MaskBuffer.gl (snd r) = true)
    (liftMaskBuffer (MaskBuffer.getMaskRenderTexture s_fbo buffer)).
Proof.
  intros Hgl w.
  unfold liftMaskBuffer, MaskBuffer.getMaskRenderTexture,
    MaskBuffer.getMaskRenderTexture_create.
  rewrite Hgl. cbn [negb].
  destruct (MaskBuffer._maskTexture buffer) as [resource|];
    [destruct (negb _)|]; by eexists _, _.
Qed.

(** The draws of the masks of one context *)
Lemma maskDrawLoop_leaves gl model clipContext indices s_instance renderer
    w r w' :
  shaderSetsComplete (getInstance s_instance) ->
  maskDrawLoop gl model clipContext indices s_instance renderer w
  = Some (r, w') ->
  shaderSetsComplete (getInstance (fst r)).
Proof.
  revert s_instance renderer w.
  induction indices as [|i rest IH]; intros s_instance renderer w Hsets;
    simpl.
  - by intros [= <- _].
  - destruct (clipDrawIndexAt clipContext i) as [d|]; [|by apply IH].
    destruct (getDrawableDynamicFlagVertexPositionsDidChange model d);
      simpl; [|by apply IH].
    intros (r1 & w1 & Hdraw & Hrest)%bind_Some.
    apply (IH _ _ _ (proj1 (drawMesh_leaves _ _ _ _ _ _ _ _ _ _ _ _ _ _ _
                               Hsets Hdraw)) Hrest).
Qed.

Lemma maskDrawLoop_returns gl model clipContext indices s_instance renderer
    w :
  shaderSetsComplete (getInstance s_instance) ->
  (forall i d, i ∈ indices -> clipDrawIndexAt clipContext i = Some d ->
     getDrawableDynamicFlagVertexPositionsDidChange model d = true ->
     hasChannel (Some clipContext)) ->
  exists r w',
    maskDrawLoop gl model clipContext indices s_instance renderer w
    = Some (r, w').
Proof.
  revert s_instance renderer w.
  induction indices as [|i rest IH]; intros s_instance renderer w Hsets Hok;
    simpl.
  - by eexists _, _.
  - assert (forall s' r' w', shaderSetsComplete (getInstance s') ->
              exists r w'',
                maskDrawLoop gl model clipContext rest s' r' w'
                = Some (r, w'')) as Hrest.
    { intros s' r' w' Hs'. apply IH; [done|].
      intros j d Hj. apply Hok. by right. }
    destruct (clipDrawIndexAt clipContext i) as [d|] eqn:Hd;
      [|by apply Hrest].
    destruct (getDrawableDynamicFlagVertexPositionsDidChange model d)
      eqn:Hflag; simpl; [|by apply Hrest].
    match goal with
    | |- context [bind (drawMesh ?g ?s ?t ?a1 ?a2 ?a3 ?a4 ?a5 ?a6 ?a7 ?a8
                          ?a9) _] =>
        destruct (Total_drawMesh_inUse g s t a1 a2 a3 a4 a5 a6 a7 a8 a9)
          with w as (r1 & w1 & Hdraw)
    end.
    { done. }
    { apply (Hok i d); [by left|done|done]. }
    destruct (Hrest (fst r1) (snd r1) w1) as (r & w' & Hrun).
    { apply (drawMesh_leaves _ _ _ _ _ _ _ _ _ _ _ _ _ _ _ Hsets Hdraw). }
    exists r, w'. unfold bind. by rewrite Hdraw.
Qed.

Lemma maskDrawLoop_throws gl model clipContext indices s_instance renderer
    w :
  shaderSetsComplete (getInstance s_instance) ->
  ~ hasChannel (Some clipContext) ->
  (exists i d, i ∈ indices /\ clipDrawIndexAt clipContext i = Some d /\
     getDrawableDynamicFlagVertexPositionsDidChange model d = true) ->
  maskDrawLoop gl model clipContext indices s_instance renderer w = None.
Proof.
  intros Hsets Hno. revert s_instance renderer w Hsets.
  induction indices as [|i rest IH]; intros s_instance renderer w Hsets Hbad;
    simpl.
  - destruct Hbad as (j & d & Hj & _). by apply elem_of_nil in Hj.
  - destruct (clipDrawIndexAt clipContext i) as [d|] eqn:Hd.
    + destruct (getDrawableDynamicFlagVertexPositionsDidChange model d)
        eqn:Hflag; simpl.
      * unfold bind. by rewrite Throws_drawMesh.
      * apply IH; [done|].
        destruct Hbad as (j & d' & [->|Hj]%elem_of_cons & Hd' & Hflag');
          [congruence|by exists j, d'].
    + apply IH; [done|].
      destruct Hbad as (j & d' & [->|Hj]%elem_of_cons & Hd' & Hflag');
        [congruence|by exists j, d'].
Qed.

Lemma drawsMask_setupMatrices (model : CubismModel)
    (clipContext : CubismClippingContext) :
  drawsMask model (setupMatrices clipContext) <-> drawsMask model clipContext.
Proof. done. Qed.

(** The second loop returns the contexts with their matrices, when it
    returns; it returns when every context whose masks are drawn has a
    channel, and throws when one of them has none. *)
Lemma maskLoop_contexts gl model contexts s_instance renderer w r w' :
  maskLoop gl model contexts s_instance renderer w = Some (r, w') ->
  fst r = map setupMatrices contexts.
Proof.
  revert s_instance renderer w r w'.
  induction contexts as [|cc rest IH]; intros s_instance renderer w r w';
    simpl.
  - by intros [= <- _].
  - intros (r1 & w1 & _ & H)%bind_Some.
    apply bind_Some in H as (r2 & w2 & Hrest & [= <- _]).
    simpl. f_equal. by apply (IH _ _ _ _ _ Hrest).
Qed.

Lemma maskLoop_returns gl model contexts s_instance renderer w :
  shaderSetsComplete (getInstance s_instance) ->
  maskDrawsReady model (map setupMatrices contexts) ->
  exists r w',
    maskLoop gl model contexts s_instance renderer w = Some (r, w') /\
    shaderSetsComplete (getInstance (fst (snd r))).
Proof.
  revert s_instance renderer w.
  induction contexts as [|cc rest IH]; intros s_instance renderer w Hsets
    Hready; cbn [maskLoop map] in *; cbv zeta.
  - by eexists _, _.
  - destruct (maskDrawLoop_returns gl model (setupMatrices cc)
                (seq 0 (Z.to_nat (_clippingIdCount (setupMatrices cc))))
                s_instance renderer w Hsets) as (r1 & w1 & Hdraws).
    { intros i d Hi Hd Hflag. apply Hready; [by left|].
      exists i, d. apply elem_of_seq in Hi. split; [lia|done]. }
    destruct (IH (fst r1) (snd r1) w1) as (r2 & w2 & Hrest & Hsets2).
    { by apply (maskDrawLoop_leaves _ _ _ _ _ _ _ _ _ Hsets Hdraws). }
    { intros c Hc. apply Hready. by right. }
    exists (setupMatrices cc :: fst r2, snd r2), w2. split; [|exact Hsets2].
    unfold bind. by rewrite Hdraws, Hrest.
Qed.

Lemma maskLoop_throws gl model contexts s_instance renderer w :
  shaderSetsComplete (getInstance s_instance) ->
  (exists clipContext,
     clipContext ∈ map setupMatrices contexts /\
     drawsMask model clipContext /\ ~ hasChannel (Some clipContext)) ->
  maskLoop gl model contexts s_instance renderer w = None.
Proof.
  revert s_instance renderer w.
  induction contexts as [|cc rest IH]; intros s_instance renderer w Hsets
    Hbad; cbn [maskLoop map] in *; cbv zeta.
  - destruct Hbad as (c & Hc & _). by apply elem_of_nil in Hc.
  - unfold bind at 1.
    destruct (maskDrawLoop gl model (setupMatrices cc) _ s_instance renderer
                w) as [[r1 w1]|] eqn:Hdraws; [|done].
    destruct Hbad as (c & [->|Hc]%elem_of_cons & Hdraw & Hno).
    + rewrite maskDrawLoop_throws in Hdraws; [done|done|done|].
      destruct Hdraw as (i & d & Hi & Hd & Hflag).
      exists i, d. split; [|done]. apply elem_of_seq. lia.
    + unfold bind. rewrite IH; [done| |by exists c].
      by apply (maskDrawLoop_leaves _ _ _ _ _ _ _ _ _ Hsets Hdraws).
Qed.

(** The count of a frame is that of the frame before, with the same
    model. *)
Lemma usingClipCountOf_after_frame (model : CubismModel)
    (this this1 : CubismClippingManager_WebGL) (log : list LogEntry) :
  setupClippingContext model this = Some (this1, log) ->
  usingClipCountOf model this1 = usingClipCountOf model this.
Proof.
  unfold usingClipCountOf, setupClippingContext.
  rewrite calcAllBounds_eq.
  set (l := _clippingContextListForMask this).
  set (l1 := map (calcClippedDrawTotalBounds model) l).
  set (n := length (List.filter isUsing l1)).
  destruct (Nat.ltb_spec 0 n) as [Hpos|Hzero].
  - destruct (setupLayoutBounds_returns n l1) as (st & -> & Hf & _).
    { apply filter_length_le. }
    simpl. intros [= <- _]. simpl.
    destruct (calcClippedDrawTotalBounds_after_frame model l
                (layoutContexts st) Hf) as [-> ->]. done.
  - intros [= <- _]. simpl.
    assert (map (calcClippedDrawTotalBounds model) l1 = l1) as ->; [|done].
    unfold l1. rewrite map_map. apply map_ext. intros cc.
    apply (calcClippedDrawTotalBounds_fixed model cc); [|done|done].
    unfold calcClippedDrawTotalBounds.
    destruct (calcClippedDrawTotalBounds_body_fold model cc
                (_clippedDrawableIndexList cc))
      as (_ & _ & [[_ ->]|(_ & _ & -> & _)]); done.
Qed.

(** The method and its contexts part.  The contexts part never throws;
    the method returns its contexts when no group is in use, and also
    when the manager has its GL context, [s_viewport] is set and every
    context whose masks are drawn has a channel; it throws when a group
    is in use and one of these fails. *)
Lemma setupClippingContext_run gl s_fbo s_viewport model st w :
  shaderSetsComplete (getInstance (shaderInstance st)) ->
  exists this' log,
    setupClippingContext model (clippingManager st) = Some (this', log) /\
    let count := usingClipCountOf model (clippingManager st) in
    let run :=
      CubismClippingManager_WebGL_setupClippingContext gl s_fbo s_viewport
        model st w in
    (count = 0%nat ->
     run = Some (mkFrame this' (MaskBuffer.nextFrame (maskBuffer st))
                   (shaderInstance st) (rendererState st) (firstDraw st),
                 w)) /\
    ((0 < count)%nat ->
     MaskBuffer.gl (maskBuffer st) = true -> is_Some s_viewport ->
     maskDrawsReady model (_clippingContextListForMask this') ->
     exists st' w',
       run = Some (st', w') /\ clippingManager st' = this' /\
       shaderSetsComplete (getInstance (shaderInstance st')) /\
       MaskBuffer.gl (maskBuffer st') = true /\
       _clippingContextBufferForMask (rendererState st') = None) /\
    ((0 < count)%nat ->
     MaskBuffer.gl (maskBuffer st) = false \/ s_viewport = None \/
     (exists clipContext,
        clipContext ∈ _clippingContextListForMask this' /\
        drawsMask model clipContext /\ ~ hasChannel (Some clipContext)) ->
     run = None).
Proof.
  intros Hsets.
  destruct (setupClippingContext_contexts_groups model (clippingManager st))
    as (this' & log & Hpart & _).
  exists this', log. split; [done|]. cbv zeta.
  revert Hpart.
  unfold CubismClippingManager_WebGL_setupClippingContext,
    setupClippingContext, usingClipCountOf.
  rewrite calcAllBounds_eq.
  set (l1 := map (calcClippedDrawTotalBounds model) _).
  set (n := length (List.filter isUsing l1)).
  destruct (Nat.ltb_spec 0 n) as [Hpos|Hzero].
  - destruct (setupLayoutBounds n l1) as [layout|] eqn:Hlayout; [|done].
    simpl. intros [= <- <-].
    cbn [_clippingContextListForMask]. split; [lia|]. split.
    + intros _ Hgl [viewport ->] Hready.
      rewrite Hgl. cbn [negb].
      unfold bind at 1. unfold call at 1.
      match goal with
      | |- context [bind (liftMaskBuffer ?m) _ ?w0] =>
          destruct (liftMaskBuffer_getMaskRenderTexture s_fbo
                      (MaskBuffer.nextFrame (maskBuffer st)) Hgl w0)
            as (r1 & w1 & Hr1 & Hgl1)
      end.
      unfold bind at 1. rewrite Hr1.
      destruct (Total_preDraw gl (firstDraw st) w1) as (fd & w2 & Hpre).
      unfold bind at 1. rewrite Hpre.
      unfold bind at 1. unfold logEntries at 1.
      unfold bind at 1. unfold call at 1.
      unfold bind at 1. unfold call at 1.
      unfold bind at 1. unfold call at 1.
      match goal with
      | |- context [bind (maskLoop ?g ?m ?c ?s ?r) _ ?w0] =>
          destruct (maskLoop_returns g m c s r w0 Hsets Hready)
            as (r3 & w3 & Hloop & Hsets3)
      end.
      unfold bind at 1. rewrite Hloop.
      unfold bind at 1. unfold call at 1.
      unfold bind at 1. unfold call at 1.
      eexists _, _. split; [reflexivity|]. simpl.
      by rewrite (maskLoop_contexts _ _ _ _ _ _ _ _ Hloop).
    + intros _ Hbad.
      destruct (MaskBuffer.gl (maskBuffer st)) eqn:Hgl; [|done].
      cbn [negb].
      apply Throws_bind_r. intros _. apply Throws_bind_r. intros r1.
      apply Throws_bind_r. intros fd.
      apply Throws_bind_r. intros _. apply Throws_bind_r. intros _.
      apply Throws_bind_r. intros _. apply Throws_bind_r. intros _.
      destruct Hbad as [Hbad|[->|Hbad]]; [done| |].
      * apply Throws_bind_r. intros r3. apply Throws_bind_r. intros _.
        apply Throws_bind_l, Throws_throw.
      * apply Throws_bind_l. intros w0. by apply maskLoop_throws.
  - intros [= <- <-]. simpl. split; [done|]. split; intros; lia.
Qed.

(** What a frame that returned has done. *)
Lemma setupClippingContext_returned gl s_fbo s_viewport model st w st' w' :
  shaderSetsComplete (getInstance (shaderInstance st)) ->
  CubismClippingManager_WebGL_setupClippingContext gl s_fbo s_viewport
    model st w = Some (st', w') ->
  (exists log,
     setupClippingContext model (clippingManager st)
     = Some (clippingManager st', log)) /\
  shaderSetsComplete (getInstance (shaderInstance st')) /\
  ((0 < usingClipCountOf model (clippingManager st))%nat ->
   MaskBuffer.gl (maskBuffer st) = true /\
   MaskBuffer.gl (maskBuffer st') = true /\
   is_Some s_viewport /\
   maskDrawsReady model (_clippingContextListForMask (clippingManager st')) /\
   _clippingContextBufferForMask (rendererState st') = None).
Proof.
  intros Hsets Hrun.
  destruct (setupClippingContext_run gl s_fbo s_viewport model st w Hsets)
    as (this' & log & Hpart & Hzero & Hsome & Hnone).
  cbv zeta in Hzero, Hsome, Hnone.
  destruct (usingClipCountOf model (clippingManager st)) as [|k] eqn:Hcount.
  - rewrite Hzero in Hrun by done. injection Hrun as <- <-. simpl.
    split; [by exists log|]. split; [done|]. lia.
  - assert (MaskBuffer.gl (maskBuffer st) = true) as Hgl.
    { destruct (MaskBuffer.gl (maskBuffer st)); [done|].
      rewrite Hnone in Hrun; [done|lia|by left]. }
    assert (is_Some s_viewport) as Hview.
    { destruct s_viewport; [done|].
      rewrite Hnone in Hrun; [done|lia|right; by left]. }
    assert (maskDrawsReady model (_clippingContextListForMask this'))
      as Hready.
    { intros cc Hcc Hdraws.
      destruct (hasChannel_dec (Some cc)) as [Hok|Hno]; [done|].
      rewrite Hnone in Hrun; [done|lia|].
      right. right. by exists cc. }
    destruct (Hsome ltac:(lia) Hgl Hview Hready)
      as (st'' & w'' & Hrun' & <- & Hsets' & Hgl' & Hmask').
    rewrite Hrun' in Hrun. injection Hrun as <- <-.
    split; [by exists log|]. split; [done|]. done.
Qed.



(** X21.  Which contexts a frame gives a slot to.  When
    [setupClippingContext] returns in a frame with up to 36 groups in use,
    it has laid out as many contexts as groups are in use, from the start
    of the list, whether they are the ones in use or not: a context at a
    position below the count has one of the four channels and a rectangle
    inside the unit square; a context at a later position has the channel
    and the rectangle that it had before (none on the first frame), and
    if one of its masks was drawn in the frame, it had a channel before:
    without one the frame throws. *)
Theorem setupClippingContext_slots_by_position (gl : WebGLRenderingContext)
    (s_fbo : option WebGLObject) (s_viewport : option (list Z))
    (model : CubismModel) (st : Frame) (w : World) (st' : Frame)
    (w' : World) :
  let this := clippingManager st in
  let this' := clippingManager st' in
  let count := usingClipCountOf model this in
  (count <= 36)%nat ->
  shaderSetsComplete (getInstance (shaderInstance st)) ->
  CubismClippingManager_WebGL_setupClippingContext gl s_fbo s_viewport
    model st w = Some (st', w') ->
  length (_clippingContextListForMask this')
  = length (_clippingContextListForMask this) /\
  forall p cc cc',
    _clippingContextListForMask this !! p = Some cc ->
    _clippingContextListForMask this' !! p = Some cc' ->
    ((p < count)%nat ->
     hasChannel (Some cc') /\ insideUnitSquare (_layoutBounds cc')) /\
    ((count <= p)%nat ->
     _layoutChannelNo cc' = _layoutChannelNo cc /\
     _layoutBounds cc' = _layoutBounds cc /\
     ((0 < count)%nat -> drawsMask model cc -> hasChannel (Some cc))).
Proof.
  intros this this' count Hle Hsets Hrun. subst this this' count.
  destruct (setupClippingContext_returned _ _ _ _ _ _ _ _ Hsets Hrun)
    as ([log Hpart] & _ & Hgl).
  destruct (setupClippingContext_contexts_slots model _ Hle)
    as (this1 & Hpart1 & Hlen & Hslots).
  destruct (setupClippingContext_contexts_groups model (clippingManager st))
    as (this2 & log2 & Hpart2 & _ & Hgroups & _).
  rewrite Hpart in Hpart1, Hpart2.
  injection Hpart1 as <- _. injection Hpart2 as <- _.
  split; [done|]. intros p cc cc' Hcc Hcc'.
  destruct (Hslots p cc cc' Hcc Hcc') as [Hbelow Hkeep].
  split; [done|]. intros Hp. destruct (Hkeep Hp) as [Hchannel Hbounds].
  split; [done|]. split; [done|]. intros Hpos Hdraws.
  destruct (Hgl Hpos) as (_ & _ & _ & Hready & _).
  destruct (Forall2_lookup_lr _ _ _ _ _ _ Hgroups Hcc Hcc')
    as (Hids & Hidcount & _).
  assert (hasChannel (Some cc')) as (c & Hc & Hlt).
  { apply Hready; [by apply list_elem_of_lookup_2 in Hcc'|].
    destruct Hdraws as (i & d & Hi & Hd & Hflag). exists i, d.
    unfold clipDrawIndexAt in *. by rewrite Hids, Hidcount. }
  exists c. by rewrite <- Hchannel.
Qed.

Lemma setupClippingContext_slots_by_position_witness :
  match startedUp modelWithIdleGroup with
  | Some st =>
      match CubismClippingManager_WebGL_setupClippingContext glBuildsAll
              None (Some [0; 0; 640; 480]%Z) modelWithIdleGroup st
              emptyWorld with
      | Some (st', w') =>
          forall cc cc',
            _clippingContextListForMask (clippingManager st) !! 1%nat
            = Some cc ->
            _clippingContextListForMask (clippingManager st') !! 1%nat
            = Some cc' ->
            isUsing cc' = true /\
            _layoutChannelNo cc' = _layoutChannelNo cc
      | None => False
      end
  | None => False
  end.
Proof.
  destruct (startedUp modelWithIdleGroup) as [st|] eqn:Hst;
    [|vm_compute in Hst; discriminate Hst].
  destruct (CubismClippingManager_WebGL_setupClippingContext glBuildsAll
              None (Some [0; 0; 640; 480]%Z) modelWithIdleGroup st
              emptyWorld) as [[st' w']|] eqn:Hrun.
  - assert (usingClipCountOf modelWithIdleGroup (clippingManager st)
            = 1%nat) as Hcount.
    { vm_compute in Hst. injection Hst as <-. vm_compute. reflexivity. }
    assert (shaderSetsComplete (getInstance (shaderInstance st))) as Hsets.
    { vm_compute in Hst. injection Hst as <-. exact I. }
    destruct (setupClippingContext_slots_by_position glBuildsAll None
                (Some [0; 0; 640; 480]%Z) modelWithIdleGroup st emptyWorld
                st' w') as (_ & Hslots); [rewrite Hcount; lia|done|done|].
    intros cc cc' Hcc Hcc'.
    destruct (Hslots 1%nat cc cc' Hcc Hcc') as [_ Hkeep].
    split; [|apply Hkeep; rewrite Hcount; lia].
    vm_compute in Hst. injection Hst as <-.
    vm_compute in Hrun. injection Hrun as <- _.
    vm_compute in Hcc'. by injection Hcc' as <-.
  - vm_compute in Hst. injection Hst as <-.
    vm_compute in Hrun. discriminate Hrun.
Defined.

(** X24.  A frame is idempotent.  When [setupClippingContext] has
    returned in a frame with up to 36 groups in use, the method run again
    on what it left, with the same model and from any state of the GL
    context, returns as well and moves nothing in the contexts: the draw
    list, and of every context the flag, the ids, the rectangle, the slot
    and the clipped drawables are as the first frame left them, and so
    are the two matrices of every context whose rectangle has a width and
    a height other than zero.  (The shader instance is new or whole.) *)
Theorem setupClippingContext_idempotent (gl : WebGLRenderingContext)
    (s_fbo : option WebGLObject) (s_viewport : option (list Z))
    (model : CubismModel) (st : Frame) (w : World) (st1 : Frame)
    (w1 w1' : World) :
  (usingClipCountOf model (clippingManager st) <= 36)%nat ->
  shaderSetsComplete (getInstance (shaderInstance st)) ->
  CubismClippingManager_WebGL_setupClippingContext gl s_fbo s_viewport
    model st w = Some (st1, w1) ->
  exists st2 w2,
    CubismClippingManager_WebGL_setupClippingContext gl s_fbo s_viewport
      model st1 w1' = Some (st2, w2) /\
    _clippingContextListForDraw (clippingManager st2)
    = _clippingContextListForDraw (clippingManager st1) /\
    Forall2
      (fun cc1 cc2 =>
         sameButMatrices cc1 cc2 /\
         (hasExtent (_allClippedDrawRect cc1) ->
          _matrixForMask cc2 = _matrixForMask cc1 /\
          _matrixForDraw cc2 = _matrixForDraw cc1))
      (_clippingContextListForMask (clippingManager st1))
      (_clippingContextListForMask (clippingManager st2)).
Proof.
  intros Hle Hsets Hrun.
  destruct (setupClippingContext_returned _ _ _ _ _ _ _ _ Hsets Hrun)
    as ([log Hpart] & Hsets1 & Hgl).
  pose proof (setupClippingContext_contexts_idempotent model _ _ _ Hle Hpart)
    as Hagain.
  pose proof (usingClipCountOf_after_frame model _ _ _ Hpart) as Hcount.
  destruct (setupClippingContext_run gl s_fbo s_viewport model st1 w1'
              Hsets1)
    as (this2 & log2 & Hpart2 & Hzero & Hsome & _).
  cbv zeta in Hzero, Hsome. rewrite Hagain in Hpart2.
  injection Hpart2 as <- <-. rewrite Hcount in Hzero, Hsome.
  assert (exists st2 w2,
            CubismClippingManager_WebGL_setupClippingContext gl s_fbo
              s_viewport model st1 w1' = Some (st2, w2) /\
            clippingManager st2 = clippingManager st1)
    as (st2 & w2 & Hrun2 & Hsame).
  { destruct (usingClipCountOf model (clippingManager st)) as [|k] eqn:Hk.
    - eexists _, _. split; [by apply Hzero|done].
    - destruct (Hgl ltac:(lia)) as (_ & Hgl1 & Hview & Hready & _).
      destruct (Hsome ltac:(lia) Hgl1 Hview Hready)
        as (st2 & w2 & Hrun2 & Hthis & _).
      by exists st2, w2. }
  exists st2, w2. split; [done|]. rewrite Hsame. split; [done|].
  apply Forall2_same_length_lookup. split; [done|].
  intros p cc1 cc2 H1 H2. rewrite H1 in H2. injection H2 as <-.
  by repeat split.
Qed.

Lemma setupClippingContext_idempotent_witness :
  match startedUp frameWithPoints with
  | Some st =>
      match CubismClippingManager_WebGL_setupClippingContext glBuildsAll
              None (Some [0; 0; 640; 480]%Z) frameWithPoints st
              emptyWorld with
      | Some (st1, w1) =>
          exists st2 w2,
            CubismClippingManager_WebGL_setupClippingContext glBuildsAll
              None (Some [0; 0; 640; 480]%Z) frameWithPoints st1 w1
            = Some (st2, w2)
      | None => False
      end
  | None => False
  end.
Proof.
  destruct (startedUp frameWithPoints) as [st|] eqn:Hst;
    [|vm_compute in Hst; discriminate Hst].
  destruct (CubismClippingManager_WebGL_setupClippingContext glBuildsAll
              None (Some [0; 0; 640; 480]%Z) frameWithPoints st
              emptyWorld) as [[st1 w1]|] eqn:Hrun.
  - destruct (setupClippingContext_idempotent glBuildsAll None
                (Some [0; 0; 640; 480]%Z) frameWithPoints st emptyWorld
                st1 w1 w1) as (st2 & w2 & Hrun2 & _); [| |done|].
    + vm_compute in Hst. injection Hst as <-. vm_compute. lia.
    + vm_compute in Hst. injection Hst as <-. exact I.
    + by exists st2, w2.
  - vm_compute in Hst. injection Hst as <-.
    vm_compute in Hrun. discriminate Hrun.
Defined.

(** ** doDrawModel: the mask pass, then the screen pass *)


